(** * geoip-web-api: lookup orchestrator, option overlay and CORS matcher

    A shallow embedding of [src/db.ts], [src/options.ts], [src/options.js],
    [src/utils.ts] and [src/cors.ts], followed by the properties of the
    resolution and configuration core.

    Conventions of the embedding.
    - A JavaScript object used as a record of named values is an ordered
      property list (own enumerable string keys in [Object.keys] order).
    - A JavaScript number is [NaN], an infinity or a rational; the code only
      compares numbers and applies [Math.floor], both of which are exact on
      doubles, so no rounding is involved.  The sign of zero is not kept.
    - Strings are Rocq strings.  [String.prototype.trim] and
      [String.prototype.toLowerCase] follow the Unicode tables of the
      runtime; they are the methods of the class [Str.Runtime], together
      with the few laws the proofs use.
    - A regular expression carries its [lastIndex]: [test] on an expression
      with the [g] or [y] flag reads and writes it.
    - The backend adapters, [net.isIP], [os.homedir], [path.sep], the WHATWG
      [URL] parser and the regular-expression engine are environment: they
      are parameters of the sections that use them. *)

From Stdlib Require Import String Ascii List ZArith QArith Qround Lia Bool.
From Stdlib Require Import DecimalString.
Import ListNotations.
Local Open Scope string_scope.
Local Open Scope list_scope.
#[local] Set Warnings "-register-all".

(* ================================================================== *)
(** * Part I: the embedding                                            *)
(* ================================================================== *)

(** ** Ordered property lists *)

Module Obj.
Section Obj.
Context {V : Type}.

Definition t := list (string * V).

(** [Object.keys(o)] *)
Definition keys (o : t) : list string := map fst o.

(** [o[k]], [None] standing for [undefined] *)
Fixpoint get (o : t) (k : string) : option V :=
  match o with
  | [] => None
  | (k', v) :: o' => if String.eqb k' k then Some v else get o' k
  end.

(** [o[k] = v]: an existing key keeps its position, a new key goes last.
    (The runtime enumerates keys that are array indices first; the output
    names are no such keys, and no property of a header map stated below
    depends on the position of an entry.) *)
Fixpoint set (k : string) (v : V) (o : t) : t :=
  match o with
  | [] => [(k, v)]
  | (k', v') :: o' =>
      if String.eqb k' k then (k, v) :: o' else (k', v') :: set k v o'
  end.

(** [delete o[k]] *)
Definition delete (k : string) (o : t) : t :=
  filter (fun e => negb (String.eqb (fst e) k)) o.

End Obj.
Arguments t : clear implicits.
End Obj.

(** [arr.includes(x)] on an array of strings *)
Definition includes (l : list string) (x : string) : bool :=
  existsb (String.eqb x) l.

(** [Boolean(s)] on a string *)
Definition nonEmpty (s : string) : bool := negb (String.eqb s "").

(** ** String primitives of the runtime *)

Module Str.

(** White space of the ASCII range *)
Definition isWhiteSpace (c : ascii) : bool :=
  let n := nat_of_ascii c in
  ((9 <=? n) && (n <=? 13) || (n =? 32))%nat.

(** The ASCII characters with a glyph of their own *)
Definition isGraphic (c : ascii) : bool :=
  let n := nat_of_ascii c in
  ((33 <=? n) && (n <=? 126))%nat.

Fixpoint lastChar (s : string) : option ascii :=
  match s with
  | String c EmptyString => Some c
  | String _ s' => lastChar s'
  | EmptyString => None
  end.

(** Whether [s] is empty, or starts and ends with a graphic ASCII
    character *)
Definition graphicEnds (s : string) : bool :=
  match s with
  | String c _ =>
      isGraphic c
      && match lastChar s with Some d => isGraphic d | None => false end
  | EmptyString => true
  end.

(** [s.trim()] and [s.toLowerCase()].  Both consult the Unicode tables of
    the runtime ([trim] removes every white-space character and line
    terminator, among them U+00A0 and U+FEFF; [toLowerCase] applies the
    full case mapping), so they are taken from the runtime.  The laws are
    the facts about them the proofs rely on: a trimmed string has nothing
    left to trim, a string bounded by graphic ASCII characters is left
    alone, and lowering keeps a string empty or non-empty. *)
Class Runtime := {
  trim : string -> string;
  toLowerCase : string -> string;
  trim_idempotent : forall s, trim (trim s) = trim s;
  trim_graphic : forall s, graphicEnds s = true -> trim s = s;
  toLowerCase_nil : toLowerCase "" = "";
  toLowerCase_nonEmpty : forall s, toLowerCase s = "" -> s = ""
}.

(** [s.slice(n)] for [0 <= n] *)
Fixpoint slice (n : nat) (s : string) : string :=
  match n, s with
  | O, _ => s
  | S n', String _ s' => slice n' s'
  | S _, EmptyString => EmptyString
  end.

(** [s.substring(a, b)] for [a <= b] *)
Definition substring (a b : nat) (s : string) : string :=
  String.substring a (b - a) s.

(** [s.indexOf(c)], [-1] when absent *)
Fixpoint indexOf (c : ascii) (s : string) : Z :=
  match s with
  | String c' s' =>
      if Ascii.eqb c' c then 0%Z
      else let i := indexOf c s' in if (i <? 0)%Z then (-1)%Z else (i + 1)%Z
  | EmptyString => (-1)%Z
  end.

(** Decimal rendering of an array index *)
Definition ofIndex (n : nat) : string :=
  NilZero.string_of_uint (Nat.to_uint n).

End Str.

(** ** JavaScript values, as far as the option overlay inspects them *)

Module Js.

Inductive number :=
| NaN
| Infinity (negative : bool)
| Finite (q : Q).

Definition ofZ (z : Z) : number := Finite (inject_Z z).

(** [a <= b]; any comparison with [NaN] is false *)
Definition le (a b : number) : bool :=
  match a, b with
  | NaN, _ | _, NaN => false
  | Infinity true, _ => true
  | _, Infinity false => true
  | Infinity false, _ => false
  | _, Infinity true => false
  | Finite x, Finite y => Qle_bool x y
  end.

(** [a < b] *)
Definition lt (a b : number) : bool :=
  match a, b with
  | NaN, _ | _, NaN => false
  | Infinity true, Infinity true => false
  | Infinity false, Infinity false => false
  | Infinity true, _ => true
  | _, Infinity false => true
  | Infinity false, _ => false
  | _, Infinity true => false
  | Finite x, Finite y => negb (Qle_bool y x)
  end.

(** [Math.floor] *)
Definition floor (a : number) : number :=
  match a with
  | Finite q => ofZ (Qfloor q)
  | _ => a
  end.

(** A [RegExp] object: its pattern, its flags, and the [lastIndex] that
    [test] reads and writes when the [g] or the [y] flag is set *)
Record RegExp := { source : string; flags : string; lastIndex : nat }.

Fixpoint hasFlag (f : ascii) (flags : string) : bool :=
  match flags with
  | String c flags' => Ascii.eqb c f || hasFlag f flags'
  | EmptyString => false
  end.

(** [r.global || r.sticky] *)
Definition stateful (r : RegExp) : bool :=
  hasFlag "g" (flags r) || hasFlag "y" (flags r).

(** [r.lastIndex = i] *)
Definition withLastIndex (i : nat) (r : RegExp) : RegExp :=
  {| source := source r; flags := flags r; lastIndex := i |}.

Inductive value :=
| VUndefined
| VNull
| VBool (b : bool)
| VNum (n : number)
| VStr (s : string)
| VArr (elements : list value)
| VObj (props : list (string * value))
| VRegExp (r : RegExp).

(** [v instanceof Object] *)
Definition instanceofObject (v : value) : bool :=
  match v with
  | VArr _ | VObj _ | VRegExp _ => true
  | _ => false
  end.

(** The own enumerable properties of a value *)
Definition props (v : value) : Obj.t value :=
  match v with
  | VObj ps => ps
  | VArr l => combine (map Str.ofIndex (seq 0 (length l))) l
  | _ => []
  end.

(** [Object.keys(v)] *)
Definition keys (v : value) : list string := Obj.keys (props v).

(** [v[k]] for the property names the overlay reads (none of them lives
    on a prototype) *)
Definition prop (v : value) (k : string) : value :=
  match Obj.get (props v) k with
  | Some x => x
  | None => VUndefined
  end.

(** [typeof v === 'number' ? v : undefined] and its siblings *)
Definition asNumber (v : value) : option number :=
  match v with VNum n => Some n | _ => None end.

Definition asBoolean (v : value) : option bool :=
  match v with VBool b => Some b | _ => None end.

Definition asString (v : value) : option string :=
  match v with VStr s => Some s | _ => None end.

(** [Array.isArray(v) ? v : undefined] *)
Definition asArray (v : value) : option (list value) :=
  match v with VArr l => Some l | _ => None end.

(** Truthiness of a value *)
Definition truthy (v : value) : bool :=
  match v with
  | VUndefined | VNull => false
  | VBool b => b
  | VNum NaN => false
  | VNum (Finite q) => negb (Qeq_bool q 0)
  | VNum (Infinity _) => true
  | VStr s => nonEmpty s
  | VArr _ | VObj _ | VRegExp _ => true
  end.

End Js.

(** ** log.ts *)

Module LogLevel.
Definition OFF : Js.number := Js.ofZ 0.
Definition ERROR : Js.number := Js.ofZ 1.
Definition WARN : Js.number := Js.ofZ 2.
Definition INFO : Js.number := Js.ofZ 3.
Definition DEBUG : Js.number := Js.ofZ 4.
End LogLevel.

(** ** utils.ts *)

Module Utils.

Definition isWordChar (c : ascii) : bool :=
  let n := nat_of_ascii c in
  ((48 <=? n) && (n <=? 57) || (65 <=? n) && (n <=? 90)
   || (97 <=? n) && (n <=? 122) || (n =? 95))%nat.

Fixpoint allChars (p : ascii -> bool) (s : string) : bool :=
  match s with
  | String c s' => p c && allChars p s'
  | EmptyString => true
  end.

(** [/^[\w.][\w.\-]*$/.test(user)] *)
Definition isPosixUsername (user : string) : bool :=
  match user with
  | String c rest =>
      (isWordChar c || Ascii.eqb c ".")
      && allChars (fun d => isWordChar d || Ascii.eqb d "." || Ascii.eqb d "-") rest
  | EmptyString => false
  end.

Section ExpandTilde.
Variable sep : string.       (* [path.sep] *)
Variable homedir : string.   (* [os.homedir()] *)

Definition expandTildePath (path : string) : string :=
  if negb (nonEmpty path)
     || negb (match String.get 0 path with Some c => Ascii.eqb c "~" | None => false end)
     || negb (String.eqb sep "/")
  then path
  else if (String.length path =? 1)%nat then homedir
  else if match String.get 1 path with Some c => Ascii.eqb c "/" | None => false end
  then (homedir ++ Str.slice 1 path)%string
  else
    let sepIndex := Str.indexOf "/" path in
    let user :=
      Str.substring 1
        (if (1 <? sepIndex)%Z then Z.to_nat sepIndex else String.length path)
        path in
    if isPosixUsername user
    then ("/home/" ++ user ++ Str.slice (1 + String.length user) path)%string
    else path.

End ExpandTilde.

Section AssertPath.
Context {RT : Str.Runtime}.
(** [accessSync(path, mode)]: [None] when it returns, the message of the
    error when it throws *)
Variable accessSync : string -> option string.

(** [assertPath]; [Some] carries the message of the thrown [Error] *)
Definition assertPath (path : string) : option string :=
  if negb (nonEmpty (Str.trim path)) then Some "Path not defined"
  else accessSync path.

End AssertPath.
End Utils.

(** ** Reader options of the two adapters (type declarations of
    [db-interface/maxmind.ts] and [db-interface/ip2location.ts], as the
    overlay and [getDbOptions] use them) *)

Module MaxMind.
Record Options := { dbPath : string }.
End MaxMind.

Module IP2Location.
Record Options := { dbPath : string; subdivisionCsvPath : string }.
End IP2Location.

(** ** Response types of server.ts *)

Module Server.

(** Values stored in a [GeoIpApiResponse] *)
Inductive OutputValue (Rec : Type) :=
| VNull
| VString (s : string)
| VNumber (n : Z)
| VData (r : Rec).
Arguments VNull {Rec}.
Arguments VString {Rec} s.
Arguments VNumber {Rec} n.
Arguments VData {Rec} r.

Definition GeoIpApiResponse (Rec : Type) := Obj.t (OutputValue Rec).

Record LookupResponse (Rec : Type) := {
  error : option string;
  geoIpApiResponse : GeoIpApiResponse Rec
}.
Arguments error {Rec} _.
Arguments geoIpApiResponse {Rec} _.
Arguments Build_LookupResponse {Rec} _ _.

End Server.

(** ** db.ts *)

Module Db.

Inductive DbProvider := UNKNOWN | MAXMIND | IP2LOCATION.

(** [DbInterface]: the contract shared by the MaxMind and IP2Location
    adapters.  [get] answers [None] for [null]; [getStringValue] answers
    [None] for [null]. *)
Class DbInterface (Rec : Type) := {
  get : string -> option Rec;
  getStringValue : option Rec -> string -> option string
}.

(** An [async] computation whose only suspension point is the adapter's
    [get]: either it has returned, or it awaits [get ip] and continues
    with the answer. *)
Inductive Async (Rec A : Type) :=
| Return (a : A)
| AwaitGet (ip : string) (k : option Rec -> Async Rec A).
Arguments Return {Rec A} a.
Arguments AwaitGet {Rec A} ip k.

(** Running a computation against an adapter *)
Fixpoint run {Rec A} `{DbInterface Rec} (m : Async Rec A) : A :=
  match m with
  | Return a => a
  | AwaitGet ip k => run (k (get ip))
  end.

(** The addresses handed to the adapter's [get], in call order *)
Fixpoint getCalls {Rec A} `{DbInterface Rec} (m : Async Rec A) : list string :=
  match m with
  | Return _ => []
  | AwaitGet ip k => ip :: getCalls (k (get ip))
  end.

Record GwaDbOptions := {
  dbProvider : DbProvider;
  maxMindOptions : option MaxMind.Options;
  ip2LocationOptions : option IP2Location.Options
}.

(** The adapter objects [getDbInterface] can construct *)
Inductive Adapter :=
| GwaMaxMind (o : MaxMind.Options)
| GwaIP2Location (o : IP2Location.Options).

(** [getDbInterface]; [inl] carries the message of the thrown [Error] *)
Definition getDbInterface (gwaDbOptions : GwaDbOptions) : string + Adapter :=
  match dbProvider gwaDbOptions with
  | MAXMIND =>
      match maxMindOptions gwaDbOptions with
      | None => inl "[GwaDb] MaxMind database indicated but options not available"
      | Some o => inr (GwaMaxMind o)
      end
  | IP2LOCATION =>
      match ip2LocationOptions gwaDbOptions with
      | None => inl "[GwaDb] IP2Location database indicated but options not available"
      | Some o => inr (GwaIP2Location o)
      end
  | UNKNOWN => inl "[GwaDb] Could not identify a database to load"
  end.

Section GwaDb.
Context {Rec : Type} `{DbInterface Rec}.
Variable isIP : string -> Z.
Variable enabledOutputs_ : list string.

(** One iteration of the [forEach] of [geoIpApiResponse] *)
Definition shapeOutput (dbResult : option Rec) (ip : option string)
  (ipVersion : option Z) (ret : Server.GeoIpApiResponse Rec) (output : string)
  : Server.GeoIpApiResponse Rec :=
  if String.eqb output "ip" then
    Obj.set output
      (Server.VString match ip with
               | Some s => if nonEmpty s then s else ""
               | None => ""
               end) ret
  else if String.eqb output "ip_version" then
    Obj.set output
      (Server.VNumber match ipVersion with
               | Some v => if Z.eqb v 0 then 0%Z else v
               | None => 0%Z
               end) ret
  else if String.eqb output "country" || String.eqb output "subdivision" then
    match getStringValue dbResult output with
    | Some value => Obj.set output (Server.VString value) ret
    | None => ret
    end
  else if String.eqb output "data" then
    match dbResult with
    | Some r => Obj.set output (Server.VData r) ret
    | None => ret
    end
  else ret.

Definition geoIpApiResponse (dbResult : option Rec) (ip : option string)
  (ipVersion : option Z) : Server.GeoIpApiResponse Rec :=
  fold_left (shapeOutput dbResult ip ipVersion) enabledOutputs_ [].

Definition ipOutputs : list string := ["ip"; "ip_version"].

Definition isDbNeeded : bool :=
  (0 <? length (filter (fun option => negb (includes ipOutputs option))
                       enabledOutputs_))%nat.

Definition lookup (ip : string) : Async Rec (Server.LookupResponse Rec) :=
  let ipVersion := isIP ip in
  let ret := {| Server.error := None;
                Server.geoIpApiResponse :=
                  geoIpApiResponse None (Some ip) (Some ipVersion) |} in
  if Z.eqb ipVersion 0 then
    Return {| Server.error := Some ("Invalid IP: " ++ ip)%string;
              Server.geoIpApiResponse := Server.geoIpApiResponse ret |}
  else if negb isDbNeeded then
    Return ret
  else
    AwaitGet ip (fun dbResult =>
      match dbResult with
      | None =>
          Return {| Server.error :=
                      Some ("Failed to search database for IP: " ++ ip)%string;
                    Server.geoIpApiResponse := Server.geoIpApiResponse ret |}
      | Some r =>
          Return {| Server.error := Server.error ret;
                    Server.geoIpApiResponse :=
                      geoIpApiResponse (Some r) (Some ip) (Some ipVersion) |}
      end).

End GwaDb.
End Db.

(** ** cors.ts *)

Module Cors.

Record CorsOptions := {
  origins : option (list string);
  originRegEx : Js.value          (* [RegExp | string | null] *)
}.

Record GwaCors := {
  origins_ : option (list string);
  originRegEx_ : option Js.RegExp
}.

Section GwaCors.
Context {RT : Str.Runtime}.
(** [new URL(o).origin]; [None] when the constructor throws *)
Variable urlOrigin : string -> option string.
(** Whether [new RegExp(pattern, 'i')] succeeds *)
Variable regExpCompiles : string -> bool.
(** [r.test(s)]: the answer, and the [lastIndex] the call leaves in [r] *)
Variable regExpTest : Js.RegExp -> string -> bool * nat.

Definition sanitizeOrigins (origins : option (list string))
  : option (list string) :=
  match origins with
  | None => None
  | Some origins =>
      let sanitizedOrigins :=
        filter nonEmpty
          (map (fun o => match urlOrigin o with Some x => x | None => "" end)
             (filter nonEmpty (map Str.trim origins))) in
      if (0 <? length sanitizedOrigins)%nat then Some sanitizedOrigins else None
  end.

Definition parseOriginsRegEx (originRegEx : Js.value) : option Js.RegExp :=
  match originRegEx with
  | Js.VStr pattern =>
      if regExpCompiles pattern
      then Some {| Js.source := pattern; Js.flags := "i"; Js.lastIndex := 0 |}
      else None
  | Js.VRegExp r => Some r
  | _ => None
  end.

(** The constructor: [options.origins || null], [options.originRegEx || null] *)
Definition create (options : CorsOptions) : GwaCors :=
  {| origins_ := sanitizeOrigins (origins options);
     originRegEx_ :=
       parseOriginsRegEx
         (if Js.truthy (originRegEx options) then originRegEx options
          else Js.VNull) |}.

Definition setOrigins (origins : option (list string)) (c : GwaCors) : GwaCors :=
  {| origins_ := sanitizeOrigins origins; originRegEx_ := originRegEx_ c |}.

Definition setOriginRegEx (originRegEx : Js.value) (c : GwaCors) : GwaCors :=
  {| origins_ := origins_ c; originRegEx_ := parseOriginsRegEx originRegEx |}.

(** [isCorsOrigin]: the answer and the matcher after the call.  The
    stored expression is consulted only for a non-empty origin the list
    does not hold, and the call leaves its [lastIndex] behind. *)
Definition isCorsOrigin (c : GwaCors) (origin : string) : bool * GwaCors :=
  if negb (nonEmpty origin) then (false, c)
  else if match origins_ c with Some l => includes l origin | None => false end
  then (true, c)
  else
    match originRegEx_ c with
    | Some r =>
        let '(matched, lastIndex) := regExpTest r origin in
        (matched,
         {| origins_ := origins_ c;
            originRegEx_ := Some (Js.withLastIndex lastIndex r) |})
    | None => (false, c)
    end.

(** [getCorsHeaders(origin?)]; [None] for an absent argument and for the
    [null] result *)
Definition getCorsHeaders (c : GwaCors) (origin : option string)
  : option (Obj.t string) * GwaCors :=
  match origin with
  | Some o =>
      if nonEmpty o then
        let '(allowed, c') := isCorsOrigin c o in
        (if allowed then Some [("Access-Control-Allow-Origin", o)] else None,
         c')
      else (None, c)
  | None => (None, c)
  end.

End GwaCors.
End Cors.

(** ** options.ts *)

Module Options.

Record EnabledOutputs := {
  country : bool;
  subdivision : bool;
  ip : bool;
  ip_version : bool;
  data : bool
}.

Record AppOptions := {
  logLevel : Js.number;
  port : Js.number;
  enabledOutputs : EnabledOutputs;
  prettyOutput : bool;
  getHeaders : Obj.t (option string);   (* [null] value: remove the header *)
  getPaths : list string;
  cors : Cors.CorsOptions;
  maxmind : MaxMind.Options;
  ip2location : IP2Location.Options
}.

(** [Object.keys(target.enabledOutputs)] *)
Definition outputKeys : list string :=
  ["country"; "subdivision"; "ip"; "ip_version"; "data"].

(** [eo[output] = b] for a key of [outputKeys] *)
Definition setOutput (output : string) (b : bool) (eo : EnabledOutputs)
  : EnabledOutputs :=
  if String.eqb output "country" then
    {| country := b; subdivision := subdivision eo; ip := ip eo;
       ip_version := ip_version eo; data := data eo |}
  else if String.eqb output "subdivision" then
    {| country := country eo; subdivision := b; ip := ip eo;
       ip_version := ip_version eo; data := data eo |}
  else if String.eqb output "ip" then
    {| country := country eo; subdivision := subdivision eo; ip := b;
       ip_version := ip_version eo; data := data eo |}
  else if String.eqb output "ip_version" then
    {| country := country eo; subdivision := subdivision eo; ip := ip eo;
       ip_version := b; data := data eo |}
  else if String.eqb output "data" then
    {| country := country eo; subdivision := subdivision eo; ip := ip eo;
       ip_version := ip_version eo; data := b |}
  else eo.

(** Assignments to one field of the target *)
Definition withLogLevel v (t : AppOptions) : AppOptions :=
  {| logLevel := v; port := port t; enabledOutputs := enabledOutputs t;
     prettyOutput := prettyOutput t; getHeaders := getHeaders t;
     getPaths := getPaths t; cors := cors t; maxmind := maxmind t;
     ip2location := ip2location t |}.
Definition withPort v (t : AppOptions) : AppOptions :=
  {| logLevel := logLevel t; port := v; enabledOutputs := enabledOutputs t;
     prettyOutput := prettyOutput t; getHeaders := getHeaders t;
     getPaths := getPaths t; cors := cors t; maxmind := maxmind t;
     ip2location := ip2location t |}.
Definition withEnabledOutputs v (t : AppOptions) : AppOptions :=
  {| logLevel := logLevel t; port := port t; enabledOutputs := v;
     prettyOutput := prettyOutput t; getHeaders := getHeaders t;
     getPaths := getPaths t; cors := cors t; maxmind := maxmind t;
     ip2location := ip2location t |}.
Definition withPrettyOutput v (t : AppOptions) : AppOptions :=
  {| logLevel := logLevel t; port := port t; enabledOutputs := enabledOutputs t;
     prettyOutput := v; getHeaders := getHeaders t;
     getPaths := getPaths t; cors := cors t; maxmind := maxmind t;
     ip2location := ip2location t |}.
Definition withGetHeaders v (t : AppOptions) : AppOptions :=
  {| logLevel := logLevel t; port := port t; enabledOutputs := enabledOutputs t;
     prettyOutput := prettyOutput t; getHeaders := v;
     getPaths := getPaths t; cors := cors t; maxmind := maxmind t;
     ip2location := ip2location t |}.
Definition withGetPaths v (t : AppOptions) : AppOptions :=
  {| logLevel := logLevel t; port := port t; enabledOutputs := enabledOutputs t;
     prettyOutput := prettyOutput t; getHeaders := getHeaders t;
     getPaths := v; cors := cors t; maxmind := maxmind t;
     ip2location := ip2location t |}.
Definition withCors v (t : AppOptions) : AppOptions :=
  {| logLevel := logLevel t; port := port t; enabledOutputs := enabledOutputs t;
     prettyOutput := prettyOutput t; getHeaders := getHeaders t;
     getPaths := getPaths t; cors := v; maxmind := maxmind t;
     ip2location := ip2location t |}.
Definition withMaxmind v (t : AppOptions) : AppOptions :=
  {| logLevel := logLevel t; port := port t; enabledOutputs := enabledOutputs t;
     prettyOutput := prettyOutput t; getHeaders := getHeaders t;
     getPaths := getPaths t; cors := cors t; maxmind := v;
     ip2location := ip2location t |}.
Definition withIp2location v (t : AppOptions) : AppOptions :=
  {| logLevel := logLevel t; port := port t; enabledOutputs := enabledOutputs t;
     prettyOutput := prettyOutput t; getHeaders := getHeaders t;
     getPaths := getPaths t; cors := cors t; maxmind := maxmind t;
     ip2location := v |}.

(** [list.map((p) => (typeof p === 'string' ? p.trim() : '')).filter(Boolean)] *)
Definition trimmedStrings {RT : Str.Runtime} (l : list Js.value)
  : list string :=
  filter nonEmpty
    (map (fun p => match Js.asString p with
                   | Some s => Str.trim s
                   | None => ""
                   end) l).

(** The header object under construction: its own entries, and whether
    its prototype has been removed *)
Record HeaderMap := {
  entries : Obj.t (option string);
  nullProto : bool
}.

(** [{}] *)
Definition emptyHeaders : HeaderMap := {| entries := []; nullProto := false |}.

(** [delete m[k]] *)
Definition deleteHeader (k : string) (m : HeaderMap) : HeaderMap :=
  {| entries := Obj.delete k (entries m); nullProto := nullProto m |}.

(** [m[key] = value].  [__proto__] is an accessor of [Object.prototype]:
    as long as the object inherits it and has no own property of that
    name, the write calls the setter instead of storing an entry.  The
    setter ignores a string, and given [null] it removes the prototype of
    the object.  Every other name, inherited or not, is a data property
    and the write stores an own entry. *)
Definition assignHeader (key : string) (value : option string)
  (m : HeaderMap) : HeaderMap :=
  if String.eqb key "__proto__" && negb (nullProto m)
     && negb (includes (Obj.keys (entries m)) key)
  then
    match value with
    | Some _ => m
    | None => {| entries := entries m; nullProto := true |}
    end
  else {| entries := Obj.set key value (entries m); nullProto := nullProto m |}.

Section Overlay.
Context {RT : Str.Runtime}.
Variable sep : string.             (* [path.sep] *)
Variable homedir : string.         (* [os.homedir()] *)
(** [pathJoin(process.cwd(), 'GeoLite2-Country.mmdb')] *)
Variable defaultDbPath : string.

Definition getDefaultOptions : AppOptions :=
  {| logLevel := LogLevel.INFO;
     port := Js.ofZ 3000;
     enabledOutputs :=
       {| country := true; subdivision := true; ip := false;
          ip_version := false; data := false |};
     prettyOutput := false;
     getHeaders := [];
     getPaths := ["/"; "/*"];
     cors := {| Cors.origins := None; Cors.originRegEx := Js.VNull |};
     maxmind := {| MaxMind.dbPath := defaultDbPath |};
     ip2location := {| IP2Location.dbPath := "";
                       IP2Location.subdivisionCsvPath := "" |} |}.

Definition overlayLogLevel (src : Js.value) (target : AppOptions) : AppOptions :=
  match Js.asNumber (Js.prop src "logLevel") with
  | Some logLevel =>
      if Js.le LogLevel.OFF logLevel && Js.le logLevel LogLevel.DEBUG
      then withLogLevel (Js.floor logLevel) target
      else target
  | None => target
  end.

Definition overlayPort (src : Js.value) (target : AppOptions) : AppOptions :=
  match Js.asNumber (Js.prop src "port") with
  | Some port =>
      if Js.le (Js.ofZ 0) port && Js.le port (Js.ofZ 65535)
      then withPort (Js.floor port) target
      else target
  | None => target
  end.

Definition overlayEnabledOutputs (src : Js.value) (target : AppOptions)
  : AppOptions :=
  let enabledOutputs := Js.prop src "enabledOutputs" in
  if Js.instanceofObject enabledOutputs then
    fold_left
      (fun target output =>
         match Js.asBoolean (Js.prop enabledOutputs output) with
         | Some outputValue =>
             withEnabledOutputs
               (setOutput output outputValue (Options.enabledOutputs target))
               target
         | None => target
         end)
      outputKeys target
  else target.

Definition overlayPrettyOutput (src : Js.value) (target : AppOptions)
  : AppOptions :=
  match Js.asBoolean (Js.prop src "prettyOutput") with
  | Some b => withPrettyOutput b target
  | None => target
  end.

(** One iteration of the [forEach] over [Object.keys(getHeaders)] *)
Definition overlayHeader (getHeaders : Js.value)
  (staged : HeaderMap) (key : string) : HeaderMap :=
  let headerValue :=
    match Js.prop getHeaders key with
    | Js.VStr s => Some (Some s)
    | Js.VNull => Some None
    | _ => None
    end in
  match headerValue with
  | Some headerValue =>
      let duplicateKey :=
        find (fun h => String.eqb (Str.toLowerCase h) (Str.toLowerCase key))
             (Obj.keys (entries staged)) in
      let staged :=
        match duplicateKey with
        | Some d => if nonEmpty d then deleteHeader d staged else staged
        | None => staged
        end in
      assignHeader key headerValue staged
  | None => staged
  end.

Definition overlayGetHeaders (src : Js.value) (target : AppOptions)
  : AppOptions :=
  let getHeaders := Js.prop src "getHeaders" in
  if Js.instanceofObject getHeaders then
    withGetHeaders
      (entries
         (fold_left (overlayHeader getHeaders) (Js.keys getHeaders)
                    emptyHeaders))
      target
  else target.

Definition overlayGetPaths (src : Js.value) (target : AppOptions)
  : AppOptions :=
  match Js.asArray (Js.prop src "getPaths") with
  | Some getPaths =>
      let paths := trimmedStrings getPaths in
      withGetPaths (if (length paths =? 0)%nat then paths ++ ["/"] else paths)
                   target
  | None => target
  end.

Definition overlayCors (src : Js.value) (target : AppOptions) : AppOptions :=
  let cors := Js.prop src "cors" in
  if Js.instanceofObject cors then
    let target :=
      match Js.asArray (Js.prop cors "origins") with
      | Some origins =>
          withCors {| Cors.origins := Some (trimmedStrings origins);
                      Cors.originRegEx := Cors.originRegEx (Options.cors target) |}
                   target
      | None => target
      end in
    let originRegEx :=
      match Js.prop cors "originRegEx" with
      | Js.VStr s => Js.VStr s
      | Js.VRegExp r => Js.VRegExp r
      | _ => Js.VUndefined
      end in
    if Js.truthy originRegEx then
      withCors {| Cors.origins := Cors.origins (Options.cors target);
                  Cors.originRegEx := originRegEx |}
               target
    else target
  else target.

(** [typeof v === 'string' ? v.trim() : undefined], kept when truthy *)
Definition trimmedPath (v : Js.value) : option string :=
  match Js.asString v with
  | Some s => if nonEmpty (Str.trim s) then Some (Str.trim s) else None
  | None => None
  end.

(** The MaxMind block; the flag is [maxMindDefined] *)
Definition overlayMaxmind (src : Js.value) (target : AppOptions)
  : AppOptions * bool :=
  let maxmind := Js.prop src "maxmind" in
  if Js.instanceofObject maxmind then
    match trimmedPath (Js.prop maxmind "dbPath") with
    | Some dbPath =>
        (withMaxmind
           {| MaxMind.dbPath := Utils.expandTildePath sep homedir dbPath |}
           target, true)
    | None => (target, false)
    end
  else (target, false).

Definition overlayIp2location (src : Js.value) (target : AppOptions)
  : AppOptions :=
  let ip2location := Js.prop src "ip2location" in
  if Js.instanceofObject ip2location then
    match trimmedPath (Js.prop ip2location "dbPath") with
    | Some dbPath =>
        let target :=
          withIp2location
            {| IP2Location.dbPath := Utils.expandTildePath sep homedir dbPath;
               IP2Location.subdivisionCsvPath :=
                 IP2Location.subdivisionCsvPath (Options.ip2location target) |}
            target in
        let target := withMaxmind {| MaxMind.dbPath := "" |} target in
        match trimmedPath (Js.prop ip2location "subdivisionCsvPath") with
        | Some subdivisionCsvPath =>
            withIp2location
              {| IP2Location.dbPath :=
                   IP2Location.dbPath (Options.ip2location target);
                 IP2Location.subdivisionCsvPath :=
                   Utils.expandTildePath sep homedir subdivisionCsvPath |}
              target
        | None => target
        end
    | None => target
    end
  else target.

Definition overlayOptions (unsafeSrc : Js.value) : AppOptions :=
  let target := getDefaultOptions in
  if negb (Js.instanceofObject unsafeSrc) then target
  else
    let src := unsafeSrc in
    let target := overlayLogLevel src target in
    let target := overlayPort src target in
    let target := overlayEnabledOutputs src target in
    let target := overlayPrettyOutput src target in
    let target := overlayGetHeaders src target in
    let target := overlayGetPaths src target in
    let target := overlayCors src target in
    let '(target, maxMindDefined) := overlayMaxmind src target in
    if negb maxMindDefined then overlayIp2location src target else target.

End Overlay.

Definition getDbOptions (appOptions : AppOptions) : Db.GwaDbOptions :=
  if nonEmpty (MaxMind.dbPath (maxmind appOptions)) then
    {| Db.dbProvider := Db.MAXMIND;
       Db.maxMindOptions := Some (maxmind appOptions);
       Db.ip2LocationOptions := None |}
  else if nonEmpty (IP2Location.dbPath (ip2location appOptions)) then
    {| Db.dbProvider := Db.IP2LOCATION;
       Db.maxMindOptions := None;
       Db.ip2LocationOptions := Some (ip2location appOptions) |}
  else
    {| Db.dbProvider := Db.UNKNOWN;
       Db.maxMindOptions := None;
       Db.ip2LocationOptions := None |}.

End Options.

(** ** options.js *)

Module OptionsJs.
Import Options.

Section Overlay.
Context {RT : Str.Runtime}.
Variable sep : string.             (* [path.sep] *)
Variable homedir : string.         (* [os.homedir()] *)
(** [join(process.cwd(), 'GeoLite2-Country.mmdb')] *)
Variable defaultDbPath : string.
(** [ToNumber] on strings, arrays, objects and regular expressions: the
    numeric-literal grammar applied to the operand's primitive form *)
Variable stringToNumber : Js.value -> Js.number.

(** [ToNumber(v)], the coercion behind [>=], [<=], [>] and [Math.floor] *)
Definition toNumber (v : Js.value) : Js.number :=
  match v with
  | Js.VUndefined => Js.NaN
  | Js.VNull => Js.ofZ 0
  | Js.VBool b => Js.ofZ (if b then 1 else 0)
  | Js.VNum n => n
  | _ => stringToNumber v
  end.

Definition getDefaultOptions : AppOptions :=
  {| logLevel := LogLevel.INFO;
     port := Js.ofZ 3000;
     enabledOutputs :=
       {| country := true; subdivision := true; ip := false;
          ip_version := false; data := false |};
     prettyOutput := false;
     getHeaders := [];
     getPaths := ["/"; "/*"];
     cors := {| Cors.origins := None; Cors.originRegEx := Js.VNull |};
     maxmind := {| MaxMind.dbPath := defaultDbPath |};
     ip2location := {| IP2Location.dbPath := "";
                       IP2Location.subdivisionCsvPath := "" |} |}.

Definition overlayLogLevel (src : Js.value) (target : AppOptions) : AppOptions :=
  let logLevel := Js.prop src "logLevel" in
  if Js.le (Js.ofZ 0) (toNumber logLevel) && Js.le (toNumber logLevel) (Js.ofZ 4)
  then withLogLevel (Js.floor (toNumber logLevel)) target
  else target.

Definition overlayPort (src : Js.value) (target : AppOptions) : AppOptions :=
  let port := Js.prop src "port" in
  if Js.lt (Js.ofZ 0) (toNumber port)
  then withPort (Js.floor (toNumber port)) target
  else target.

Definition overlayEnabledOutputs (src : Js.value) (target : AppOptions)
  : AppOptions :=
  let enabledOutputs := Js.prop src "enabledOutputs" in
  if Js.instanceofObject enabledOutputs then
    let knownOutputs := outputKeys in
    fold_left
      (fun target output =>
         match Js.asBoolean (Js.prop enabledOutputs output) with
         | Some outputValue =>
             withEnabledOutputs
               (setOutput output outputValue (Options.enabledOutputs target))
               target
         | None => target
         end)
      (filter (fun output => includes knownOutputs output)
              (Js.keys enabledOutputs))
      target
  else target.

Definition overlayPrettyOutput (src : Js.value) (target : AppOptions)
  : AppOptions :=
  match Js.asBoolean (Js.prop src "prettyOutput") with
  | Some b => withPrettyOutput b target
  | None => target
  end.

(** One iteration of the [forEach] over [Object.keys(src.getHeaders)] *)
Definition overlayHeader (getHeaders : Js.value)
  (staged : HeaderMap) (key : string) : HeaderMap :=
  match Js.prop getHeaders key with
  | Js.VStr _ | Js.VNull =>
      let duplicateKey :=
        find (fun h => String.eqb (Str.toLowerCase h) (Str.toLowerCase key))
             (Obj.keys (entries staged)) in
      let staged :=
        match duplicateKey with
        | Some d => if nonEmpty d then deleteHeader d staged else staged
        | None => staged
        end in
      assignHeader key (Js.asString (Js.prop getHeaders key)) staged
  | _ => staged
  end.

Definition overlayGetHeaders (src : Js.value) (target : AppOptions)
  : AppOptions :=
  let getHeaders := Js.prop src "getHeaders" in
  if Js.instanceofObject getHeaders then
    withGetHeaders
      (entries
         (fold_left (overlayHeader getHeaders) (Js.keys getHeaders)
                    emptyHeaders))
      target
  else target.

Definition overlayGetPaths (src : Js.value) (target : AppOptions)
  : AppOptions :=
  match Js.asArray (Js.prop src "getPaths") with
  | Some getPaths =>
      let paths := trimmedStrings getPaths in
      withGetPaths (if (length paths =? 0)%nat then paths ++ ["/"] else paths)
                   target
  | None => target
  end.

Definition overlayCors (src : Js.value) (target : AppOptions) : AppOptions :=
  let cors := Js.prop src "cors" in
  if Js.instanceofObject cors then
    let target :=
      match Js.asArray (Js.prop cors "origins") with
      | Some origins =>
          withCors {| Cors.origins := Some (trimmedStrings origins);
                      Cors.originRegEx := Cors.originRegEx (Options.cors target) |}
                   target
      | None => target
      end in
    let originRegEx := Js.prop cors "originRegEx" in
    if Js.truthy originRegEx
       && match originRegEx with
          | Js.VStr _ | Js.VRegExp _ => true
          | _ => false
          end
    then
      withCors {| Cors.origins := Cors.origins (Options.cors target);
                  Cors.originRegEx := originRegEx |}
               target
    else target
  else target.

(** [v && typeof v === 'string'] *)
Definition truthyString (v : Js.value) : option string :=
  match Js.asString v with
  | Some s => if Js.truthy v then Some s else None
  | None => None
  end.

(** The MaxMind block; the flag is [maxMindDefined] *)
Definition overlayMaxmind (src : Js.value) (target : AppOptions)
  : AppOptions * bool :=
  let maxmind := Js.prop src "maxmind" in
  if Js.instanceofObject maxmind then
    match truthyString (Js.prop maxmind "dbPath") with
    | Some dbPath =>
        (withMaxmind
           {| MaxMind.dbPath := Utils.expandTildePath sep homedir dbPath |}
           target, true)
    | None => (target, false)
    end
  else (target, false).

Definition overlayIp2location (src : Js.value) (target : AppOptions)
  : AppOptions :=
  let ip2location := Js.prop src "ip2location" in
  if Js.instanceofObject ip2location then
    match truthyString (Js.prop ip2location "dbPath") with
    | Some dbPath =>
        let target :=
          withIp2location
            {| IP2Location.dbPath := Utils.expandTildePath sep homedir dbPath;
               IP2Location.subdivisionCsvPath :=
                 IP2Location.subdivisionCsvPath (Options.ip2location target) |}
            target in
        let target := withMaxmind {| MaxMind.dbPath := "" |} target in
        match truthyString (Js.prop ip2location "subdivisionCsvPath") with
        | Some subdivisionCsvPath =>
            withIp2location
              {| IP2Location.dbPath :=
                   IP2Location.dbPath (Options.ip2location target);
                 IP2Location.subdivisionCsvPath :=
                   Utils.expandTildePath sep homedir subdivisionCsvPath |}
              target
        | None => target
        end
    | None => target
    end
  else target.

Definition overlayOptions (src : Js.value) : AppOptions :=
  let target := getDefaultOptions in
  if negb (Js.instanceofObject src) then target
  else
    let target := overlayLogLevel src target in
    let target := overlayPort src target in
    let target := overlayEnabledOutputs src target in
    let target := overlayPrettyOutput src target in
    let target := overlayGetHeaders src target in
    let target := overlayGetPaths src target in
    let target := overlayCors src target in
    let '(target, maxMindDefined) := overlayMaxmind src target in
    if negb maxMindDefined then overlayIp2location src target else target.

End Overlay.

Definition getDbOptions (appOptions : AppOptions) : Db.GwaDbOptions :=
  if nonEmpty (MaxMind.dbPath (maxmind appOptions)) then
    {| Db.dbProvider := Db.MAXMIND;
       Db.maxMindOptions := Some (maxmind appOptions);
       Db.ip2LocationOptions := None |}
  else if nonEmpty (IP2Location.dbPath (ip2location appOptions)) then
    {| Db.dbProvider := Db.IP2LOCATION;
       Db.maxMindOptions := None;
       Db.ip2LocationOptions := Some (ip2location appOptions) |}
  else
    {| Db.dbProvider := Db.UNKNOWN;
       Db.maxMindOptions := None;
       Db.ip2LocationOptions := None |}.

End OptionsJs.

(** ** Orders of response keys *)

(** The canonical order of the output names *)
Definition canonicalOrder : list string :=
  ["ip"; "ip_version"; "country"; "subdivision"; "data"].

(** [isSubsequence l m]: the elements of [l] occur in [m] in that order *)
Fixpoint isSubsequence (l m : list string) : bool :=
  match l, m with
  | [], _ => true
  | _ :: _, [] => false
  | x :: l', y :: m' =>
      if String.eqb x y then isSubsequence l' m' else isSubsequence l m'
  end.

(** The list of first occurrences, in order *)
Definition firstOccurrences (l : list string) : list string :=
  fold_left (fun seen x => if includes seen x then seen else seen ++ [x]) l [].

(** Whether [geoIpApiResponse] stores a value for an output name *)
Definition resolves {Rec} `{Db.DbInterface Rec} (dbResult : option Rec)
  (output : string) : bool :=
  String.eqb output "ip" || String.eqb output "ip_version"
  || (String.eqb output "country" || String.eqb output "subdivision")
     && match Db.getStringValue dbResult output with
        | Some _ => true
        | None => false
        end
  || String.eqb output "data"
     && match dbResult with Some _ => true | None => false end.

(** ** A sample environment, for examples *)

Module Sample.

Record GeoRecord := { iso_code : string; region : option string }.

(** An adapter over a two-entry table *)
Definition adapter : Db.DbInterface GeoRecord := {|
  Db.get ip :=
    if String.eqb ip "8.8.8.8" then Some {| iso_code := "US"; region := None |}
    else if String.eqb ip "1.1.1.1"
    then Some {| iso_code := "AU"; region := Some "QLD" |}
    else None;
  Db.getStringValue r field :=
    match r with
    | Some rec =>
        if String.eqb field "country" then Some (iso_code rec)
        else if String.eqb field "subdivision" then region rec
        else None
    | None => None
    end
|}.

(** The string runtime of the ASCII range: [trim] removes the white
    space of the range, [toLowerCase] maps [A] to [Z] *)
Fixpoint trimStart (s : string) : string :=
  match s with
  | String c s' => if Str.isWhiteSpace c then trimStart s' else s
  | EmptyString => EmptyString
  end.

Fixpoint trimEnd (s : string) : string :=
  match s with
  | String c s' =>
      let r := trimEnd s' in
      if Str.isWhiteSpace c && String.eqb r "" then "" else String c r
  | EmptyString => EmptyString
  end.

Definition trim (s : string) : string := trimEnd (trimStart s).

Definition lowerChar (c : ascii) : ascii :=
  let n := nat_of_ascii c in
  if ((65 <=? n) && (n <=? 90))%nat then ascii_of_nat (n + 32) else c.

Fixpoint toLowerCase (s : string) : string :=
  match s with
  | String c s' => String (lowerChar c) (toLowerCase s')
  | EmptyString => EmptyString
  end.

Definition strings : Str.Runtime.
Proof.
  assert (Hend : forall s, trimEnd (trimEnd s) = trimEnd s).
  { induction s as [|c s IH]; [reflexivity|].
    cbn [trimEnd].
    destruct (Str.isWhiteSpace c && String.eqb (trimEnd s) "") eqn:E;
      [reflexivity|].
    cbn [trimEnd]. rewrite IH, E. reflexivity. }
  assert (Hstart : forall s,
             trimStart s = ""
             \/ exists c r, trimStart s = String c r
                             /\ Str.isWhiteSpace c = false).
  { induction s as [|c s IH]; [left; reflexivity|].
    cbn [trimStart]. destruct (Str.isWhiteSpace c) eqn:E; [exact IH|].
    right. exists c, s. split; [reflexivity|exact E]. }
  assert (Hlast : forall s d,
             Str.lastChar s = Some d -> Str.isWhiteSpace d = false ->
             trimEnd s = s).
  { induction s as [|c s IH]; intros d Hd Hw; [reflexivity|].
    destruct s as [|c' s'].
    - injection Hd as ->. cbn. rewrite Hw. reflexivity.
    - change (Str.lastChar (String c (String c' s')))
        with (Str.lastChar (String c' s')) in Hd.
      specialize (IH d Hd Hw).
      remember (String c' s') as t eqn:Et.
      cbn [trimEnd]. rewrite IH, Et, andb_comm. reflexivity. }
  assert (Hgraphic : forall c, Str.isGraphic c = true ->
                               Str.isWhiteSpace c = false).
  { intros c. unfold Str.isGraphic, Str.isWhiteSpace.
    rewrite andb_true_iff, !Nat.leb_le. intros [H1 H2].
    apply orb_false_iff. split.
    - apply andb_false_iff. right. apply Nat.leb_gt. lia.
    - apply Nat.eqb_neq. lia. }
  refine {| Str.trim := trim; Str.toLowerCase := toLowerCase |}.
  - intros s. unfold trim.
    destruct (Hstart s) as [E|(c & r & E & Hc)]; rewrite E.
    + reflexivity.
    + destruct (trimEnd (String c r)) as [|c2 r2] eqn:E2; [reflexivity|].
      assert (c2 = c /\ Str.isWhiteSpace c2 = false) as [-> Hc2].
      { cbn [trimEnd] in E2. rewrite Hc in E2. cbn [andb] in E2.
        injection E2 as -> _. split; [reflexivity|exact Hc]. }
      cbn [trimStart]. rewrite Hc2. rewrite <- E2. apply Hend.
  - intros [|c s] Hs; [reflexivity|].
    cbn [Str.graphicEnds] in Hs. apply andb_true_iff in Hs as [Hc Hd].
    destruct (Str.lastChar (String c s)) as [d|] eqn:Ed; [|discriminate].
    unfold trim. cbn [trimStart]. rewrite (Hgraphic c Hc).
    exact (Hlast _ d Ed (Hgraphic d Hd)).
  - reflexivity.
  - intros [|c s]; [reflexivity|discriminate].
Defined.

Definition isDigit (c : ascii) : bool :=
  let n := nat_of_ascii c in ((48 <=? n) && (n <=? 57))%nat.

(** Splitting at dots *)
Fixpoint splitDots (s : string) : list string :=
  match s with
  | EmptyString => [""]
  | String c s' =>
      if Ascii.eqb c "." then "" :: splitDots s'
      else match splitDots s' with
           | seg :: segs => String c seg :: segs
           | [] => [String c ""]
           end
  end.

Fixpoint decimalValue (acc : nat) (s : string) : nat :=
  match s with
  | EmptyString => acc
  | String c s' => decimalValue (10 * acc + (nat_of_ascii c - 48)) s'
  end.

(** A decimal octet without leading zero *)
Definition isOctet (s : string) : bool :=
  Utils.allChars isDigit s
  && ((String.length s =? 1)
      || ((2 <=? String.length s) && (String.length s <=? 3)
          && negb (match String.get 0 s with
                   | Some c => Ascii.eqb c "0"
                   | None => true
                   end)
          && (decimalValue 0 s <=? 255)))%nat.

(** A classifier that knows dotted-quad IPv4 addresses only *)
Definition isIP (s : string) : Z :=
  let segs := splitDots s in
  if ((length segs =? 4)%nat && forallb isOctet segs) then 4%Z else 0%Z.

(** An origin parser that knows [http://host/...] and [https://host/...] *)
Definition hostOf (rest : string) : option string :=
  let i := Str.indexOf "/" rest in
  let host := if (i <? 0)%Z then rest else Str.substring 0 (Z.to_nat i) rest in
  if nonEmpty host && Utils.allChars (fun c => negb (Str.isWhiteSpace c)) host
  then Some host else None.

Definition urlOrigin (s : string) : option string :=
  if String.prefix "https://" s then
    option_map (String.append "https://") (hostOf (Str.slice 8 s))
  else if String.prefix "http://" s then
    option_map (String.append "http://") (hostOf (Str.slice 7 s))
  else None.

(** A pattern engine that knows literal patterns and the flags [i], [g]
    and [y].  The subject is searched for the pattern: from the start by
    an expression without [g] and [y], which leaves [lastIndex] alone; from
    [lastIndex] onwards by one with [g], and at [lastIndex] only by one
    with [y], both of which leave [lastIndex] behind the match, or at 0
    when there is none. *)
Fixpoint indexFrom (pattern s : string) (pos start : nat) : option nat :=
  if (start <=? pos)%nat && String.prefix pattern s then Some pos
  else match s with
       | String _ s' => indexFrom pattern s' (S pos) start
       | EmptyString => None
       end.

Definition regExpCompiles (pattern : string) : bool := true.

Definition regExpTest (r : Js.RegExp) (s : string) : bool * nat :=
  let ignoreCase := Js.hasFlag "i" (Js.flags r) in
  let pattern := if ignoreCase then toLowerCase (Js.source r) else Js.source r in
  let subject := if ignoreCase then toLowerCase s else s in
  if Js.stateful r then
    let found :=
      if Js.hasFlag "y" (Js.flags r)
      then if (Js.lastIndex r <=? String.length subject)%nat
              && String.prefix pattern (Str.slice (Js.lastIndex r) subject)
           then Some (Js.lastIndex r) else None
      else indexFrom pattern subject 0 (Js.lastIndex r) in
    match found with
    | Some i => (true, i + String.length pattern)%nat
    | None => (false, 0%nat)
    end
  else
    match indexFrom pattern subject 0 0 with
    | Some _ => (true, Js.lastIndex r)
    | None => (false, Js.lastIndex r)
    end.

(** An expression a caller may hand to the matcher: [/example/g] *)
Definition globalExpression : Js.RegExp :=
  {| Js.source := "example"; Js.flags := "g"; Js.lastIndex := 0 |}.

(** A matcher built from one listed origin and one pattern *)
Definition corsOptions : Cors.CorsOptions :=
  {| Cors.origins := Some [" https://example.com/ "; "not a url"];
     Cors.originRegEx := Js.VStr ".example.org" |}.

(** A source whose header object spells one name in two ways *)
Definition headerSource : Js.value :=
  Js.VObj [("getHeaders",
            Js.VObj [("X-Foo", Js.VStr "a");
                     ("Y", Js.VNum (Js.ofZ 3));
                     ("x-foo", Js.VStr "b")])].

(** A source whose header object spells [__proto__] in two ways, as
    [JSON.parse] yields it (the parser stores [__proto__] as an own
    property of the object it builds) *)
Definition protoSource : Js.value :=
  Js.VObj [("getHeaders",
            Js.VObj [("__PROTO__", Js.VStr "a");
                     ("__proto__", Js.VStr "b")])].

(** A file system that holds the default database only, and no
    configuration file *)
Definition accessSync (path : string) : option string :=
  if String.eqb path "/srv/GeoLite2-Country.mmdb" then None
  else Some "ENOENT: no such file or directory".

Definition readJson (path : string) : option Js.value := None.

(** A source with in-range numbers and a trimmed path *)
Definition plainSource : Js.value :=
  Js.VObj [("port", Js.VNum (Js.ofZ 8080));
           ("logLevel", Js.VNum (Js.Finite (5 # 2)));
           ("enabledOutputs", Js.VObj [("ip", Js.VBool true)]);
           ("ip2location", Js.VObj [("dbPath", Js.VStr "~/ip2l.bin")])].

(** A source that names both backends *)
Definition bothBackends : Js.value :=
  Js.VObj [("maxmind", Js.VObj [("dbPath", Js.VStr " ~/x.mmdb ")]);
           ("ip2location", Js.VObj [("dbPath", Js.VStr "/a.bin")])].

End Sample.

(** ** Vocabulary of the overlay properties *)

Section OverlayBlocks.
Context {RT : Str.Runtime}.
Variables sep homedir defaultDbPath : string.

(** The two backend blocks of [overlayOptions], applied after the other
    seven *)
Definition backendBlocks (src : Js.value) (t : Options.AppOptions)
  : Options.AppOptions :=
  let '(target, maxMindDefined) := Options.overlayMaxmind sep homedir src t in
  if negb maxMindDefined
  then Options.overlayIp2location sep homedir src target
  else target.

(** The first seven blocks of [overlayOptions], applied to the defaults *)
Definition earlyBlocks (src : Js.value) : Options.AppOptions :=
  Options.overlayCors src
    (Options.overlayGetPaths src
       (Options.overlayGetHeaders src
          (Options.overlayPrettyOutput src
             (Options.overlayEnabledOutputs src
                (Options.overlayPort src
                   (Options.overlayLogLevel src
                      (Options.getDefaultOptions defaultDbPath))))))).

End OverlayBlocks.

(** Two header names that differ at most in letter case *)
Definition sameName {RT : Str.Runtime} (a b : string) : bool :=
  String.eqb (Str.toLowerCase a) (Str.toLowerCase b).

(** Whether the header overlay accepts the entry of key [k]: its value is
    a string or [null] *)
Definition acceptedHeader (h : Js.value) (k : string) : bool :=
  match Js.prop h k with
  | Js.VStr _ | Js.VNull => true
  | _ => false
  end.

(** The origin an entry of the origins list contributes, in the words of
    the specification: the entry is trimmed, a blank one is dropped, the
    rest is parsed as a URL and reduced to its origin, and one that does
    not parse is dropped *)
Definition survivingOrigin {RT : Str.Runtime}
  (urlOrigin : string -> option string) (o : string) : option string :=
  if nonEmpty (Str.trim o) then urlOrigin (Str.trim o) else None.

Fixpoint keepSome {A B : Type} (f : A -> option B) (l : list A) : list B :=
  match l with
  | [] => []
  | x :: l' =>
      match f x with
      | Some y => y :: keepSome f l'
      | None => keepSome f l'
      end
  end.

(** The string an entry of a configured list contributes: a string is
    trimmed and kept unless nothing is left of it, anything else is
    dropped *)
Definition trimmedEntry {RT : Str.Runtime} (v : Js.value) : option string :=
  match v with
  | Js.VStr s => if nonEmpty (Str.trim s) then Some (Str.trim s) else None
  | _ => None
  end.

(** The key applied last among the accepted keys of [l] named like
    [name], if any *)
Definition lastApplied {RT : Str.Runtime} (h : Js.value) (l : list string)
  (name : string) : option string :=
  fold_left (fun acc k => if acceptedHeader h k && sameName k name
                          then Some k else acc) l None.

(** [eo[name]] for a key of [Options.outputKeys] *)
Definition outputOf (eo : Options.EnabledOutputs) (name : string) : bool :=
  if String.eqb name "country" then Options.country eo
  else if String.eqb name "subdivision" then Options.subdivision eo
  else if String.eqb name "ip" then Options.ip eo
  else if String.eqb name "ip_version" then Options.ip_version eo
  else if String.eqb name "data" then Options.data eo
  else false.

(** The toggles of [eo] after the boolean entries of [src] named in [l]
    have been assigned in turn *)
Definition assignOutputs (src : Js.value) (l : list string)
  (eo : Options.EnabledOutputs) : Options.EnabledOutputs :=
  fold_left
    (fun eo output =>
       match Js.asBoolean (Js.prop src output) with
       | Some b => Options.setOutput output b eo
       | None => eo
       end) l eo.

(** Sources on which the two overlays are compared: [logLevel] and [port]
    absent or numbers, the port neither zero nor above 65535, and the
    database paths, when strings, free of surrounding white space *)
Definition absentOrNumber (v : Js.value) : bool :=
  match v with
  | Js.VUndefined | Js.VNum _ => true
  | _ => false
  end.

Definition portInCommonRange (v : Js.value) : bool :=
  match v with
  | Js.VUndefined => true
  | Js.VNum n =>
      negb (Js.le (Js.ofZ 0) n)
      || (Js.lt (Js.ofZ 0) n && Js.le n (Js.ofZ 65535))
  | _ => false
  end.

Definition trimmedIfString {RT : Str.Runtime} (v : Js.value) : bool :=
  match v with
  | Js.VStr s => String.eqb (Str.trim s) s
  | _ => true
  end.

Definition checkedSource {RT : Str.Runtime} (src : Js.value) : bool :=
  absentOrNumber (Js.prop src "logLevel")
  && portInCommonRange (Js.prop src "port")
  && trimmedIfString (Js.prop (Js.prop src "maxmind") "dbPath")
  && trimmedIfString (Js.prop (Js.prop src "ip2location") "dbPath")
  && trimmedIfString (Js.prop (Js.prop src "ip2location") "subdivisionCsvPath").

(** The fields both overlays compute by the same blocks *)
Definition sharedFields (t : Options.AppOptions) :=
  (Options.enabledOutputs t, Options.prettyOutput t, Options.getHeaders t,
   Options.getPaths t, Options.cors t).

(** ** log.ts: the logger *)

Module Log.

(** The console methods the logger writes to *)
Inductive Console := ConsoleDebug | ConsoleLog | ConsoleWarn | ConsoleError.

Record GwaLog := { level_ : Js.number }.

(** [new GwaLog(level?)] *)
Definition create (level : option Js.number) : GwaLog :=
  {| level_ := match level with Some l => l | None => LogLevel.INFO end |}.

Section Methods.
Context {A : Type}.   (* the arguments handed on to the console *)

(** Each method answers the console calls it makes *)
Definition debug (log : GwaLog) (args : A) : list (Console * A) :=
  if Js.le LogLevel.DEBUG (level_ log) then [(ConsoleDebug, args)] else [].

Definition info (log : GwaLog) (args : A) : list (Console * A) :=
  if Js.le LogLevel.INFO (level_ log) then [(ConsoleLog, args)] else [].

Definition warn (log : GwaLog) (args : A) : list (Console * A) :=
  if Js.le LogLevel.WARN (level_ log) then [(ConsoleWarn, args)] else [].

Definition error (log : GwaLog) (args : A) : list (Console * A) :=
  if Js.le LogLevel.ERROR (level_ log) then [(ConsoleError, args)] else [].

End Methods.

Definition setLevel (level : Js.number) (log : GwaLog) : GwaLog :=
  {| level_ := level |}.

End Log.

(** ** cli.ts: start-up, up to the construction of the server *)

Module Cli.

(** [s.replace(/^['"\s]|['"\s]$/g, '')]: one quote or white-space
    character is removed at the start, and one at the end of what is left.
    [run] applies it to a trimmed string, neither end of which is white
    space of any kind, so of the class [\s] the ASCII range is spelled
    out. *)
Definition isQuoteOrSpace (c : ascii) : bool :=
  let n := nat_of_ascii c in
  ((n =? 39) || (n =? 34))%nat || Str.isWhiteSpace c.

Fixpoint stripLast (s : string) : string :=
  match s with
  | String c EmptyString => if isQuoteOrSpace c then "" else s
  | String c s' => String c (stripLast s')
  | EmptyString => EmptyString
  end.

Definition stripEnds (s : string) : string :=
  match s with
  | String c s' => if isQuoteOrSpace c then stripLast s' else stripLast s
  | EmptyString => EmptyString
  end.

Section Run.
Context {RT : Str.Runtime}.
Variable sep : string.             (* [path.sep] *)
Variable homedir : string.         (* [os.homedir()] *)
(** [pathJoin(process.cwd(), 'GeoLite2-Country.mmdb')] *)
Variable defaultDbPath : string.
(** [JSON.parse(readFileSync(path, {encoding: 'utf8'}))]; [None] when
    either throws *)
Variable readJson : string -> option Js.value.
(** [accessSync(path, constants.F_OK)]; [None] when it returns *)
Variable accessSync : string -> option string.

(** [getUserOptions]; [None] when reading or parsing throws *)
Definition getUserOptions (path : string) : option Options.AppOptions :=
  if negb (nonEmpty (Str.trim path))
  then Some (Options.getDefaultOptions defaultDbPath)
  else option_map (Options.overlayOptions sep homedir defaultDbPath)
                  (readJson path).

(** The path [run] checks before it starts the server:
    [(maxmind.dbPath && expand(maxmind.dbPath))
     || (ip2location.dbPath && expand(ip2location.dbPath))] *)
Definition databasePath (options : Options.AppOptions) : string :=
  let viaMaxmind :=
    if nonEmpty (MaxMind.dbPath (Options.maxmind options))
    then Utils.expandTildePath sep homedir
           (MaxMind.dbPath (Options.maxmind options))
    else MaxMind.dbPath (Options.maxmind options) in
  if nonEmpty viaMaxmind then viaMaxmind
  else if nonEmpty (IP2Location.dbPath (Options.ip2location options))
  then Utils.expandTildePath sep homedir
         (IP2Location.dbPath (Options.ip2location options))
  else IP2Location.dbPath (Options.ip2location options).

(** [run], from the parsed [--config] argument to the options handed to
    [new GwaServer]; [inl] carries the message of the thrown [Error] *)
Definition run (argvConfig : Js.value) : string + Options.AppOptions :=
  let loaded : string + Options.AppOptions :=
    if Js.truthy argvConfig then
      let config :=
        match Js.asString argvConfig with
        | Some s => Str.trim s
        | None => ""
        end in
      if negb (nonEmpty config) then inl "Invalid custom config path"
      else
        let configPath := stripEnds config in
        match getUserOptions (Utils.expandTildePath sep homedir configPath) with
        | Some options => inr options
        | None => inl ("Failed to read custom config at " ++ configPath)%string
        end
    else inr (Options.getDefaultOptions defaultDbPath) in
  match loaded with
  | inl message => inl message
  | inr options =>
      let dbPath := databasePath options in
      match Utils.assertPath accessSync dbPath with
      | Some _ => inl ("Could not read database at " ++ dbPath)%string
      | None => inr options
      end
  end.

End Run.
End Cli.

(* ================================================================== *)
(** * Part II: properties                                              *)
(* ================================================================== *)

(** ** The string runtime *)

Lemma trim_empty {RT : Str.Runtime} : Str.trim "" = "".
Proof. apply Str.trim_graphic. reflexivity. Qed.

(** ** Property lists *)

Section ObjFacts.
Context {V : Type}.
Implicit Types (o : Obj.t V) (k : string) (v : V).

Lemma keys_set k v o :
  Obj.keys (Obj.set k v o) =
  if includes (Obj.keys o) k then Obj.keys o else Obj.keys o ++ [k].
Proof.
  induction o as [|[k' v'] o IH]; simpl; [reflexivity|].
  rewrite (String.eqb_sym k k').
  destruct (String.eqb k' k) eqn:E; simpl.
  - apply String.eqb_eq in E. subst. reflexivity.
  - rewrite IH. destruct (includes (Obj.keys o) k); reflexivity.
Qed.

Lemma includes_In (l : list string) x : includes l x = true <-> In x l.
Proof.
  unfold includes. rewrite existsb_exists. split.
  - intros (y & Hy & E). apply String.eqb_eq in E. subst. assumption.
  - intros Hx. exists x. split; [assumption|apply String.eqb_refl].
Qed.

Lemma get_set_same k v o : Obj.get (Obj.set k v o) k = Some v.
Proof.
  induction o as [|[k' v'] o IH]; simpl.
  - rewrite String.eqb_refl. reflexivity.
  - destruct (String.eqb k' k) eqn:E; simpl.
    + rewrite String.eqb_refl. reflexivity.
    + rewrite E. exact IH.
Qed.

Lemma get_set_other k k' v o :
  k <> k' -> Obj.get (Obj.set k v o) k' = Obj.get o k'.
Proof.
  intros Hne. induction o as [|[k0 v0] o IH]; simpl.
  - destruct (String.eqb k k') eqn:E; [apply String.eqb_eq in E; contradiction|reflexivity].
  - destruct (String.eqb k0 k) eqn:E; simpl.
    + apply String.eqb_eq in E. subst k0.
      destruct (String.eqb k k') eqn:E'; [apply String.eqb_eq in E'; contradiction|reflexivity].
    + destruct (String.eqb k0 k'); [reflexivity|exact IH].
Qed.

Lemma In_set k v o e :
  In e (Obj.set k v o) -> e = (k, v) \/ In e o.
Proof.
  induction o as [|[k' v'] o IH]; simpl.
  - intros [<-|[]]. left. reflexivity.
  - destruct (String.eqb k' k); simpl.
    + intros [<-|Hin]; [left; reflexivity|right; right; assumption].
    + intros [<-|Hin]; [right; left; reflexivity|].
      destruct (IH Hin) as [->|Hin']; [left; reflexivity|right; right; assumption].
Qed.

End ObjFacts.

(** Case analysis on the output name, as the [switch] does it *)
Ltac switch_output o :=
  destruct (String.eqb o "ip") eqn:Eip;
  [apply String.eqb_eq in Eip; subst o; simpl|
   destruct (String.eqb o "ip_version") eqn:Eipv;
   [apply String.eqb_eq in Eipv; subst o; simpl|
    destruct (String.eqb o "country") eqn:Ec;
    [apply String.eqb_eq in Ec; subst o; simpl|
     destruct (String.eqb o "subdivision") eqn:Es;
     [apply String.eqb_eq in Es; subst o; simpl|
      destruct (String.eqb o "data") eqn:Ed;
      [apply String.eqb_eq in Ed; subst o; simpl|simpl]]]]].

(** ** The lookup orchestrator *)

Section DbFacts.
Context {Rec : Type} `{Db.DbInterface Rec}.
Variable isIP : string -> Z.
Variable enabled : list string.

Let shape := Db.geoIpApiResponse enabled.

Lemma shapeOutput_keys r ip v ret o :
  Obj.keys (Db.shapeOutput r ip v ret o) =
  if resolves r o
  then if includes (Obj.keys ret) o then Obj.keys ret else Obj.keys ret ++ [o]
  else Obj.keys ret.
Proof.
  unfold Db.shapeOutput, resolves.
  switch_output o; rewrite ?keys_set; try reflexivity.
  - destruct (Db.getStringValue r "country"); rewrite ?keys_set; reflexivity.
  - destruct (Db.getStringValue r "subdivision"); rewrite ?keys_set; reflexivity.
  - destruct r; rewrite ?keys_set; reflexivity.
Qed.

Lemma fold_shape_keys r ip v l acc :
  Obj.keys (fold_left (Db.shapeOutput r ip v) l acc) =
  fold_left (fun seen x => if includes seen x then seen else seen ++ [x])
            (filter (resolves r) l) (Obj.keys acc).
Proof.
  revert acc. induction l as [|o l IH]; intros acc; simpl; [reflexivity|].
  rewrite IH, shapeOutput_keys.
  destruct (resolves r o); reflexivity.
Qed.

Lemma fold_appendNew_NoDup (l acc : list string) :
  NoDup (acc ++ l) ->
  fold_left (fun seen x => if includes seen x then seen else seen ++ [x]) l acc
  = acc ++ l.
Proof.
  revert acc. induction l as [|x l IH]; intros acc Hnd; simpl.
  - rewrite app_nil_r. reflexivity.
  - destruct (includes acc x) eqn:E.
    + apply includes_In in E. exfalso.
      apply NoDup_remove_2 in Hnd. apply Hnd.
      apply in_or_app. left. assumption.
    + rewrite IH; rewrite <- app_assoc; simpl; [reflexivity|assumption].
Qed.

Lemma shapeOutput_In r ip v ret o e :
  In e (Db.shapeOutput r ip v ret o) ->
  In e ret \/ (fst e = o /\ resolves r o = true /\ snd e <> Server.VNull).
Proof.
  unfold Db.shapeOutput, resolves.
  switch_output o; intros Hin.
  - apply In_set in Hin. destruct Hin as [->|Hin]; [right|left; assumption].
    simpl. repeat split; discriminate.
  - apply In_set in Hin. destruct Hin as [->|Hin]; [right|left; assumption].
    simpl. repeat split; discriminate.
  - destruct (Db.getStringValue r "country"); [|left; assumption].
    apply In_set in Hin. destruct Hin as [->|Hin]; [right|left; assumption].
    simpl. repeat split; discriminate.
  - destruct (Db.getStringValue r "subdivision"); [|left; assumption].
    apply In_set in Hin. destruct Hin as [->|Hin]; [right|left; assumption].
    simpl. repeat split; discriminate.
  - destruct r; [|left; assumption].
    apply In_set in Hin. destruct Hin as [->|Hin]; [right|left; assumption].
    simpl. repeat split; discriminate.
  - left. assumption.
Qed.

Lemma fold_shape_In r ip v l acc e :
  In e (fold_left (Db.shapeOutput r ip v) l acc) ->
  In e acc \/ (In (fst e) l /\ resolves r (fst e) = true /\ snd e <> Server.VNull).
Proof.
  revert acc. induction l as [|o l IH]; intros acc Hin; simpl in *.
  - left. assumption.
  - destruct (IH _ Hin) as [Hacc|(Hl & Hr & Hn)].
    + destruct (shapeOutput_In _ _ _ _ _ _ Hacc) as [Hret|(Ho & Hr & Hn)].
      * left. assumption.
      * right. subst o. auto.
    + right. auto.
Qed.

Lemma shape_In r ip v e :
  In e (shape r ip v) ->
  In (fst e) enabled /\ resolves r (fst e) = true /\ snd e <> Server.VNull.
Proof.
  intros Hin. apply fold_shape_In in Hin. destruct Hin as [[]|Hin]. exact Hin.
Qed.

Lemma resolves_names r o :
  resolves r o = true -> In o canonicalOrder.
Proof.
  unfold resolves, canonicalOrder.
  switch_output o; intros Hr; try discriminate; simpl; auto 6.
Qed.

Lemma In_keys {V} (o : Obj.t V) k :
  In k (Obj.keys o) -> exists v, In (k, v) o.
Proof.
  unfold Obj.keys. rewrite in_map_iff. intros ([k' v] & <- & Hin).
  exists v. exact Hin.
Qed.

Lemma fold_shape_ip_version r ip v l acc :
  Obj.get (fold_left (Db.shapeOutput r ip v) l acc) "ip_version" =
  if includes l "ip_version"
  then Some (Server.VNumber match v with
                        | Some n => if Z.eqb n 0 then 0%Z else n
                        | None => 0%Z
                        end)
  else Obj.get acc "ip_version".
Proof.
  revert acc. induction l as [|o l IH]; intros acc; [reflexivity|].
  cbn [fold_left]. rewrite IH. unfold includes at 2. cbn [existsb].
  fold (includes l "ip_version").
  destruct (includes l "ip_version"); [rewrite orb_true_r; reflexivity|].
  rewrite orb_false_r. rewrite (String.eqb_sym "ip_version" o).
  unfold Db.shapeOutput.
  switch_output o; try reflexivity.
  - apply get_set_other. discriminate.
  - apply get_set_same.
  - destruct (Db.getStringValue r "country"); [|reflexivity].
    apply get_set_other. discriminate.
  - destruct (Db.getStringValue r "subdivision"); [|reflexivity].
    apply get_set_other. discriminate.
  - destruct r; [|reflexivity]. apply get_set_other. discriminate.
Qed.

Lemma isDbNeeded_false_iff :
  Db.isDbNeeded enabled = false <->
  forall o, In o enabled -> o = "ip" \/ o = "ip_version".
Proof.
  unfold Db.isDbNeeded. split.
  - intros Hz o Ho.
    destruct (includes Db.ipOutputs o) eqn:E.
    + apply includes_In in E. simpl in E. intuition.
    + exfalso.
      assert (Hin : In o (filter (fun option => negb (includes Db.ipOutputs option)) enabled)).
      { apply filter_In. split; [assumption|rewrite E; reflexivity]. }
      destruct (filter _ enabled); [contradiction|discriminate].
  - intros Hall.
    assert (E : filter (fun option => negb (includes Db.ipOutputs option)) enabled = []).
    { induction enabled as [|o l IH]; [reflexivity|]. simpl.
      destruct (Hall o (or_introl eq_refl)) as [->| ->]; simpl;
        apply IH; intros o' Ho'; apply Hall; right; assumption. }
    rewrite E. reflexivity.
Qed.

Lemma isDbNeeded_true_iff :
  Db.isDbNeeded enabled = true <->
  exists o, In o enabled /\ o <> "ip" /\ o <> "ip_version".
Proof.
  unfold Db.isDbNeeded.
  destruct (filter (fun option => negb (includes Db.ipOutputs option)) enabled)
    as [|x l] eqn:E.
  - split; [discriminate|].
    intros (o & Ho & H1 & H2). exfalso.
    assert (Hin : In o (filter (fun option => negb (includes Db.ipOutputs option))
                               enabled)).
    { apply filter_In. split; [assumption|].
      simpl. apply String.eqb_neq in H1, H2. rewrite H1, H2. reflexivity. }
    rewrite E in Hin. contradiction.
  - split; [|reflexivity]. intros _.
    assert (Hin : In x (filter (fun option => negb (includes Db.ipOutputs option))
                               enabled)).
    { rewrite E. left. reflexivity. }
    apply filter_In in Hin as [Hx Hn]. exists x. split; [assumption|].
    simpl in Hn. rewrite orb_false_r in Hn.
    apply negb_true_iff, orb_false_iff in Hn as [H1 H2].
    apply String.eqb_neq in H1, H2. split; assumption.
Qed.

(** What [lookup] comes to once the adapter has answered *)
Lemma run_lookup (ip : string) :
  Db.run (Db.lookup isIP enabled ip) =
  if Z.eqb (isIP ip) 0 then
    {| Server.error := Some ("Invalid IP: " ++ ip)%string;
       Server.geoIpApiResponse := shape None (Some ip) (Some (isIP ip)) |}
  else if negb (Db.isDbNeeded enabled) then
    {| Server.error := None;
       Server.geoIpApiResponse := shape None (Some ip) (Some (isIP ip)) |}
  else
    match Db.get ip with
    | None =>
        {| Server.error := Some ("Failed to search database for IP: " ++ ip)%string;
           Server.geoIpApiResponse := shape None (Some ip) (Some (isIP ip)) |}
    | Some r =>
        {| Server.error := None;
           Server.geoIpApiResponse := shape (Some r) (Some ip) (Some (isIP ip)) |}
    end.
Proof.
  unfold Db.lookup. cbv zeta.
  destruct (Z.eqb (isIP ip) 0); [reflexivity|].
  destruct (negb (Db.isDbNeeded enabled)); [reflexivity|].
  simpl. destruct (Db.get ip); reflexivity.
Qed.

(** C1: [lookup] always returns a [LookupResponse].  Its [error] is set
    exactly when the address is classified 0, or some enabled output
    other than [ip] and [ip_version] makes a database lookup necessary and
    the adapter's [get] gives no record.  Its response is always one that
    [geoIpApiResponse] shapes: from the record when the address is valid,
    a lookup is necessary and the adapter answers with one, and from
    [null] in every other case.  For an invalid address it is shaped from
    a null record and version 0, so an enabled [ip_version] output
    reads 0. *)
Theorem lookup_error_and_response (ip : string) :
  let ret := Db.run (Db.lookup isIP enabled ip) in
  let lookupRequired :=
    exists o, In o enabled /\ o <> "ip" /\ o <> "ip_version" in
  (Server.error ret <> None <->
     isIP ip = 0%Z \/ (lookupRequired /\ Db.get ip = None))
  /\ (forall r, isIP ip <> 0%Z -> lookupRequired -> Db.get ip = Some r ->
      Server.geoIpApiResponse ret =
      Db.geoIpApiResponse enabled (Some r) (Some ip) (Some (isIP ip)))
  /\ (isIP ip = 0%Z \/ ~ lookupRequired \/ Db.get ip = None ->
      Server.geoIpApiResponse ret =
      Db.geoIpApiResponse enabled None (Some ip) (Some (isIP ip)))
  /\ (isIP ip = 0%Z ->
      Server.geoIpApiResponse ret
      = Db.geoIpApiResponse enabled None (Some ip) (Some 0%Z)
      /\ (In "ip_version" enabled ->
          Obj.get (Server.geoIpApiResponse ret) "ip_version"
          = Some (Server.VNumber 0))).
Proof.
  cbv zeta. rewrite run_lookup. subst shape.
  pose proof isDbNeeded_true_iff as Hneeded.
  destruct (Z.eqb (isIP ip) 0) eqn:Ev.
  - apply Z.eqb_eq in Ev. simpl. split; [|split; [|split]].
    + split; [intros _; left; assumption|intros _; discriminate].
    + intros r Hv. contradiction.
    + intros _. reflexivity.
    + intros _. rewrite Ev. split; [reflexivity|].
      intros Hin. unfold Db.geoIpApiResponse.
      rewrite fold_shape_ip_version.
      apply includes_In in Hin. rewrite Hin. reflexivity.
  - apply Z.eqb_neq in Ev.
    destruct (Db.isDbNeeded enabled) eqn:En; simpl.
    + apply proj1 in Hneeded. specialize (Hneeded eq_refl).
      destruct (Db.get ip) as [r|] eqn:Eg; simpl;
        (split; [|split; [|split]]); try (intros Hz; contradiction).
      * split; [intros Hn; contradiction Hn; reflexivity|].
        intros [Hz|[_ Hg]]; [contradiction|discriminate].
      * intros r' _ _ E. injection E as E. rewrite E. reflexivity.
      * intros [Hz|[Hn|Hg]]; [contradiction|contradiction|discriminate].
      * split; [|intros _; discriminate].
        intros _. right. split; [assumption|reflexivity].
      * intros r _ _ E. discriminate.
      * intros _. reflexivity.
    + assert (Hnot : ~ exists o, In o enabled /\ o <> "ip" /\ o <> "ip_version").
      { intros Hex. apply Hneeded in Hex. discriminate. }
      split; [|split; [|split]]; try (intros Hz; contradiction).
      * split; [intros Hn; contradiction Hn; reflexivity|].
        intros [Hz|[Hd _]]; contradiction.
      * intros _. reflexivity.
Qed.

(** C2 (amended): the keys of the shaped response appear in the order in
    which the enabled outputs were supplied at construction, each at its
    first occurrence and unresolved ones left out; for a list without
    repetition they are the resolved outputs in the supplied order. *)
Theorem response_keys_follow_declaration_order
  (dbResult : option Rec) (ip : option string) (ipVersion : option Z) :
  Obj.keys (Db.geoIpApiResponse enabled dbResult ip ipVersion)
  = firstOccurrences (filter (resolves dbResult) enabled)
  /\ (NoDup enabled ->
      Obj.keys (Db.geoIpApiResponse enabled dbResult ip ipVersion)
      = filter (resolves dbResult) enabled).
Proof.
  unfold Db.geoIpApiResponse. rewrite fold_shape_keys. simpl.
  split; [reflexivity|].
  intros Hnd. apply (fold_appendNew_NoDup _ []). simpl.
  apply NoDup_filter. assumption.
Qed.

(** C3: the shaped response holds a key only for an enabled output name,
    [country] and [subdivision] only when [getStringValue] gave a value,
    [data] only for a non-null record, and never a null value; a record
    without subdivision leaves the [subdivision] key out, also through
    [lookup]. *)
Theorem response_is_sparse
  (dbResult : option Rec) (ip : option string) (ipVersion : option Z) :
  let ret := Db.geoIpApiResponse enabled dbResult ip ipVersion in
  (forall k, In k (Obj.keys ret) -> In k enabled /\ In k canonicalOrder)
  /\ (forall k, In k (Obj.keys ret) -> k = "country" \/ k = "subdivision" ->
      Db.getStringValue dbResult k <> None)
  /\ (In "data" (Obj.keys ret) -> dbResult <> None)
  /\ (forall k v, In (k, v) ret -> v <> Server.VNull)
  /\ (Db.getStringValue dbResult "subdivision" = None ->
      ~ In "subdivision" (Obj.keys ret))
  /\ (forall addr rec,
      isIP addr <> 0%Z -> Db.get addr = Some rec ->
      Db.getStringValue (Some rec) "subdivision" = None ->
      ~ In "subdivision"
           (Obj.keys (Server.geoIpApiResponse (Db.run (Db.lookup isIP enabled addr))))).
Proof.
  cbv zeta.
  assert (Hkey : forall r i v k,
             In k (Obj.keys (Db.geoIpApiResponse enabled r i v)) ->
             In k enabled /\ resolves r k = true).
  { intros r i v k Hk. apply In_keys in Hk. destruct Hk as [x Hx].
    apply shape_In in Hx. simpl in Hx. tauto. }
  assert (Hsub : forall r i v,
             Db.getStringValue r "subdivision" = None ->
             ~ In "subdivision" (Obj.keys (Db.geoIpApiResponse enabled r i v))).
  { intros r i v Hg Hk. apply Hkey in Hk. destruct Hk as [_ Hr].
    unfold resolves in Hr. simpl in Hr. rewrite Hg in Hr. discriminate. }
  split; [|split; [|split; [|split; [|split]]]].
  - intros k Hk. apply Hkey in Hk. destruct Hk as [Hen Hr].
    split; [assumption|]. eapply resolves_names. exact Hr.
  - intros k Hk Hcs Hg. apply Hkey in Hk. destruct Hk as [_ Hr].
    unfold resolves in Hr.
    destruct Hcs as [-> | ->]; simpl in Hr; rewrite Hg in Hr; discriminate.
  - intros Hk ->. apply Hkey in Hk. destruct Hk as [_ Hr]. discriminate.
  - intros k v Hin. apply shape_In in Hin. simpl in Hin. tauto.
  - apply Hsub.
  - intros addr rec Hv Hg Hs Hk.
    rewrite run_lookup in Hk. subst shape.
    apply Z.eqb_neq in Hv. rewrite Hv in Hk.
    destruct (Db.isDbNeeded enabled) eqn:En; simpl in Hk.
    + rewrite Hg in Hk. revert Hk. apply Hsub. assumption.
    + apply Hkey in Hk. destruct Hk as [Hen _].
      apply (proj1 isDbNeeded_false_iff En) in Hen.
      destruct Hen; discriminate.
Qed.

(** C4: for a valid address, when every enabled output is [ip] or
    [ip_version], [lookup] returns at once, without awaiting the adapter's
    [get], with no error and the response shaped from a null record; with
    only [ip_version] enabled, ["8.8.8.8"] gives [{ip_version: 4}]. *)
Theorem lookup_without_backend (ip : string) :
  isIP ip <> 0%Z ->
  (forall o, In o enabled -> o = "ip" \/ o = "ip_version") ->
  Db.lookup isIP enabled ip =
    Db.Return {| Server.error := None;
                 Server.geoIpApiResponse :=
                   Db.geoIpApiResponse enabled None (Some ip) (Some (isIP ip)) |}
  /\ Db.getCalls (Db.lookup isIP enabled ip) = []
  /\ (enabled = ["ip_version"] -> ip = "8.8.8.8" -> isIP ip = 4%Z ->
      Db.run (Db.lookup isIP enabled ip) =
        {| Server.error := None;
           Server.geoIpApiResponse := [("ip_version", Server.VNumber 4)] |}).
Proof.
  intros Hv Hall.
  assert (E : Db.lookup isIP enabled ip =
    Db.Return {| Server.error := None;
                 Server.geoIpApiResponse :=
                   Db.geoIpApiResponse enabled None (Some ip) (Some (isIP ip)) |}).
  { unfold Db.lookup. cbv zeta.
    apply Z.eqb_neq in Hv. rewrite Hv.
    apply isDbNeeded_false_iff in Hall. rewrite Hall. reflexivity. }
  rewrite E. repeat split.
  intros -> -> H4. simpl. rewrite H4. reflexivity.
Qed.

End DbFacts.

(** C1, on the sample adapter: an invalid address, an address the table
    does not hold, and one it holds *)
Lemma lookup_error_and_response_witness :
  let outputs := ["ip"; "ip_version"; "country"] in
  let lookup ip := Db.run (H := Sample.adapter)
                     (Db.lookup (H := Sample.adapter) Sample.isIP outputs ip) in
  (Server.error (lookup "999.1.1.1") <> None
   /\ Obj.get (Server.geoIpApiResponse (lookup "999.1.1.1")) "ip_version"
      = Some (Server.VNumber 0))
  /\ (Server.error (lookup "9.9.9.9") <> None
      /\ Server.geoIpApiResponse (lookup "9.9.9.9")
         = [("ip", Server.VString "9.9.9.9"); ("ip_version", Server.VNumber 4)])
  /\ Server.geoIpApiResponse (lookup "8.8.8.8")
     = [("ip", Server.VString "8.8.8.8"); ("ip_version", Server.VNumber 4);
        ("country", Server.VString "US")].
Proof.
  cbv zeta.
  assert (Hreq : exists o, In o ["ip"; "ip_version"; "country"]
                           /\ o <> "ip" /\ o <> "ip_version").
  { exists "country". split; [simpl; auto|]. split; discriminate. }
  split; [|split].
  - pose proof (lookup_error_and_response (H := Sample.adapter) Sample.isIP
                  ["ip"; "ip_version"; "country"] "999.1.1.1")
      as (He & _ & _ & Hz).
    split.
    + apply He. left. reflexivity.
    + apply Hz; [reflexivity|simpl; auto].
  - pose proof (lookup_error_and_response (H := Sample.adapter) Sample.isIP
                  ["ip"; "ip_version"; "country"] "9.9.9.9")
      as (He & _ & Hnull & _).
    split.
    + apply He. right. split; [exact Hreq|reflexivity].
    + rewrite Hnull; [reflexivity|]. right. right. reflexivity.
  - pose proof (lookup_error_and_response (H := Sample.adapter) Sample.isIP
                  ["ip"; "ip_version"; "country"] "8.8.8.8")
      as (_ & Hrec & _ & _).
    rewrite (Hrec {| Sample.iso_code := "US"; Sample.region := None |});
      [reflexivity|discriminate|exact Hreq|reflexivity].
Defined.

(** C2 as stated fails: outputs supplied as [ip_version, ip] come back in
    that order, which is not the canonical one, and differs from the
    order obtained when the same outputs are supplied as [ip, ip_version];
    likewise outputs supplied as [country, ip], the order of the option
    record, come back with [country] first. *)
Lemma response_keys_not_canonical :
  Obj.keys (Db.geoIpApiResponse (H := Sample.adapter) ["ip_version"; "ip"]
              None (Some "8.8.8.8") (Some 4%Z))
  = ["ip_version"; "ip"]
  /\ isSubsequence ["ip_version"; "ip"] canonicalOrder = false
  /\ Obj.keys (Db.geoIpApiResponse (H := Sample.adapter) ["ip"; "ip_version"]
                 None (Some "8.8.8.8") (Some 4%Z))
     <> Obj.keys (Db.geoIpApiResponse (H := Sample.adapter) ["ip_version"; "ip"]
                    None (Some "8.8.8.8") (Some 4%Z))
  /\ Obj.keys (Server.geoIpApiResponse
       (Db.run (H := Sample.adapter)
          (Db.lookup (H := Sample.adapter) Sample.isIP ["country"; "ip"]
             "8.8.8.8")))
     = ["country"; "ip"]
  /\ isSubsequence ["country"; "ip"] canonicalOrder = false
  /\ ~ (forall enabled dbResult ip ipVersion,
          isSubsequence
            (Obj.keys (Db.geoIpApiResponse (H := Sample.adapter) enabled
                         dbResult ip ipVersion))
            canonicalOrder = true).
Proof.
  repeat split; try reflexivity.
  - discriminate.
  - intros Hall.
    specialize (Hall ["ip_version"; "ip"] None (Some "8.8.8.8") (Some 4%Z)).
    discriminate Hall.
Qed.

(** C2 (amended), on the sample adapter *)
Lemma response_keys_follow_declaration_order_witness :
  Obj.keys (Db.geoIpApiResponse (H := Sample.adapter)
              ["data"; "country"; "subdivision"; "ip"]
              (Db.get (DbInterface := Sample.adapter) "8.8.8.8")
              (Some "8.8.8.8") (Some 4%Z))
  = ["data"; "country"; "ip"].
Proof.
  refine (eq_trans
    (proj2 (response_keys_follow_declaration_order (H := Sample.adapter)
              ["data"; "country"; "subdivision"; "ip"]
              (Db.get (DbInterface := Sample.adapter) "8.8.8.8")
              (Some "8.8.8.8") (Some 4%Z)) _) _).
  - repeat constructor; simpl; intuition discriminate.
  - reflexivity.
Defined.

(** C3, on the sample adapter: the record of ["8.8.8.8"] has no region *)
Lemma response_is_sparse_witness :
  ~ In "subdivision"
       (Obj.keys (Server.geoIpApiResponse
          (Db.run (H := Sample.adapter)
             (Db.lookup (H := Sample.adapter) Sample.isIP
                ["country"; "subdivision"] "8.8.8.8")))).
Proof.
  refine (proj2 (proj2 (proj2 (proj2 (proj2
    (response_is_sparse (H := Sample.adapter) Sample.isIP
       ["country"; "subdivision"] None None None))))) "8.8.8.8" _ _ _ _).
  - discriminate.
  - reflexivity.
  - reflexivity.
Defined.

(** C4, on the sample classifier *)
Lemma lookup_without_backend_witness :
  Db.run (H := Sample.adapter)
    (Db.lookup (H := Sample.adapter) Sample.isIP ["ip_version"] "8.8.8.8") =
    {| Server.error := None; Server.geoIpApiResponse := [("ip_version", Server.VNumber 4)] |}.
Proof.
  refine (proj2 (proj2
    (lookup_without_backend (H := Sample.adapter) Sample.isIP
       ["ip_version"] "8.8.8.8" _ _)) eq_refl eq_refl eq_refl).
  - discriminate.
  - intros o [<-|[]]. right. reflexivity.
Defined.

(** ** Numbers *)

Lemma le_Finite (x y : Q) :
  Js.le (Js.Finite x) (Js.Finite y) = true <-> (x <= y)%Q.
Proof. simpl. apply Qle_bool_iff. Qed.

Lemma lt_le (a b : Js.number) : Js.lt a b = true -> Js.le a b = true.
Proof.
  destruct a as [| [|] |x], b as [| [|] |y]; simpl; try discriminate; try reflexivity.
  intros Hlt. apply Qle_bool_iff. apply negb_true_iff in Hlt.
  destruct (Qlt_le_dec x y) as [Hxy|Hyx]; [apply Qlt_le_weak; assumption|].
  apply Qle_bool_iff in Hyx. congruence.
Qed.

(** ** The option overlay of options.ts *)

Section OptionsFacts.
Context {RT : Str.Runtime}.
Variables sep homedir defaultDbPath : string.

Let defaults := Options.getDefaultOptions defaultDbPath.
Let overlay := Options.overlayOptions sep homedir defaultDbPath.

(** The fields a block of the overlay leaves alone *)
Ltac frame :=
  intros;
  repeat match goal with
         | |- context [match ?x with _ => _ end] => destruct x
         end;
  reflexivity.

Lemma fold_outputs_frame (eo : Js.value) (l : list string) (t : Options.AppOptions) :
  let t' :=
    fold_left
      (fun target output =>
         match Js.asBoolean (Js.prop eo output) with
         | Some outputValue =>
             Options.withEnabledOutputs
               (Options.setOutput output outputValue (Options.enabledOutputs target))
               target
         | None => target
         end) l t in
  Options.logLevel t' = Options.logLevel t
  /\ Options.port t' = Options.port t
  /\ Options.maxmind t' = Options.maxmind t
  /\ Options.ip2location t' = Options.ip2location t.
Proof.
  cbv zeta. revert t. induction l as [|o l IH]; intros t; simpl.
  - repeat split.
  - destruct (Js.asBoolean (Js.prop eo o)); [|apply IH].
    destruct (IH (Options.withEnabledOutputs
                    (Options.setOutput o b (Options.enabledOutputs t)) t))
      as (-> & -> & -> & ->).
    repeat split.
Qed.

Lemma overlayEnabledOutputs_frame src t :
  let t' := Options.overlayEnabledOutputs src t in
  Options.logLevel t' = Options.logLevel t
  /\ Options.port t' = Options.port t
  /\ Options.maxmind t' = Options.maxmind t
  /\ Options.ip2location t' = Options.ip2location t.
Proof.
  cbv zeta. unfold Options.overlayEnabledOutputs.
  destruct (Js.instanceofObject (Js.prop src "enabledOutputs")).
  - apply fold_outputs_frame.
  - repeat split.
Qed.

Lemma overlayLogLevel_frame src t :
  let t' := Options.overlayLogLevel src t in
  Options.port t' = Options.port t
  /\ Options.maxmind t' = Options.maxmind t
  /\ Options.ip2location t' = Options.ip2location t.
Proof. unfold Options.overlayLogLevel. repeat split; frame. Qed.

Lemma overlayPort_frame src t :
  let t' := Options.overlayPort src t in
  Options.logLevel t' = Options.logLevel t
  /\ Options.maxmind t' = Options.maxmind t
  /\ Options.ip2location t' = Options.ip2location t.
Proof. unfold Options.overlayPort. repeat split; frame. Qed.

Lemma overlayPrettyOutput_frame src t :
  let t' := Options.overlayPrettyOutput src t in
  Options.logLevel t' = Options.logLevel t
  /\ Options.port t' = Options.port t
  /\ Options.maxmind t' = Options.maxmind t
  /\ Options.ip2location t' = Options.ip2location t.
Proof. unfold Options.overlayPrettyOutput. repeat split; frame. Qed.

Lemma overlayGetHeaders_frame src t :
  let t' := Options.overlayGetHeaders src t in
  Options.logLevel t' = Options.logLevel t
  /\ Options.port t' = Options.port t
  /\ Options.maxmind t' = Options.maxmind t
  /\ Options.ip2location t' = Options.ip2location t.
Proof. unfold Options.overlayGetHeaders. repeat split; frame. Qed.

Lemma overlayGetPaths_frame src t :
  let t' := Options.overlayGetPaths src t in
  Options.logLevel t' = Options.logLevel t
  /\ Options.port t' = Options.port t
  /\ Options.getHeaders t' = Options.getHeaders t
  /\ Options.maxmind t' = Options.maxmind t
  /\ Options.ip2location t' = Options.ip2location t.
Proof. unfold Options.overlayGetPaths. repeat split; frame. Qed.

Lemma overlayCors_frame src t :
  let t' := Options.overlayCors src t in
  Options.logLevel t' = Options.logLevel t
  /\ Options.port t' = Options.port t
  /\ Options.getHeaders t' = Options.getHeaders t
  /\ Options.maxmind t' = Options.maxmind t
  /\ Options.ip2location t' = Options.ip2location t.
Proof. unfold Options.overlayCors. repeat split; frame. Qed.

Lemma overlayMaxmind_frame src t :
  let t' := fst (Options.overlayMaxmind sep homedir src t) in
  Options.logLevel t' = Options.logLevel t
  /\ Options.port t' = Options.port t
  /\ Options.getHeaders t' = Options.getHeaders t
  /\ Options.ip2location t' = Options.ip2location t.
Proof. unfold Options.overlayMaxmind. repeat split; frame. Qed.

Lemma overlayIp2location_frame src t :
  let t' := Options.overlayIp2location sep homedir src t in
  Options.logLevel t' = Options.logLevel t
  /\ Options.port t' = Options.port t
  /\ Options.getHeaders t' = Options.getHeaders t.
Proof. unfold Options.overlayIp2location. repeat split; frame. Qed.

Lemma overlay_blocks src :
  Js.instanceofObject src = true ->
  overlay src = backendBlocks sep homedir src (earlyBlocks defaultDbPath src).
Proof.
  intros Hobj. subst overlay. unfold Options.overlayOptions.
  rewrite Hobj. reflexivity.
Qed.

Lemma backendBlocks_frame src t :
  let t' := backendBlocks sep homedir src t in
  Options.logLevel t' = Options.logLevel t
  /\ Options.port t' = Options.port t
  /\ Options.getHeaders t' = Options.getHeaders t.
Proof.
  cbv zeta. unfold backendBlocks.
  pose proof (overlayMaxmind_frame src t) as Hm. cbv zeta in Hm.
  destruct (Options.overlayMaxmind sep homedir src t) as [t1 [|]]; simpl in *.
  - tauto.
  - pose proof (overlayIp2location_frame src t1) as Hi. cbv zeta in Hi.
    destruct Hm as (<- & <- & <- & _). exact Hi.
Qed.

Lemma earlyBlocks_backends src :
  Options.maxmind (earlyBlocks defaultDbPath src) = {| MaxMind.dbPath := defaultDbPath |}
  /\ Options.ip2location (earlyBlocks defaultDbPath src)
     = {| IP2Location.dbPath := ""; IP2Location.subdivisionCsvPath := "" |}.
Proof.
  unfold earlyBlocks. fold defaults.
  destruct (overlayCors_frame src
    (Options.overlayGetPaths src (Options.overlayGetHeaders src
      (Options.overlayPrettyOutput src (Options.overlayEnabledOutputs src
        (Options.overlayPort src (Options.overlayLogLevel src defaults)))))))
    as (_ & _ & _ & -> & ->).
  destruct (overlayGetPaths_frame src
    (Options.overlayGetHeaders src
      (Options.overlayPrettyOutput src (Options.overlayEnabledOutputs src
        (Options.overlayPort src (Options.overlayLogLevel src defaults))))))
    as (_ & _ & _ & -> & ->).
  destruct (overlayGetHeaders_frame src
    (Options.overlayPrettyOutput src (Options.overlayEnabledOutputs src
        (Options.overlayPort src (Options.overlayLogLevel src defaults)))))
    as (_ & _ & -> & ->).
  destruct (overlayPrettyOutput_frame src
    (Options.overlayEnabledOutputs src
        (Options.overlayPort src (Options.overlayLogLevel src defaults))))
    as (_ & _ & -> & ->).
  destruct (overlayEnabledOutputs_frame src
    (Options.overlayPort src (Options.overlayLogLevel src defaults)))
    as (_ & _ & -> & ->).
  destruct (overlayPort_frame src (Options.overlayLogLevel src defaults))
    as (_ & -> & ->).
  destruct (overlayLogLevel_frame src defaults) as (_ & -> & ->).
  split; reflexivity.
Qed.

Lemma prop_instanceofObject (v : Js.value) (k : string) :
  Js.prop v k <> Js.VUndefined -> Js.instanceofObject v = true.
Proof.
  destruct v; simpl; try reflexivity; intros Hp; contradiction Hp; reflexivity.
Qed.

Lemma overlay_logLevel src :
  Js.instanceofObject src = true ->
  Options.logLevel (overlay src)
  = Options.logLevel (Options.overlayLogLevel src defaults).
Proof.
  intros Hobj. rewrite (overlay_blocks _ Hobj).
  destruct (backendBlocks_frame src (earlyBlocks defaultDbPath src)) as (-> & _).
  unfold earlyBlocks. fold defaults.
  rewrite (proj1 (overlayCors_frame _ _)), (proj1 (overlayGetPaths_frame _ _)),
    (proj1 (overlayGetHeaders_frame _ _)), (proj1 (overlayPrettyOutput_frame _ _)),
    (proj1 (overlayEnabledOutputs_frame _ _)), (proj1 (overlayPort_frame _ _)).
  reflexivity.
Qed.

Lemma overlay_port src :
  Js.instanceofObject src = true ->
  Options.port (overlay src)
  = Options.port (Options.overlayPort src (Options.overlayLogLevel src defaults)).
Proof.
  intros Hobj. rewrite (overlay_blocks _ Hobj).
  destruct (backendBlocks_frame src (earlyBlocks defaultDbPath src)) as (_ & -> & _).
  unfold earlyBlocks. fold defaults.
  rewrite (proj1 (proj2 (overlayCors_frame _ _))),
    (proj1 (proj2 (overlayGetPaths_frame _ _))),
    (proj1 (proj2 (overlayGetHeaders_frame _ _))),
    (proj1 (proj2 (overlayPrettyOutput_frame _ _))),
    (proj1 (proj2 (overlayEnabledOutputs_frame _ _))).
  reflexivity.
Qed.

(** The TypeScript overlay accepts [logLevel] exactly in [0, 4] and [port]
    exactly in [0, 65535], numbers only, and floors what it accepts. *)
Lemma ts_overlay_numeric_fields src :
  (forall q, Js.prop src "logLevel" = Js.VNum (Js.Finite q) ->
     (0 <= q)%Q /\ (q <= 4)%Q ->
     Options.logLevel (overlay src) = Js.ofZ (Qfloor q))
  /\ ((forall q, Js.prop src "logLevel" = Js.VNum (Js.Finite q) ->
         ~ ((0 <= q)%Q /\ (q <= 4)%Q)) ->
      Options.logLevel (overlay src) = LogLevel.INFO)
  /\ (forall q, Js.prop src "port" = Js.VNum (Js.Finite q) ->
        (0 <= q)%Q /\ (q <= 65535)%Q ->
        Options.port (overlay src) = Js.ofZ (Qfloor q))
  /\ ((forall q, Js.prop src "port" = Js.VNum (Js.Finite q) ->
         ~ ((0 <= q)%Q /\ (q <= 65535)%Q)) ->
      Options.port (overlay src) = Js.ofZ 3000).
Proof.
  destruct (Js.instanceofObject src) eqn:Hobj.
  2:{ assert (Hu : forall k, Js.prop src k = Js.VUndefined).
      { intros k. destruct (Js.prop src k) eqn:E; try reflexivity;
          assert (Hn : Js.prop src k <> Js.VUndefined) by (rewrite E; discriminate);
          apply prop_instanceofObject in Hn; congruence. }
      subst overlay. unfold Options.overlayOptions. rewrite Hobj. simpl.
      repeat split; try reflexivity; intros q Hq; rewrite Hu in Hq; discriminate. }
  rewrite (overlay_logLevel _ Hobj), (overlay_port _ Hobj).
  unfold Options.overlayPort, Options.overlayLogLevel.
  split; [|split; [|split]].
  - intros q -> [H0 H4]. simpl.
    apply Qle_bool_iff in H0. apply Qle_bool_iff in H4.
    unfold Js.ofZ, inject_Z in *. rewrite H0, H4. reflexivity.
  - intros Hout. destruct (Js.prop src "logLevel") as [| | |[| |q]| | | |];
      try reflexivity.
    + destruct negative; reflexivity.
    + simpl. destruct (Qle_bool _ q) eqn:H0; [|reflexivity].
      destruct (Qle_bool q _) eqn:H4; [|reflexivity].
      exfalso. apply (Hout q eq_refl).
      split; apply Qle_bool_iff; assumption.
  - intros q Hq [H0 H4].
    destruct (Js.asNumber (Js.prop src "logLevel")) as [n|];
      [destruct (Js.le LogLevel.OFF n && Js.le n LogLevel.DEBUG)|];
      rewrite Hq; simpl;
      apply Qle_bool_iff in H0; apply Qle_bool_iff in H4;
      unfold Js.ofZ, inject_Z in *; rewrite H0, H4; reflexivity.
  - intros Hout.
    assert (Hd : forall t, Options.port t = Js.ofZ 3000 ->
              Options.port
                match Js.asNumber (Js.prop src "port") with
                | Some port =>
                    if Js.le (Js.ofZ 0) port && Js.le port (Js.ofZ 65535)
                    then Options.withPort (Js.floor port) t
                    else t
                | None => t
                end = Js.ofZ 3000).
    { intros t Ht.
      destruct (Js.prop src "port") as [| | |[| |q]| | | |]; try exact Ht.
      - destruct negative; exact Ht.
      - simpl. destruct (Qle_bool _ q) eqn:H0; [|exact Ht].
        destruct (Qle_bool q _) eqn:H4; [|exact Ht].
        exfalso. apply (Hout q eq_refl).
        split; apply Qle_bool_iff; assumption. }
    apply Hd.
    destruct (Js.asNumber (Js.prop src "logLevel")) as [n|];
      [destruct (Js.le LogLevel.OFF n && Js.le n LogLevel.DEBUG)|]; reflexivity.
Qed.

Lemma overlay_getHeaders src :
  Js.instanceofObject (Js.prop src "getHeaders") = true ->
  Options.getHeaders (overlay src)
  = Options.entries
      (fold_left (Options.overlayHeader (Js.prop src "getHeaders"))
                 (Js.keys (Js.prop src "getHeaders")) Options.emptyHeaders).
Proof.
  intros Hh.
  assert (Hobj : Js.instanceofObject src = true).
  { apply (prop_instanceofObject _ "getHeaders"). intros E. rewrite E in Hh.
    discriminate. }
  rewrite (overlay_blocks _ Hobj).
  destruct (backendBlocks_frame src (earlyBlocks defaultDbPath src)) as (_ & _ & ->).
  unfold earlyBlocks. fold defaults.
  rewrite (proj1 (proj2 (proj2 (overlayCors_frame _ _)))),
    (proj1 (proj2 (proj2 (overlayGetPaths_frame _ _)))).
  unfold Options.overlayGetHeaders. rewrite Hh. reflexivity.
Qed.

Lemma early_blocks_agree src src' :
  (forall k, k <> "ip2location" -> Js.prop src' k = Js.prop src k) ->
  earlyBlocks defaultDbPath src' = earlyBlocks defaultDbPath src.
Proof.
  intros Hagree.
  unfold earlyBlocks, Options.overlayCors, Options.overlayGetPaths,
    Options.overlayGetHeaders, Options.overlayPrettyOutput,
    Options.overlayEnabledOutputs, Options.overlayPort, Options.overlayLogLevel.
  cbv zeta.
  rewrite !(Hagree "cors"), !(Hagree "getPaths"), !(Hagree "getHeaders"),
    !(Hagree "prettyOutput"), !(Hagree "enabledOutputs"), !(Hagree "port"),
    !(Hagree "logLevel") by discriminate.
  reflexivity.
Qed.

(** C5: the overlaid configuration never carries two backend paths; a
    non-blank string [maxmind.dbPath] fixes the MaxMind path, leaves the
    IP2Location options at their defaults and makes the result independent
    of [src.ip2location]; without a MaxMind path, a non-blank
    [ip2location.dbPath] sets the IP2Location path and empties the MaxMind
    path; [getDbOptions] answers MAXMIND whenever the MaxMind path is
    non-empty, [getDbInterface] then constructs the MaxMind adapter, and
    [getDbOptions] never fills in the options of both backends. *)
Theorem backend_selection (src : Js.value) :
  let r := overlay src in
  (MaxMind.dbPath (Options.maxmind r) = ""
   \/ IP2Location.dbPath (Options.ip2location r) = "")
  /\ (forall p,
        Js.instanceofObject src = true ->
        Js.prop (Js.prop src "maxmind") "dbPath" = Js.VStr p ->
        Str.trim p <> "" ->
        Options.maxmind r
          = {| MaxMind.dbPath := Utils.expandTildePath sep homedir (Str.trim p) |}
        /\ Options.ip2location r
           = {| IP2Location.dbPath := ""; IP2Location.subdivisionCsvPath := "" |}
        /\ forall src',
             Js.instanceofObject src' = true ->
             (forall k, k <> "ip2location" -> Js.prop src' k = Js.prop src k) ->
             overlay src' = r)
  /\ (forall q,
        Js.instanceofObject src = true ->
        Options.trimmedPath (Js.prop (Js.prop src "maxmind") "dbPath") = None ->
        Js.prop (Js.prop src "ip2location") "dbPath" = Js.VStr q ->
        Str.trim q <> "" ->
        IP2Location.dbPath (Options.ip2location r)
          = Utils.expandTildePath sep homedir (Str.trim q)
        /\ MaxMind.dbPath (Options.maxmind r) = "")
  /\ (MaxMind.dbPath (Options.maxmind r) <> "" ->
      Options.getDbOptions r
        = {| Db.dbProvider := Db.MAXMIND;
             Db.maxMindOptions := Some (Options.maxmind r);
             Db.ip2LocationOptions := None |}
      /\ Db.getDbInterface (Options.getDbOptions r)
         = inr (Db.GwaMaxMind (Options.maxmind r)))
  /\ (Db.maxMindOptions (Options.getDbOptions r) = None
      \/ Db.ip2LocationOptions (Options.getDbOptions r) = None).
Proof.
  cbv zeta.
  assert (Hne : forall s, s <> "" -> nonEmpty s = true).
  { intros s Hs. unfold nonEmpty. destruct (String.eqb s "") eqn:E;
      [apply String.eqb_eq in E; contradiction|reflexivity]. }
  split; [|split; [|split; [|split]]].
  - destruct (Js.instanceofObject src) eqn:Hobj.
    2:{ subst overlay. unfold Options.overlayOptions. rewrite Hobj.
        right. reflexivity. }
    rewrite (overlay_blocks _ Hobj). unfold backendBlocks.
    destruct (earlyBlocks_backends src) as [Hm Hi].
    unfold Options.overlayMaxmind.
    destruct (Js.instanceofObject (Js.prop src "maxmind"));
      [destruct (Options.trimmedPath (Js.prop (Js.prop src "maxmind") "dbPath"))|];
      simpl; try (right; rewrite Hi; reflexivity);
      unfold Options.overlayIp2location;
      (destruct (Js.instanceofObject (Js.prop src "ip2location"));
       [destruct (Options.trimmedPath (Js.prop (Js.prop src "ip2location") "dbPath"));
        [destruct (Options.trimmedPath
                     (Js.prop (Js.prop src "ip2location") "subdivisionCsvPath"))|]|]);
      simpl; try (left; reflexivity); right; rewrite Hi; reflexivity.
  - intros p Hobj Hp Hnb.
    assert (Hmo : Js.instanceofObject (Js.prop src "maxmind") = true).
    { apply (prop_instanceofObject _ "dbPath"). rewrite Hp. discriminate. }
    assert (Hbb : forall s t,
               Js.prop s "maxmind" = Js.prop src "maxmind" ->
               backendBlocks sep homedir s t =
               Options.withMaxmind
                 {| MaxMind.dbPath := Utils.expandTildePath sep homedir (Str.trim p) |} t).
    { intros s t Hs. unfold backendBlocks, Options.overlayMaxmind.
      rewrite Hs, Hmo, Hp. unfold Options.trimmedPath. simpl.
      rewrite (Hne _ Hnb). reflexivity. }
    rewrite (overlay_blocks _ Hobj), (Hbb _ _ eq_refl).
    destruct (earlyBlocks_backends src) as [Hm Hi].
    split; [reflexivity|]. split; [exact Hi|].
    intros src' Hobj' Hagree.
    rewrite (overlay_blocks _ Hobj'), Hbb by (apply Hagree; discriminate).
    rewrite (early_blocks_agree _ _ Hagree). reflexivity.
  - intros q Hobj Hnone Hq Hnb.
    assert (Hio : Js.instanceofObject (Js.prop src "ip2location") = true).
    { apply (prop_instanceofObject _ "dbPath"). rewrite Hq. discriminate. }
    assert (Htq : Options.trimmedPath (Js.VStr q) = Some (Str.trim q)).
    { unfold Options.trimmedPath. simpl. rewrite (Hne _ Hnb). reflexivity. }
    rewrite (overlay_blocks _ Hobj). unfold backendBlocks, Options.overlayMaxmind.
    rewrite Hnone.
    destruct (Js.instanceofObject (Js.prop src "maxmind")); simpl;
      unfold Options.overlayIp2location; rewrite Hio, Hq, Htq;
      destruct (Options.trimmedPath
                  (Js.prop (Js.prop src "ip2location") "subdivisionCsvPath"));
      split; reflexivity.
  - intros Hm. unfold Options.getDbOptions. rewrite (Hne _ Hm).
    split; reflexivity.
  - unfold Options.getDbOptions.
    destruct (nonEmpty (MaxMind.dbPath (Options.maxmind (overlay src))));
      [right; reflexivity|].
    destruct (nonEmpty (IP2Location.dbPath (Options.ip2location (overlay src))));
      left; reflexivity.
Qed.

End OptionsFacts.

(** ** The header overlay *)

Lemma sameName_trans_l {RT : Str.Runtime} (a b x : string) :
  sameName a b = true -> sameName x b = sameName x a.
Proof.
  unfold sameName. intros E. apply String.eqb_eq in E. rewrite E. reflexivity.
Qed.

Lemma sameName_refl {RT : Str.Runtime} (a : string) : sameName a a = true.
Proof. apply String.eqb_refl. Qed.

Lemma sameName_empty {RT : Str.Runtime} (k : string) :
  sameName "" k = true -> k = "".
Proof.
  unfold sameName. intros E. apply String.eqb_eq in E.
  rewrite Str.toLowerCase_nil in E. symmetry in E.
  exact (Str.toLowerCase_nonEmpty _ E).
Qed.

Section HeaderLists.
Context {V : Type}.
Implicit Types (o : Obj.t V) (p : string -> bool).

Lemma find_keys p o :
  find p (Obj.keys o) =
  match filter (fun e => p (fst e)) o with
  | [] => None
  | e :: _ => Some (fst e)
  end.
Proof.
  induction o as [|[k v] o IH]; simpl; [reflexivity|].
  destruct (p k); [reflexivity|exact IH].
Qed.

Lemma set_fresh k (v : V) o :
  ~ In k (Obj.keys o) -> Obj.set k v o = o ++ [(k, v)].
Proof.
  induction o as [|[k' v'] o IH]; simpl; intros Hn; [reflexivity|].
  destruct (String.eqb k' k) eqn:E.
  - apply String.eqb_eq in E. exfalso. apply Hn. left. assumption.
  - rewrite IH; [reflexivity|]. intros Hin. apply Hn. right. assumption.
Qed.

Lemma filter_comm (P Q : string * V -> bool) o :
  filter P (filter Q o) = filter Q (filter P o).
Proof.
  induction o as [|e o IH]; simpl; [reflexivity|].
  destruct (P e) eqn:EP, (Q e) eqn:EQ; simpl; rewrite ?EP, ?EQ, IH; reflexivity.
Qed.

Lemma filter_implied (P Q : string * V -> bool) o :
  (forall e, In e o -> P e = true -> Q e = true) ->
  filter P (filter Q o) = filter P o.
Proof.
  induction o as [|e o IH]; simpl; intros Himp; [reflexivity|].
  destruct (Q e) eqn:EQ; simpl.
  - destruct (P e); rewrite IH; auto.
  - destruct (P e) eqn:EP.
    + rewrite (Himp e (or_introl eq_refl) EP) in EQ. discriminate.
    + apply IH. auto.
Qed.

Lemma In_delete d o e : In e (Obj.delete d o) -> In e o.
Proof. unfold Obj.delete. rewrite filter_In. tauto. Qed.

End HeaderLists.

Section HeaderFacts.
Context {RT : Str.Runtime}.
Variable h : Js.value.

Let staged (l : list string) : Options.HeaderMap :=
  fold_left (Options.overlayHeader h) l Options.emptyHeaders.

Let valueOf (k : string) : option string := Js.asString (Js.prop h k).

Let inClass (name : string) (e : string * option string) : bool :=
  sameName (fst e) name.

Let lastOf := lastApplied h.

Lemma overlayHeader_rejected st k :
  acceptedHeader h k = false -> Options.overlayHeader h st k = st.
Proof.
  unfold acceptedHeader, Options.overlayHeader.
  destruct (Js.prop h k); try reflexivity; discriminate.
Qed.

Lemma overlayHeader_accepted st k :
  acceptedHeader h k = true ->
  Options.overlayHeader h st k =
  Options.assignHeader k (valueOf k)
    match find (fun x => sameName x k) (Obj.keys (Options.entries st)) with
    | Some d => if nonEmpty d then Options.deleteHeader d st else st
    | None => st
    end.
Proof.
  unfold acceptedHeader, Options.overlayHeader, valueOf.
  destruct (Js.prop h k); try discriminate; reflexivity.
Qed.

(** A write under a name the map does not hold: the setter of
    [__proto__] swallows it, any other name gets a new last entry *)
Lemma assignHeader_fresh k v (m : Options.HeaderMap) :
  ~ In k (Obj.keys (Options.entries m)) ->
  (k = "__proto__" -> Options.nullProto m = false) ->
  Options.entries (Options.assignHeader k v m)
  = (if String.eqb k "__proto__" then Options.entries m
     else Options.entries m ++ [(k, v)])
  /\ (Options.nullProto (Options.assignHeader k v m) = true ->
      Options.nullProto m = true \/ k = "__proto__").
Proof.
  intros Hfresh Hproto. unfold Options.assignHeader.
  assert (Hinc : includes (Obj.keys (Options.entries m)) k = false).
  { destruct (includes (Obj.keys (Options.entries m)) k) eqn:E; [|reflexivity].
    apply includes_In in E. contradiction. }
  rewrite Hinc.
  destruct (String.eqb k "__proto__") eqn:Ek.
  - apply String.eqb_eq in Ek. rewrite (Hproto Ek). cbn [negb andb].
    destruct v; cbn; split; auto.
  - cbn [andb Options.entries Options.nullProto].
    rewrite set_fresh by assumption. split; auto.
Qed.

(** The map staged from a list of distinct keys: every entry stems from an
    accepted key other than [__proto__]; of each name it holds the entry
    of the accepted key applied last, unless that key is [__proto__], and
    nothing else; and it keeps its prototype until [__proto__] is
    applied *)
Lemma staged_invariant (l : list string) :
  NoDup l ->
  (forall k v, In (k, v) (Options.entries (staged l)) ->
     In k l /\ acceptedHeader h k = true /\ v = valueOf k /\ k <> "__proto__")
  /\ (forall name,
        filter (inClass name) (Options.entries (staged l)) =
        match lastOf l name with
        | Some k => if String.eqb k "__proto__" then [] else [(k, valueOf k)]
        | None => []
        end)
  /\ (Options.nullProto (staged l) = true -> In "__proto__" l).
Proof.
  induction l as [|k l IH] using rev_ind; intros Hnd.
  - split; [intros k v []|split; [reflexivity|discriminate]].
  - apply NoDup_remove in Hnd. rewrite app_nil_r in Hnd.
    destruct Hnd as [Hnd Hfresh]. specialize (IH Hnd).
    destruct IH as (IH1 & IH2 & IH3).
    assert (Hsnoc : forall name,
               lastOf (l ++ [k]) name =
               if acceptedHeader h k && sameName k name
               then Some k else lastOf l name).
    { intros name. unfold lastOf, lastApplied. rewrite fold_left_app. reflexivity. }
    unfold staged. rewrite fold_left_app. simpl. fold (staged l).
    destruct (acceptedHeader h k) eqn:Hacc.
    2:{ rewrite (overlayHeader_rejected _ _ Hacc). simpl. split; [|split].
        - intros k' v Hin. destruct (IH1 _ _ Hin) as (Hl & Ha & Hv & Hp).
          split; [apply in_or_app; left; assumption|repeat split; assumption].
        - intros name. rewrite Hsnoc. simpl. apply IH2.
        - intros Hn. apply in_or_app. left. apply IH3. assumption. }
    rewrite (overlayHeader_accepted _ _ Hacc).
    set (m1 := match find (fun x => sameName x k)
                          (Obj.keys (Options.entries (staged l))) with
               | Some d => if nonEmpty d then Options.deleteHeader d (staged l)
                           else staged l
               | None => staged l
               end).
    (* what the removal of a duplicate leaves *)
    assert (Hm1 : (forall e, In e (Options.entries m1) ->
                             In e (Options.entries (staged l)))
                  /\ (forall name,
                        filter (inClass name) (Options.entries m1)
                        = if sameName k name then []
                          else filter (inClass name) (Options.entries (staged l)))
                  /\ Options.nullProto m1 = Options.nullProto (staged l)).
    { subst m1. rewrite find_keys. fold (inClass k).
      assert (Hcls : forall name, sameName k name = true ->
                 filter (inClass name) (Options.entries (staged l))
                 = filter (inClass k) (Options.entries (staged l))).
      { intros name Hkn. apply filter_ext. intros e. unfold inClass.
        apply (sameName_trans_l k name (fst e) Hkn). }
      destruct (filter (inClass k) (Options.entries (staged l)))
        as [|[d vd] rest] eqn:Hflt.
      - split; [auto|split; [|reflexivity]].
        intros name. destruct (sameName k name) eqn:Hkn; [|reflexivity].
        rewrite (Hcls name Hkn). reflexivity.
      - assert (Hone : rest = [] /\ vd = valueOf d /\ lastOf l k = Some d).
        { rewrite (IH2 k) in Hflt. destruct (lastOf l k) as [d'|]; [|discriminate].
          destruct (String.eqb d' "__proto__"); [discriminate|].
          injection Hflt as -> -> <-. repeat split. }
        destruct Hone as (-> & -> & Hlast).
        assert (Hd : In (d, valueOf d) (Options.entries (staged l))
                     /\ sameName d k = true).
        { assert (Hin : In (d, valueOf d)
                          (filter (inClass k) (Options.entries (staged l)))).
          { rewrite Hflt. left. reflexivity. }
          apply filter_In in Hin. exact Hin. }
        destruct Hd as [Hd Hdk].
        assert (Hdne : nonEmpty d = true).
        { unfold nonEmpty. destruct (String.eqb d "") eqn:E; [|reflexivity].
          apply String.eqb_eq in E. subst d. exfalso.
          apply sameName_empty in Hdk. subst k.
          apply Hfresh. apply (IH1 _ _ Hd). }
        cbn [fst]. rewrite Hdne. cbn [Options.deleteHeader Options.entries
                                       Options.nullProto].
        split; [intros e He; exact (In_delete _ _ _ He)|split; [|reflexivity]].
        intros name. unfold Obj.delete.
        destruct (sameName k name) eqn:Hkn.
        + rewrite filter_comm, (Hcls name Hkn). simpl.
          rewrite String.eqb_refl. reflexivity.
        + apply filter_implied.
          intros e He Hc. apply negb_true_iff.
          destruct (String.eqb (fst e) d) eqn:E; [|reflexivity].
          apply String.eqb_eq in E. unfold inClass in Hc. rewrite E in Hc.
          unfold sameName in Hc, Hdk, Hkn.
          apply String.eqb_eq in Hc. apply String.eqb_eq in Hdk.
          apply String.eqb_neq in Hkn. congruence. }
    clearbody m1. destruct Hm1 as (Hsub & Hclass & Hnull).
    assert (Hk : ~ In k (Obj.keys (Options.entries m1))).
    { intros Hin. apply In_keys in Hin. destruct Hin as [v Hv].
      apply Hfresh. apply (IH1 _ _ (Hsub _ Hv)). }
    assert (Hp : k = "__proto__" -> Options.nullProto m1 = false).
    { intros ->. rewrite Hnull.
      destruct (Options.nullProto (staged l)); [|reflexivity].
      contradiction Hfresh. apply IH3. reflexivity. }
    destruct (assignHeader_fresh k (valueOf k) m1 Hk Hp) as [Hent Hnp].
    rewrite Hent. split; [|split].
    + intros k' v Hin.
      assert (Hcases : In (k', v) (Options.entries m1)
                       \/ ((k', v) = (k, valueOf k) /\ k <> "__proto__")).
      { destruct (String.eqb k "__proto__") eqn:Ek; [left; assumption|].
        apply String.eqb_neq in Ek.
        apply in_app_or in Hin. destruct Hin as [Hin|[Hin|[]]];
          [left; assumption|right; split; [symmetry; assumption|assumption]]. }
      destruct Hcases as [Hin'|[Heq Hne]].
      * destruct (IH1 _ _ (Hsub _ Hin')) as (Hl & Ha & Hv & Hn).
        split; [apply in_or_app; left; assumption|repeat split; assumption].
      * injection Heq as -> ->.
        split; [apply in_or_app; right; left; reflexivity|].
        repeat split; assumption.
    + intros name. rewrite Hsnoc. cbn [andb].
      assert (Hflt : filter (inClass name)
                       (if String.eqb k "__proto__" then Options.entries m1
                        else Options.entries m1 ++ [(k, valueOf k)])
                     = filter (inClass name) (Options.entries m1)
                       ++ (if sameName k name
                           then if String.eqb k "__proto__" then []
                                else [(k, valueOf k)]
                           else [])).
      { destruct (String.eqb k "__proto__").
        - destruct (sameName k name); rewrite app_nil_r; reflexivity.
        - rewrite filter_app. simpl. unfold inClass at 2. simpl.
          destruct (sameName k name); reflexivity. }
      etransitivity; [exact Hflt|]. rewrite Hclass.
      destruct (sameName k name); [reflexivity|].
      rewrite app_nil_r. apply IH2.
    + intros Hn. apply in_or_app. destruct (Hnp Hn) as [Hn' | ->].
      * left. apply IH3. rewrite <- Hnull. assumption.
      * right. left. reflexivity.
Qed.

(** [lastOf] points at the last accepted key of that name *)
Lemma lastOf_spec (l : list string) (name k : string) :
  lastOf l name = Some k ->
  exists l1 l2,
    l = l1 ++ k :: l2
    /\ acceptedHeader h k = true /\ sameName k name = true
    /\ forall k', In k' l2 ->
         acceptedHeader h k' && sameName k' name = false.
Proof.
  induction l as [|x l IH] using rev_ind; [discriminate|].
  unfold lastOf, lastApplied. rewrite fold_left_app. simpl.
  fold (lastApplied h l name). fold (lastOf l name).
  destruct (acceptedHeader h x && sameName x name) eqn:E.
  - intros [= ->]. exists l, []. apply andb_true_iff in E.
    repeat split; try tauto. intros k' [].
  - intros Hl. destruct (IH Hl) as (l1 & l2 & -> & Ha & Hs & Hrest).
    exists l1, (l2 ++ [x]). rewrite <- app_assoc. simpl.
    repeat split; try assumption.
    intros k' Hin. apply in_app_or in Hin. destruct Hin as [Hin|[<-|[]]]; auto.
Qed.

Lemma lastOf_exists (l : list string) (name k : string) :
  In k l -> acceptedHeader h k = true -> sameName k name = true ->
  lastOf l name <> None.
Proof.
  induction l as [|x l IH] using rev_ind; [intros []|].
  intros Hin Ha Hs. unfold lastOf, lastApplied. rewrite fold_left_app. simpl.
  fold (lastApplied h l name). fold (lastOf l name).
  destruct (acceptedHeader h x && sameName x name) eqn:E; [discriminate|].
  apply in_app_or in Hin. destruct Hin as [Hin|[<-|[]]].
  - apply IH; assumption.
  - rewrite Ha, Hs in E. discriminate.
Qed.

End HeaderFacts.

(** C7: the header overlay means to keep, of the accepted keys that
    differ only in letter case, the entry of the one applied last.  It
    does not when that key is [__proto__]: the source
    [{"__PROTO__": "a", "__proto__": "b"}] holds two accepted keys, the
    entry staged for the first is deleted as the duplicate of the second,
    and the write of the second is swallowed by the setter of
    [Object.prototype], so the resulting map holds no entry of that name
    where the last definition was to be retained. *)
Theorem header_overlay_loses_proto_entry
  {RT : Str.Runtime} (sep homedir defaultDbPath : string) :
  let h := Js.prop Sample.protoSource "getHeaders" in
  let headers :=
    Options.getHeaders
      (Options.overlayOptions sep homedir defaultDbPath Sample.protoSource) in
  Js.keys h = ["__PROTO__"; "__proto__"]
  /\ acceptedHeader h "__PROTO__" = true
  /\ acceptedHeader h "__proto__" = true
  /\ filter (fun e => sameName (fst e) "__proto__") headers = []
  /\ (sameName "__PROTO__" "__proto__" = true -> headers = []).
Proof.
  cbv zeta.
  assert (Hh : Js.instanceofObject (Js.prop Sample.protoSource "getHeaders")
               = true) by reflexivity.
  pose proof (overlay_getHeaders sep homedir defaultDbPath _ Hh) as E.
  cbv zeta in E. rewrite E. clear E.
  split; [reflexivity|split; [reflexivity|split; [reflexivity|]]].
  cbn. fold (sameName "__PROTO__" "__proto__").
  destruct (sameName "__PROTO__" "__proto__") eqn:Es.
  - cbn. split; [reflexivity|intros _; reflexivity].
  - cbn. fold (sameName "__PROTO__" "__proto__"). rewrite Es.
    split; [reflexivity|discriminate].
Qed.

(** X20: in the [getHeaders] overlay only entries whose value is a string
    or [null] are accepted, and none is stored under the key [__proto__].
    For every pair of accepted source keys that differ only in letter case
    the resulting map holds, of that name, exactly the entry of the
    accepted key applied last, with that key's casing and value; it holds
    no entry of that name when that key is [__proto__]. *)
Theorem header_overlay_retains_last_definition
  {RT : Str.Runtime} (sep homedir defaultDbPath : string) (src : Js.value) :
  let h := Js.prop src "getHeaders" in
  let headers :=
    Options.getHeaders (Options.overlayOptions sep homedir defaultDbPath src) in
  Js.instanceofObject h = true ->
  NoDup (Js.keys h) ->
  (forall k v, In (k, v) headers ->
     In k (Js.keys h)
     /\ k <> "__proto__"
     /\ ((Js.prop h k = Js.VNull /\ v = None)
         \/ exists s, Js.prop h k = Js.VStr s /\ v = Some s))
  /\ (forall k1 k2,
        In k1 (Js.keys h) -> In k2 (Js.keys h) ->
        acceptedHeader h k1 = true -> acceptedHeader h k2 = true ->
        k1 <> k2 -> sameName k1 k2 = true ->
        exists k before after,
          Js.keys h = before ++ k :: after
          /\ (forall k', In k' after ->
                acceptedHeader h k' && sameName k' k1 = false)
          /\ acceptedHeader h k = true
          /\ sameName k k1 = true
          /\ filter (fun e => sameName (fst e) k1) headers
             = if String.eqb k "__proto__" then []
               else [(k, Js.asString (Js.prop h k))]).
Proof.
  cbv zeta. intros Hh Hnd.
  rewrite (overlay_getHeaders _ _ _ _ Hh).
  destruct (staged_invariant (Js.prop src "getHeaders") _ Hnd) as (H1 & H2 & _).
  split.
  - intros k v Hin. destruct (H1 _ _ Hin) as (Hk & Ha & -> & Hp).
    split; [assumption|]. split; [assumption|]. unfold acceptedHeader in Ha.
    destruct (Js.prop (Js.prop src "getHeaders") k); try discriminate.
    + left. split; reflexivity.
    + right. exists s. split; reflexivity.
  - intros k1 k2 Hk1 _ Ha1 _ _ _.
    pose proof (lastOf_exists (Js.prop src "getHeaders") _ k1 k1 Hk1 Ha1
                  (sameName_refl k1)) as Hex.
    destruct (lastApplied (Js.prop src "getHeaders")
                (Js.keys (Js.prop src "getHeaders")) k1) as [k|] eqn:Hlast;
      [|contradiction Hex; reflexivity].
    destruct (lastOf_spec _ _ _ _ Hlast) as (l1 & l2 & Hsplit & Ha & Hs & Hrest).
    exists k, l1, l2. repeat split; try assumption.
    rewrite (H2 k1), Hlast. reflexivity.
Qed.

Section HeaderExamples.
#[local] Existing Instance Sample.strings.

(** C7, in the runtime of the ASCII range: the two keys bear one name, and
    the map comes out empty *)
Lemma header_overlay_loses_proto_entry_witness :
  sameName "__PROTO__" "__proto__" = true
  /\ Options.getHeaders
       (Options.overlayOptions "/" "/home/gwa" "/srv/GeoLite2-Country.mmdb"
          Sample.protoSource)
     = [].
Proof.
  split; [reflexivity|].
  apply (header_overlay_loses_proto_entry
           "/" "/home/gwa" "/srv/GeoLite2-Country.mmdb").
  reflexivity.
Defined.

(** X20, on a header object with two spellings of one name *)
Lemma header_overlay_retains_last_definition_witness :
  filter (fun e => sameName (fst e) "X-Foo")
    (Options.getHeaders
       (Options.overlayOptions "/" "/home/gwa" "/srv/GeoLite2-Country.mmdb"
          Sample.headerSource))
  = [("x-foo", Some "b")].
Proof.
  destruct (header_overlay_retains_last_definition
              "/" "/home/gwa" "/srv/GeoLite2-Country.mmdb"
              Sample.headerSource) as [_ Hpair].
  - reflexivity.
  - repeat constructor; simpl; intuition discriminate.
  - destruct (Hpair "X-Foo" "x-foo")
      as (k & before & after & Hsplit & Hrest & Ha & Hs & Hf).
    + simpl; auto.
    + simpl; auto.
    + reflexivity.
    + reflexivity.
    + discriminate.
    + reflexivity.
    + reflexivity.
Defined.

End HeaderExamples.

(** ** The two overlays compared *)

Lemma get_absent {V} (o : Obj.t V) (k : string) :
  ~ In k (Obj.keys o) -> Obj.get o k = None.
Proof.
  induction o as [|[k' v] o IH]; simpl; intros Hn; [reflexivity|].
  destruct (String.eqb k' k) eqn:E.
  - apply String.eqb_eq in E. exfalso. apply Hn. left. assumption.
  - apply IH. intros Hin. apply Hn. right. assumption.
Qed.

Lemma prop_absent (v : Js.value) (k : string) :
  ~ In k (Js.keys v) -> Js.prop v k = Js.VUndefined.
Proof.
  intros Hn. unfold Js.prop. rewrite (get_absent _ _ Hn). reflexivity.
Qed.

Lemma outputOf_setOutput (eo : Options.EnabledOutputs) (o n : string) (b : bool) :
  In n Options.outputKeys ->
  outputOf (Options.setOutput o b eo) n
  = if String.eqb o n then b else outputOf eo n.
Proof.
  intros Hn. simpl in Hn.
  destruct Hn as [<-|[<-|[<-|[<-|[<-|[]]]]]];
    unfold Options.setOutput; switch_output o; reflexivity.
Qed.

Lemma enabledOutputs_ext (e1 e2 : Options.EnabledOutputs) :
  (forall n, In n Options.outputKeys -> outputOf e1 n = outputOf e2 n) ->
  e1 = e2.
Proof.
  intros Hext. destruct e1, e2.
  pose proof (Hext "country" ltac:(simpl; auto)) as Hc.
  pose proof (Hext "subdivision" ltac:(simpl; auto)) as Hs.
  pose proof (Hext "ip" ltac:(simpl; auto)) as Hi.
  pose proof (Hext "ip_version" ltac:(simpl; auto 6)) as Hv.
  pose proof (Hext "data" ltac:(simpl; auto 6)) as Hd.
  clear Hext. cbv in Hc, Hs, Hi, Hv, Hd. congruence.
Qed.

Lemma outputOf_assignOutputs (src : Js.value) (l : list string)
  (eo : Options.EnabledOutputs) (n : string) :
  In n Options.outputKeys ->
  outputOf (assignOutputs src l eo) n
  = if includes l n
    then match Js.asBoolean (Js.prop src n) with
         | Some b => b
         | None => outputOf eo n
         end
    else outputOf eo n.
Proof.
  intros Hn. revert eo. unfold assignOutputs.
  induction l as [|o l IH]; intros eo; [reflexivity|].
  cbn [fold_left]. rewrite IH. unfold includes. cbn [existsb].
  fold (includes l n). rewrite (String.eqb_sym n o).
  destruct (includes l n).
  - rewrite orb_true_r.
    destruct (Js.asBoolean (Js.prop src n)) eqn:En; [reflexivity|].
    destruct (Js.asBoolean (Js.prop src o)) eqn:Eo; [|reflexivity].
    rewrite (outputOf_setOutput _ _ _ _ Hn).
    destruct (String.eqb o n) eqn:E; [|reflexivity].
    apply String.eqb_eq in E. congruence.
  - rewrite orb_false_r.
    destruct (Js.asBoolean (Js.prop src o)) eqn:Eo.
    + rewrite (outputOf_setOutput _ _ _ _ Hn).
      destruct (String.eqb o n) eqn:E; [|reflexivity].
      apply String.eqb_eq in E. subst o. rewrite Eo. reflexivity.
    + destruct (String.eqb o n) eqn:E; [|reflexivity].
      apply String.eqb_eq in E. subst o. rewrite Eo. reflexivity.
Qed.

Lemma withEnabledOutputs_same (t : Options.AppOptions) :
  Options.withEnabledOutputs (Options.enabledOutputs t) t = t.
Proof. destruct t. reflexivity. Qed.

Lemma fold_outputs_assign (src : Js.value) (l : list string)
  (t : Options.AppOptions) :
  fold_left
    (fun target output =>
       match Js.asBoolean (Js.prop src output) with
       | Some outputValue =>
           Options.withEnabledOutputs
             (Options.setOutput output outputValue (Options.enabledOutputs target))
             target
       | None => target
       end) l t
  = Options.withEnabledOutputs
      (assignOutputs src l (Options.enabledOutputs t)) t.
Proof.
  revert t. unfold assignOutputs. induction l as [|o l IH]; intros t.
  - simpl. symmetry. apply withEnabledOutputs_same.
  - cbn [fold_left]. destruct (Js.asBoolean (Js.prop src o)); [|apply IH].
    rewrite IH. reflexivity.
Qed.

Lemma assignOutputs_known_keys (src : Js.value) (eo : Options.EnabledOutputs) :
  assignOutputs src Options.outputKeys eo
  = assignOutputs src
      (filter (fun output => includes Options.outputKeys output) (Js.keys src))
      eo.
Proof.
  apply enabledOutputs_ext. intros n Hn.
  rewrite !outputOf_assignOutputs by assumption.
  assert (Hk : includes Options.outputKeys n = true) by (apply includes_In; assumption).
  rewrite Hk.
  destruct (includes (filter _ (Js.keys src)) n) eqn:E; [reflexivity|].
  assert (Hnot : ~ In n (Js.keys src)).
  { intros Hin.
    assert (Hf : In n (filter (fun output => includes Options.outputKeys output)
                         (Js.keys src))).
    { apply filter_In. split; assumption. }
    apply includes_In in Hf. congruence. }
  rewrite (prop_absent _ _ Hnot). reflexivity.
Qed.

Section OverlaysCompared.
Context {RT : Str.Runtime}.
Variables sep homedir defaultDbPath : string.
Variable stringToNumber : Js.value -> Js.number.

Let overlayTs := Options.overlayOptions sep homedir defaultDbPath.
Let overlayJs := OptionsJs.overlayOptions sep homedir defaultDbPath stringToNumber.

Lemma overlayLogLevel_agree src t :
  absentOrNumber (Js.prop src "logLevel") = true ->
  Options.overlayLogLevel src t = OptionsJs.overlayLogLevel stringToNumber src t.
Proof.
  unfold Options.overlayLogLevel, OptionsJs.overlayLogLevel. cbv zeta.
  destruct (Js.prop src "logLevel"); try discriminate; reflexivity.
Qed.

Lemma overlayPort_agree src t :
  portInCommonRange (Js.prop src "port") = true ->
  Options.overlayPort src t = OptionsJs.overlayPort stringToNumber src t.
Proof.
  unfold Options.overlayPort, OptionsJs.overlayPort. cbv zeta.
  destruct (Js.prop src "port") as [| | |n| | | |]; try discriminate;
    [reflexivity|].
  cbn [Js.asNumber OptionsJs.toNumber portInCommonRange]. intros Hr.
  destruct (Js.lt (Js.ofZ 0) n) eqn:Hlt.
  - rewrite (lt_le _ _ Hlt) in *. cbn [negb orb andb] in *.
    rewrite Hr. reflexivity.
  - rewrite andb_false_l, orb_false_r in Hr. apply negb_true_iff in Hr.
    rewrite Hr. reflexivity.
Qed.

Lemma overlayEnabledOutputs_agree src t :
  Options.overlayEnabledOutputs src t = OptionsJs.overlayEnabledOutputs src t.
Proof.
  unfold Options.overlayEnabledOutputs, OptionsJs.overlayEnabledOutputs. cbv zeta.
  destruct (Js.instanceofObject (Js.prop src "enabledOutputs")); [|reflexivity].
  rewrite !fold_outputs_assign, assignOutputs_known_keys. reflexivity.
Qed.

Lemma overlayHeader_agree h st k :
  Options.overlayHeader h st k = OptionsJs.overlayHeader h st k.
Proof.
  unfold Options.overlayHeader, OptionsJs.overlayHeader.
  destruct (Js.prop h k); reflexivity.
Qed.

Lemma overlayGetHeaders_agree src t :
  Options.overlayGetHeaders src t = OptionsJs.overlayGetHeaders src t.
Proof.
  unfold Options.overlayGetHeaders, OptionsJs.overlayGetHeaders. cbv zeta.
  destruct (Js.instanceofObject (Js.prop src "getHeaders")); [|reflexivity].
  do 2 f_equal. generalize Options.emptyHeaders.
  induction (Js.keys (Js.prop src "getHeaders")) as [|k l IH]; intros st;
    [reflexivity|].
  simpl. rewrite overlayHeader_agree. apply IH.
Qed.

Lemma overlayCors_agree src t :
  Options.overlayCors src t = OptionsJs.overlayCors src t.
Proof.
  unfold Options.overlayCors, OptionsJs.overlayCors. cbv zeta.
  destruct (Js.instanceofObject (Js.prop src "cors")); [|reflexivity].
  destruct (Js.prop (Js.prop src "cors") "originRegEx");
    rewrite ?andb_false_r, ?andb_true_r; reflexivity.
Qed.

Lemma trimmedPath_agree v :
  trimmedIfString v = true -> Options.trimmedPath v = OptionsJs.truthyString v.
Proof.
  unfold Options.trimmedPath, OptionsJs.truthyString.
  destruct v; try reflexivity. simpl. intros E. apply String.eqb_eq in E.
  rewrite E. reflexivity.
Qed.

Lemma overlayMaxmind_agree src t :
  trimmedIfString (Js.prop (Js.prop src "maxmind") "dbPath") = true ->
  Options.overlayMaxmind sep homedir src t
  = OptionsJs.overlayMaxmind sep homedir src t.
Proof.
  intros Ht. unfold Options.overlayMaxmind, OptionsJs.overlayMaxmind.
  rewrite (trimmedPath_agree _ Ht). reflexivity.
Qed.

Lemma overlayIp2location_agree src t :
  trimmedIfString (Js.prop (Js.prop src "ip2location") "dbPath") = true ->
  trimmedIfString (Js.prop (Js.prop src "ip2location") "subdivisionCsvPath") = true ->
  Options.overlayIp2location sep homedir src t
  = OptionsJs.overlayIp2location sep homedir src t.
Proof.
  intros Hd Hs. unfold Options.overlayIp2location, OptionsJs.overlayIp2location.
  rewrite (trimmedPath_agree _ Hd), (trimmedPath_agree _ Hs). reflexivity.
Qed.

(** C10 (amended): the TypeScript and the JavaScript overlay return the
    same configuration for every source whose [logLevel] and [port] are
    absent or numbers, the port neither zero nor above 65535, and whose
    database paths, when strings, carry no surrounding white space. *)
Theorem overlays_agree_on_checked_sources (src : Js.value) :
  checkedSource src = true ->
  overlayTs src = overlayJs src.
Proof.
  unfold checkedSource. rewrite !andb_true_iff.
  intros ((((Hl & Hp) & Hm) & Hi) & Hs).
  subst overlayTs overlayJs.
  unfold Options.overlayOptions, OptionsJs.overlayOptions. cbv zeta.
  destruct (Js.instanceofObject src); [|reflexivity]. simpl.
  rewrite (overlayLogLevel_agree _ _ Hl), (overlayPort_agree _ _ Hp),
    overlayEnabledOutputs_agree, overlayGetHeaders_agree, overlayCors_agree,
    (overlayMaxmind_agree _ _ Hm).
  change Options.overlayPrettyOutput with OptionsJs.overlayPrettyOutput.
  change Options.overlayGetPaths with OptionsJs.overlayGetPaths.
  change (Options.getDefaultOptions defaultDbPath)
    with (OptionsJs.getDefaultOptions defaultDbPath).
  destruct (OptionsJs.overlayMaxmind sep homedir src _) as [t [|]];
    [reflexivity|].
  simpl. apply (overlayIp2location_agree _ _ Hi Hs).
Qed.

(** C6, on the JavaScript overlay: a port above 65535 overrides the default,
    the port 0 does not, and a [null] log level is coerced to 0; the
    TypeScript overlay keeps the defaults for the first and the third and
    accepts the second. *)
Theorem js_overlay_numeric_fields_unchecked :
  Options.port (overlayJs (Js.VObj [("port", Js.VNum (Js.ofZ 70000))]))
  = Js.ofZ 70000
  /\ Options.port (overlayTs (Js.VObj [("port", Js.VNum (Js.ofZ 70000))]))
     = Js.ofZ 3000
  /\ Options.port (overlayJs (Js.VObj [("port", Js.VNum (Js.ofZ 0))]))
     = Js.ofZ 3000
  /\ Options.port (overlayTs (Js.VObj [("port", Js.VNum (Js.ofZ 0))]))
     = Js.ofZ 0
  /\ Options.logLevel (overlayJs (Js.VObj [("logLevel", Js.VNull)]))
     = LogLevel.OFF
  /\ Options.logLevel (overlayTs (Js.VObj [("logLevel", Js.VNull)]))
     = LogLevel.INFO.
Proof. repeat split. Qed.

End OverlaysCompared.

Section OverlayExamples.
#[local] Existing Instance Sample.strings.

(** C10 as stated fails: the TypeScript overlay trims a database path and
    bounds the port, the JavaScript overlay does neither. *)
Lemma overlays_differ :
  let src := Js.VObj [("maxmind", Js.VObj [("dbPath", Js.VStr " /db.mmdb ")])] in
  MaxMind.dbPath (Options.maxmind
    (Options.overlayOptions "/" "/home/gwa" "/srv/GeoLite2-Country.mmdb" src))
  = "/db.mmdb"
  /\ MaxMind.dbPath (Options.maxmind
       (OptionsJs.overlayOptions "/" "/home/gwa" "/srv/GeoLite2-Country.mmdb"
          (fun _ => Js.NaN) src))
     = " /db.mmdb "
  /\ ~ (forall (RT : Str.Runtime) sep homedir defaultDbPath stringToNumber source,
          Options.overlayOptions (RT := RT) sep homedir defaultDbPath source
          = OptionsJs.overlayOptions (RT := RT) sep homedir defaultDbPath
              stringToNumber source).
Proof.
  cbv zeta. repeat split.
  intros Hall.
  specialize (Hall Sample.strings
                "/" "/home/gwa" "/srv/GeoLite2-Country.mmdb" (fun _ => Js.NaN)
                (Js.VObj [("maxmind", Js.VObj [("dbPath", Js.VStr " /db.mmdb ")])])).
  apply (f_equal (fun o => MaxMind.dbPath (Options.maxmind o))) in Hall.
  vm_compute in Hall. discriminate Hall.
Qed.

(** C10 (amended), on a source within the compared range *)
Lemma overlays_agree_on_checked_sources_witness :
  Options.overlayOptions "/" "/home/gwa" "/srv/GeoLite2-Country.mmdb"
    Sample.plainSource
  = OptionsJs.overlayOptions "/" "/home/gwa" "/srv/GeoLite2-Country.mmdb"
      (fun _ => Js.NaN) Sample.plainSource.
Proof.
  exact (overlays_agree_on_checked_sources
           "/" "/home/gwa" "/srv/GeoLite2-Country.mmdb" (fun _ => Js.NaN)
           Sample.plainSource eq_refl).
Defined.

(** C5, on a source that names both backends *)
Lemma backend_selection_witness :
  let r := Options.overlayOptions "/" "/home/gwa" "/srv/GeoLite2-Country.mmdb"
             Sample.bothBackends in
  Options.maxmind r = {| MaxMind.dbPath := "/home/gwa/x.mmdb" |}
  /\ Options.ip2location r
     = {| IP2Location.dbPath := ""; IP2Location.subdivisionCsvPath := "" |}
  /\ Db.dbProvider (Options.getDbOptions r) = Db.MAXMIND.
Proof.
  cbv zeta.
  pose proof (backend_selection "/" "/home/gwa" "/srv/GeoLite2-Country.mmdb"
                Sample.bothBackends) as (_ & Hmax & _ & Hdb & _).
  destruct (Hmax " ~/x.mmdb " eq_refl eq_refl ltac:(cbv; discriminate))
    as (Hm & Hi & _).
  split; [exact Hm|]. split; [exact Hi|].
  rewrite (proj1 (Hdb ltac:(rewrite Hm; cbv; discriminate))). reflexivity.
Defined.

End OverlayExamples.

(** ** The CORS matcher *)

Section CorsFacts.
Context {RT : Str.Runtime}.
Variable urlOrigin : string -> option string.
Variable regExpCompiles : string -> bool.
Variable regExpTest : Js.RegExp -> string -> bool * nat.

(** The origin of a parsed URL is never the empty string: it is ["null"]
    or starts with a scheme. *)
Hypothesis origin_nonEmpty : forall s o, urlOrigin s = Some o -> o <> "".

Lemma sanitize_pipeline (l : list string) :
  filter nonEmpty
    (map (fun o => match urlOrigin o with Some x => x | None => "" end)
       (filter nonEmpty (map Str.trim l)))
  = keepSome (survivingOrigin urlOrigin) l.
Proof.
  induction l as [|o l IH]; [reflexivity|].
  simpl. unfold survivingOrigin at 1.
  destruct (nonEmpty (Str.trim o)); [|exact IH].
  simpl. destruct (urlOrigin (Str.trim o)) as [x|] eqn:E.
  - assert (Hx : nonEmpty x = true).
    { unfold nonEmpty. destruct (String.eqb x "") eqn:Ex; [|reflexivity].
      apply String.eqb_eq in Ex. exfalso. exact (origin_nonEmpty _ _ E Ex). }
    rewrite Hx, IH. reflexivity.
  - simpl. exact IH.
Qed.

(** C8: [sanitizeOrigins] keeps, in order, the origin of every entry that
    is non-blank once trimmed and parses as a URL, and answers [null]
    rather than the empty list when nothing is kept; of
    [["not a url", "https://example.com/"]] it keeps
    [["https://example.com"]]. *)
Theorem sanitizeOrigins_spec (origins : option (list string)) :
  Cors.sanitizeOrigins urlOrigin None = None
  /\ (forall l,
        Cors.sanitizeOrigins urlOrigin (Some l)
        = match keepSome (survivingOrigin urlOrigin) l with
          | [] => None
          | kept => Some kept
          end)
  /\ Cors.sanitizeOrigins urlOrigin origins <> Some []
  /\ (urlOrigin "not a url" = None ->
      urlOrigin "https://example.com/" = Some "https://example.com" ->
      Cors.sanitizeOrigins urlOrigin (Some ["not a url"; "https://example.com/"])
      = Some ["https://example.com"]).
Proof.
  assert (Hl : forall l,
             Cors.sanitizeOrigins urlOrigin (Some l)
             = match keepSome (survivingOrigin urlOrigin) l with
               | [] => None
               | kept => Some kept
               end).
  { intros l. unfold Cors.sanitizeOrigins. rewrite sanitize_pipeline.
    destruct (keepSome (survivingOrigin urlOrigin) l); reflexivity. }
  split; [reflexivity|]. split; [exact Hl|]. split.
  - destruct origins as [l|]; [|discriminate].
    rewrite Hl. destruct (keepSome (survivingOrigin urlOrigin) l); discriminate.
  - intros Hbad Hgood. rewrite Hl. simpl. unfold survivingOrigin.
    rewrite !Str.trim_graphic by reflexivity.
    simpl. rewrite Hbad, Hgood. reflexivity.
Qed.

(** What [isCorsOrigin] answers, whatever the stored expression *)
Lemma isCorsOrigin_answer (c : Cors.GwaCors) (origin : string) :
  fst (Cors.isCorsOrigin regExpTest c origin) = true <->
  origin <> ""
  /\ ((exists l, Cors.origins_ c = Some l /\ In origin l)
      \/ (exists r, Cors.originRegEx_ c = Some r
                    /\ fst (regExpTest r origin) = true)).
Proof.
  unfold Cors.isCorsOrigin, nonEmpty.
  destruct (String.eqb origin "") eqn:Eo; cbn [negb].
  - apply String.eqb_eq in Eo. split; [discriminate|]. intros [Hne _].
    contradiction.
  - apply String.eqb_neq in Eo.
    destruct (Cors.origins_ c) as [l|] eqn:El.
    + destruct (includes l origin) eqn:Ei.
      * split; [|reflexivity]. intros _. split; [assumption|].
        left. exists l. split; [reflexivity|]. apply includes_In. assumption.
      * destruct (Cors.originRegEx_ c) as [r|].
        -- destruct (regExpTest r origin) as [matched i] eqn:Et. cbn [fst].
           split.
           ++ intros ->. split; [assumption|]. right. exists r.
              rewrite Et. split; reflexivity.
           ++ intros [_ [(l' & [= <-] & Hin)|(r' & [= <-] & Hm)]].
              ** apply includes_In in Hin. congruence.
              ** rewrite Et in Hm. exact Hm.
        -- split; [discriminate|].
           intros [_ [(l' & [= <-] & Hin)|(r' & Hr & _)]]; [|discriminate].
           apply includes_In in Hin. congruence.
    + destruct (Cors.originRegEx_ c) as [r|].
      * destruct (regExpTest r origin) as [matched i] eqn:Et. cbn [fst].
        split.
        -- intros ->. split; [assumption|]. right. exists r.
           rewrite Et. split; reflexivity.
        -- intros [_ [(l' & Hl & _)|(r' & [= <-] & Hm)]]; [discriminate|].
           rewrite Et in Hm. exact Hm.
      * split; [discriminate|].
        intros [_ [(l' & Hl & _)|(r' & Hr & _)]]; discriminate.
Qed.

(** A listed origin is allowed without a look at the expression *)
Lemma isCorsOrigin_listed (c : Cors.GwaCors) (l : list string) (origin : string) :
  origin <> "" -> Cors.origins_ c = Some l -> In origin l ->
  Cors.isCorsOrigin regExpTest c origin = (true, c).
Proof.
  intros Hne Hl Hin. unfold Cors.isCorsOrigin, nonEmpty.
  apply String.eqb_neq in Hne. rewrite Hne, Hl. cbn [negb].
  apply includes_In in Hin. rewrite Hin. reflexivity.
Qed.

(** A matcher that stores nothing allows nothing *)
Lemma isCorsOrigin_nothing_stored (c : Cors.GwaCors) (origin : string) :
  Cors.origins_ c = None -> Cors.originRegEx_ c = None ->
  Cors.isCorsOrigin regExpTest c origin = (false, c).
Proof.
  intros Hl Hr. unfold Cors.isCorsOrigin. rewrite Hl, Hr.
  destruct (negb (nonEmpty origin)); reflexivity.
Qed.

(** [getCorsHeaders] asks [isCorsOrigin] once *)
Lemma getCorsHeaders_answer (c : Cors.GwaCors) (origin : string) :
  Cors.getCorsHeaders regExpTest c (Some origin)
  = (if fst (Cors.isCorsOrigin regExpTest c origin)
     then Some [("Access-Control-Allow-Origin", origin)]
     else None,
     snd (Cors.isCorsOrigin regExpTest c origin)).
Proof.
  unfold Cors.getCorsHeaders.
  destruct (nonEmpty origin) eqn:E.
  - destruct (Cors.isCorsOrigin regExpTest c origin); reflexivity.
  - unfold Cors.isCorsOrigin. rewrite E. reflexivity.
Qed.

(** An expression without the [g] and the [y] flag is left as it was *)
Lemma isCorsOrigin_stateless (c : Cors.GwaCors) (origin : string) :
  (forall r s, Js.stateful r = false -> snd (regExpTest r s) = Js.lastIndex r) ->
  (forall r, Cors.originRegEx_ c = Some r -> Js.stateful r = false) ->
  snd (Cors.isCorsOrigin regExpTest c origin) = c.
Proof.
  intros Htest Hstored. unfold Cors.isCorsOrigin.
  destruct (negb (nonEmpty origin)); [reflexivity|].
  destruct (match Cors.origins_ c with
            | Some l => includes l origin
            | None => false
            end); [reflexivity|].
  destruct (Cors.originRegEx_ c) as [r|] eqn:Er; [|reflexivity].
  pose proof (Htest r origin (Hstored r eq_refl)) as Hi.
  destruct (regExpTest r origin) as [matched i]. cbn [snd] in *. subst i.
  destruct c as [l r']. cbn in *. subst r'. destruct r. reflexivity.
Qed.

(** C9 (amended): as long as the stored expression carries neither the [g]
    nor the [y] flag (no expression the matcher compiles from a string
    does), [isCorsOrigin] holds exactly of a non-empty origin that is
    listed or that the stored expression matches, hence of none when
    neither a list nor an expression is stored, and it leaves the matcher
    as it was, so that the answer does not depend on earlier calls;
    [getCorsHeaders] grants an allowed, supplied origin that very origin
    and is [null] otherwise. *)
Theorem isCorsOrigin_spec (c : Cors.GwaCors) (origin : string)
  (requested : option string) :
  (forall r s, Js.stateful r = false -> snd (regExpTest r s) = Js.lastIndex r) ->
  (forall r, Cors.originRegEx_ c = Some r -> Js.stateful r = false) ->
  (fst (Cors.isCorsOrigin regExpTest c origin) = true <->
     origin <> ""
     /\ ((exists l, Cors.origins_ c = Some l /\ In origin l)
         \/ (exists r, Cors.originRegEx_ c = Some r
                       /\ fst (regExpTest r origin) = true)))
  /\ snd (Cors.isCorsOrigin regExpTest c origin) = c
  /\ (Cors.origins_ c = None -> Cors.originRegEx_ c = None ->
      fst (Cors.isCorsOrigin regExpTest c origin) = false)
  /\ Cors.getCorsHeaders regExpTest c (Some origin)
     = (if fst (Cors.isCorsOrigin regExpTest c origin)
        then Some [("Access-Control-Allow-Origin", origin)]
        else None, c)
  /\ Cors.getCorsHeaders regExpTest c None = (None, c)
  /\ (forall headers,
        fst (Cors.getCorsHeaders regExpTest c requested) = Some headers ->
        exists o,
          requested = Some o
          /\ fst (Cors.isCorsOrigin regExpTest c o) = true
          /\ headers = [("Access-Control-Allow-Origin", o)])
  /\ (forall options,
        Cors.origins_ (Cors.create urlOrigin regExpCompiles options)
        = Cors.sanitizeOrigins urlOrigin (Cors.origins options))
  /\ (forall pattern r,
        Cors.parseOriginsRegEx regExpCompiles (Js.VStr pattern) = Some r ->
        Js.stateful r = false).
Proof.
  intros Htest Hstored.
  split; [apply isCorsOrigin_answer|].
  split; [apply isCorsOrigin_stateless; assumption|].
  split; [|split; [|split; [|split; [|split]]]].
  - intros Ho Hr.
    destruct (fst (Cors.isCorsOrigin regExpTest c origin)) eqn:E; [|reflexivity].
    apply isCorsOrigin_answer in E.
    destruct E as [_ [(l & Hl & _)|(r & Hr' & _)]]; congruence.
  - rewrite getCorsHeaders_answer, isCorsOrigin_stateless by assumption.
    reflexivity.
  - reflexivity.
  - intros headers. destruct requested as [o|]; [|discriminate].
    rewrite getCorsHeaders_answer. cbn [fst].
    destruct (fst (Cors.isCorsOrigin regExpTest c o)) eqn:E; [|discriminate].
    intros [= <-]. exists o. repeat split. exact E.
  - reflexivity.
  - intros pattern r. cbn [Cors.parseOriginsRegEx].
    destruct (regExpCompiles pattern); [|discriminate].
    intros [= <-]. reflexivity.
Qed.

End CorsFacts.

Lemma sample_origin_nonEmpty (s o : string) :
  Sample.urlOrigin s = Some o -> o <> "".
Proof.
  unfold Sample.urlOrigin.
  destruct (String.prefix "https://" s);
    [|destruct (String.prefix "http://" s); [|discriminate]];
    match goal with
    | |- context [Sample.hostOf ?r] => destruct (Sample.hostOf r)
    end; simpl; intros [= <-]; discriminate.
Qed.

Lemma sample_test_stateless (r : Js.RegExp) (s : string) :
  Js.stateful r = false -> snd (Sample.regExpTest r s) = Js.lastIndex r.
Proof.
  intros Hr. unfold Sample.regExpTest. rewrite Hr.
  match goal with
  | |- context [Sample.indexFrom ?p ?t 0 0] =>
      destruct (Sample.indexFrom p t 0 0)
  end; reflexivity.
Qed.

Section CorsExamples.
#[local] Existing Instance Sample.strings.

(** C8, on the sample origin parser *)
Lemma sanitizeOrigins_spec_witness :
  Cors.sanitizeOrigins Sample.urlOrigin (Some ["not a url"; "https://example.com/"])
  = Some ["https://example.com"].
Proof.
  exact (proj2 (proj2 (proj2
    (sanitizeOrigins_spec Sample.urlOrigin sample_origin_nonEmpty None)))
    eq_refl eq_refl).
Defined.

(** C9 as stated fails: a matcher given the expression [/example/g]
    allows an origin at one call and refuses the same origin at the next,
    although nothing was set in between and the expression matches the
    origin; so the answer is not determined by the origin, the list and
    the expression, and [getCorsHeaders] follows suit. *)
Lemma isCorsOrigin_depends_on_earlier_calls :
  let c := Cors.create Sample.urlOrigin Sample.regExpCompiles
             {| Cors.origins := None;
                Cors.originRegEx := Js.VRegExp Sample.globalExpression |} in
  let first := Cors.isCorsOrigin Sample.regExpTest c "https://example.com" in
  let second :=
    Cors.isCorsOrigin Sample.regExpTest (snd first) "https://example.com" in
  Cors.originRegEx_ c = Some Sample.globalExpression
  /\ first = (true, {| Cors.origins_ := None;
                       Cors.originRegEx_ :=
                         Some (Js.withLastIndex 15 Sample.globalExpression) |})
  /\ second = (false, c)
  /\ fst (Cors.getCorsHeaders Sample.regExpTest (snd first)
            (Some "https://example.com")) = None
  /\ ~ (forall (regExpTest : Js.RegExp -> string -> bool * nat)
               (c : Cors.GwaCors) (origin : string),
          fst (Cors.isCorsOrigin regExpTest c origin) = true <->
          origin <> ""
          /\ ((exists l, Cors.origins_ c = Some l /\ In origin l)
              \/ (exists r, Cors.originRegEx_ c = Some r
                            /\ fst (regExpTest (Js.withLastIndex 0 r) origin)
                               = true))).
Proof.
  cbv zeta. split; [reflexivity|]. split; [reflexivity|].
  split; [reflexivity|]. split; [reflexivity|].
  intros Hall.
  specialize (Hall Sample.regExpTest
                {| Cors.origins_ := None;
                   Cors.originRegEx_ :=
                     Some (Js.withLastIndex 15 Sample.globalExpression) |}
                "https://example.com").
  assert (Hfalse : fst (Cors.isCorsOrigin Sample.regExpTest
                          {| Cors.origins_ := None;
                             Cors.originRegEx_ :=
                               Some (Js.withLastIndex 15 Sample.globalExpression) |}
                          "https://example.com") = false) by reflexivity.
  rewrite Hfalse in Hall. apply proj2 in Hall.
  assert (Habs : false = true); [|discriminate Habs].
  apply Hall. split; [discriminate|]. right.
  exists (Js.withLastIndex 15 Sample.globalExpression).
  split; reflexivity.
Qed.

(** C9 (amended), on the sample matcher: a listed origin, and a matcher
    that stores nothing *)
Lemma isCorsOrigin_spec_witness :
  Cors.getCorsHeaders Sample.regExpTest
    (Cors.create Sample.urlOrigin Sample.regExpCompiles Sample.corsOptions)
    (Some "https://example.com")
  = (Some [("Access-Control-Allow-Origin", "https://example.com")],
     Cors.create Sample.urlOrigin Sample.regExpCompiles Sample.corsOptions)
  /\ fst (Cors.isCorsOrigin Sample.regExpTest
            {| Cors.origins_ := None; Cors.originRegEx_ := None |}
            "https://example.com") = false.
Proof.
  assert (Hstored : forall r,
             Cors.originRegEx_
               (Cors.create Sample.urlOrigin Sample.regExpCompiles
                  Sample.corsOptions) = Some r ->
             Js.stateful r = false).
  { intros r [= <-]. reflexivity. }
  assert (Hnone : forall r,
             Cors.originRegEx_
               {| Cors.origins_ := None; Cors.originRegEx_ := None |} = Some r ->
             Js.stateful r = false).
  { intros r [=]. }
  split.
  - destruct (isCorsOrigin_spec Sample.urlOrigin Sample.regExpCompiles
                Sample.regExpTest _ "https://example.com" None
                sample_test_stateless Hstored) as (_ & _ & _ & Hh & _).
    rewrite Hh. reflexivity.
  - destruct (isCorsOrigin_spec Sample.urlOrigin Sample.regExpCompiles
                Sample.regExpTest _ "https://example.com" None
                sample_test_stateless Hnone) as (_ & _ & Hn & _).
    apply Hn; reflexivity.
Defined.

End CorsExamples.

(* ================================================================== *)
(** * Part III: further properties of the same code                    *)
(* ================================================================== *)

Local Close Scope Q_scope.

(** ** The lookup orchestrator: backend calls and stored values *)

Section DbValues.
Context {Rec : Type} `{Db.DbInterface Rec}.
Variable isIP : string -> Z.
Variable enabled : list string.

(** The value the [switch] stores for an output name, if any *)
Let stored (r : option Rec) (ip : option string) (v : option Z)
  (output : string) : option (Server.OutputValue Rec) :=
  if String.eqb output "ip" then
    Some (Server.VString match ip with
                         | Some s => if nonEmpty s then s else ""
                         | None => ""
                         end)
  else if String.eqb output "ip_version" then
    Some (Server.VNumber match v with
                         | Some n => if Z.eqb n 0 then 0%Z else n
                         | None => 0%Z
                         end)
  else if String.eqb output "country" || String.eqb output "subdivision" then
    option_map Server.VString (Db.getStringValue r output)
  else if String.eqb output "data" then option_map Server.VData r
  else None.

Lemma shapeOutput_get r ip v ret o k :
  Obj.get (Db.shapeOutput r ip v ret o) k =
  if String.eqb o k
  then match stored r ip v k with
       | Some x => Some x
       | None => Obj.get ret k
       end
  else Obj.get ret k.
Proof.
  destruct (String.eqb o k) eqn:E.
  - apply String.eqb_eq in E. subst k. unfold Db.shapeOutput, stored.
    switch_output o; rewrite ?get_set_same; try reflexivity.
    + destruct (Db.getStringValue r "country"); simpl;
        rewrite ?get_set_same; reflexivity.
    + destruct (Db.getStringValue r "subdivision"); simpl;
        rewrite ?get_set_same; reflexivity.
    + destruct r; simpl; rewrite ?get_set_same; reflexivity.
  - apply String.eqb_neq in E. unfold Db.shapeOutput.
    repeat match goal with
           | |- context [if ?b then _ else _] => destruct b
           | |- context [match ?x with Some _ => _ | None => _ end] => destruct x
           end;
      rewrite ?get_set_other by assumption; reflexivity.
Qed.

Lemma fold_shape_get r ip v l acc k :
  Obj.get (fold_left (Db.shapeOutput r ip v) l acc) k =
  if includes l k
  then match stored r ip v k with
       | Some x => Some x
       | None => Obj.get acc k
       end
  else Obj.get acc k.
Proof.
  revert acc. induction l as [|o l IH]; intros acc; [reflexivity|].
  cbn [fold_left]. rewrite IH, shapeOutput_get.
  unfold includes. cbn [existsb]. fold (includes l k).
  rewrite (String.eqb_sym k o).
  destruct (includes l k), (String.eqb o k), (stored r ip v k); reflexivity.
Qed.

Lemma nonEmpty_or_empty (s : string) : (if nonEmpty s then s else "") = s.
Proof.
  unfold nonEmpty. destruct (String.eqb s "") eqn:E; [|reflexivity].
  apply String.eqb_eq in E. subst. reflexivity.
Qed.

Lemma zero_or_self (n : Z) : (if Z.eqb n 0 then 0%Z else n) = n.
Proof.
  destruct (Z.eqb n 0) eqn:E; [|reflexivity].
  apply Z.eqb_eq in E. subst. reflexivity.
Qed.

(** The record a lookup shapes its response from *)
Let recordOf (ip : string) : option Rec :=
  if Z.eqb (isIP ip) 0 || negb (Db.isDbNeeded enabled) then None
  else Db.get ip.

Lemma lookup_response (ip : string) :
  Server.geoIpApiResponse (Db.run (Db.lookup isIP enabled ip))
  = Db.geoIpApiResponse enabled (recordOf ip) (Some ip) (Some (isIP ip)).
Proof.
  rewrite run_lookup. unfold recordOf.
  destruct (Z.eqb (isIP ip) 0); [reflexivity|].
  destruct (Db.isDbNeeded enabled); [|reflexivity].
  simpl. destruct (Db.get ip); reflexivity.
Qed.


(** X2: in the response of [lookup] an enabled [ip] reads the address as
    given and an enabled [ip_version] its classification; an enabled
    [country] or [subdivision] reads what [getStringValue] extracts from
    the record the response is shaped from, and an enabled [data] that
    record; a name that is not enabled has no entry. *)
Theorem lookup_response_values (ip : string) :
  let ret := Server.geoIpApiResponse (Db.run (Db.lookup isIP enabled ip)) in
  let record :=
    if Z.eqb (isIP ip) 0 || negb (Db.isDbNeeded enabled) then None
    else Db.get ip in
  (In "ip" enabled -> Obj.get ret "ip" = Some (Server.VString ip))
  /\ (In "ip_version" enabled ->
      Obj.get ret "ip_version" = Some (Server.VNumber (isIP ip)))
  /\ (In "country" enabled ->
      Obj.get ret "country"
      = option_map Server.VString (Db.getStringValue record "country"))
  /\ (In "subdivision" enabled ->
      Obj.get ret "subdivision"
      = option_map Server.VString (Db.getStringValue record "subdivision"))
  /\ (In "data" enabled -> Obj.get ret "data" = option_map Server.VData record)
  /\ (forall k, ~ In k enabled -> Obj.get ret k = None).
Proof.
  cbv zeta. rewrite lookup_response. fold (recordOf ip).
  unfold Db.geoIpApiResponse.
  repeat split.
  - intros Hin. apply includes_In in Hin. rewrite fold_shape_get, Hin.
    unfold stored. simpl. rewrite nonEmpty_or_empty. reflexivity.
  - intros Hin. apply includes_In in Hin. rewrite fold_shape_get, Hin.
    unfold stored. simpl. rewrite zero_or_self. reflexivity.
  - intros Hin. apply includes_In in Hin. rewrite fold_shape_get, Hin.
    unfold stored. simpl.
    destruct (Db.getStringValue (recordOf ip) "country"); reflexivity.
  - intros Hin. apply includes_In in Hin. rewrite fold_shape_get, Hin.
    unfold stored. simpl.
    destruct (Db.getStringValue (recordOf ip) "subdivision"); reflexivity.
  - intros Hin. apply includes_In in Hin. rewrite fold_shape_get, Hin.
    unfold stored. simpl. destruct (recordOf ip); reflexivity.
  - intros k Hk. rewrite fold_shape_get.
    destruct (includes enabled k) eqn:E; [|reflexivity].
    apply includes_In in E. contradiction.
Qed.

End DbValues.

(** X2, on the sample adapter *)
Lemma lookup_response_values_witness :
  let ret := Server.geoIpApiResponse
               (Db.run (H := Sample.adapter)
                  (Db.lookup (H := Sample.adapter) Sample.isIP
                     ["subdivision"; "country"; "ip"] "1.1.1.1")) in
  Obj.get ret "country" = Some (Server.VString "AU")
  /\ Obj.get ret "ip" = Some (Server.VString "1.1.1.1")
  /\ Obj.get ret "data" = None.
Proof.
  pose proof (lookup_response_values (H := Sample.adapter) Sample.isIP
                ["subdivision"; "country"; "ip"] "1.1.1.1")
    as (Hip & _ & Hc & _ & _ & Hno).
  split; [|split].
  - exact (Hc ltac:(simpl; auto)).
  - exact (Hip ltac:(simpl; auto)).
  - apply Hno. simpl. intuition discriminate.
Defined.

(** ** Expansion of home-relative paths *)

Lemma indexOf_range (c : ascii) (s : string) :
  Str.indexOf c s = (-1)%Z \/ (0 <= Str.indexOf c s)%Z.
Proof.
  induction s as [|a s IH]; simpl; [left; reflexivity|].
  destruct (Ascii.eqb a c); [right; lia|].
  destruct (Z.ltb_spec (Str.indexOf c s) 0); [left; reflexivity|right; lia].
Qed.

Lemma indexOf_app_absent (c : ascii) (u r : string) :
  Str.indexOf c u = (-1)%Z ->
  Str.indexOf c (u ++ r)%string
  = if (Str.indexOf c r <? 0)%Z then (-1)%Z
    else (Z.of_nat (String.length u) + Str.indexOf c r)%Z.
Proof.
  induction u as [|a u IH]; intros Hu.
  - simpl. destruct (Z.ltb_spec (Str.indexOf c r) 0); [|reflexivity].
    destruct (indexOf_range c r); lia.
  - simpl in Hu. cbn [String.append Str.indexOf String.length].
    destruct (Ascii.eqb a c); [discriminate|].
    destruct (Z.ltb_spec (Str.indexOf c u) 0) as [Hneg|Hpos]; [|lia].
    assert (Hu' : Str.indexOf c u = (-1)%Z)
      by (destruct (indexOf_range c u); lia).
    rewrite (IH Hu').
    destruct (Z.ltb_spec (Str.indexOf c r) 0) as [Hr|Hr]; [reflexivity|].
    destruct (Z.ltb_spec (Z.of_nat (String.length u) + Str.indexOf c r) 0); lia.
Qed.

Lemma substring_prefix (u r : string) :
  String.substring 0 (String.length u) (u ++ r)%string = u.
Proof.
  induction u as [|a u IH]; simpl.
  - destruct r; reflexivity.
  - rewrite IH. reflexivity.
Qed.

Lemma slice_prefix (u r : string) :
  Str.slice (String.length u) (u ++ r)%string = r.
Proof.
  induction u as [|a u IH]; simpl; [destruct r; reflexivity|exact IH].
Qed.

Lemma length_append (u r : string) :
  String.length (u ++ r)%string = String.length u + String.length r.
Proof. induction u as [|a u IH]; simpl; [reflexivity|rewrite IH; reflexivity]. Qed.

Lemma append_nonEmpty_r (u r : string) :
  r <> "" -> (u ++ r)%string <> "".
Proof. destruct u; simpl; [tauto|discriminate]. Qed.

Section TildeFacts.
Variable homedir : string.

(** The outcomes of an expansion *)
Lemma expandTildePath_cases (sep path : string) :
  Utils.expandTildePath sep homedir path = path
  \/ (sep = "/" /\ path = "~"
      /\ Utils.expandTildePath sep homedir path = homedir)
  \/ (sep = "/" /\ exists rest,
        path = String "~" (String "/" rest)
        /\ Utils.expandTildePath sep homedir path
           = (homedir ++ String "/" rest)%string)
  \/ (exists tail,
        Utils.expandTildePath sep homedir path = ("/home/" ++ tail)%string).
Proof.
  unfold Utils.expandTildePath.
  destruct path as [|c [|d p]].
  - left. reflexivity.
  - cbn [nonEmpty String.eqb negb orb String.get].
    destruct (Ascii.eqb_spec c "~"); [subst c|left; reflexivity].
    destruct (String.eqb_spec sep "/"); [|left; reflexivity].
    right. left. repeat split; assumption.
  - cbn [nonEmpty String.eqb negb orb String.get].
    destruct (Ascii.eqb_spec c "~"); [subst c|left; reflexivity].
    destruct (String.eqb_spec sep "/"); [|left; reflexivity].
    cbn [negb orb String.length Nat.eqb].
    destruct (Ascii.eqb_spec d "/").
    + subst d. right. right. left. split; [assumption|].
      exists p. split; reflexivity.
    + cbv zeta.
      match goal with
      | |- context [if Utils.isPosixUsername ?u then _ else _] =>
          destruct (Utils.isPosixUsername u)
      end.
      * right. right. right. eexists. reflexivity.
      * left. reflexivity.
Qed.

Lemma expandTildePath_other (sep path : string) :
  String.get 0 path <> Some "~"%char \/ sep <> "/" ->
  Utils.expandTildePath sep homedir path = path.
Proof.
  intros Hp. unfold Utils.expandTildePath.
  destruct path as [|c p]; [reflexivity|].
  cbn [nonEmpty String.eqb negb orb String.get].
  destruct (Ascii.eqb_spec c "~"); [subst c|reflexivity].
  destruct (String.eqb_spec sep "/"); [|reflexivity].
  destruct Hp as [Hp|Hp]; [contradiction Hp; reflexivity|contradiction].
Qed.

(** X3: a path that does not start with a tilde, and any path on a
    platform whose separator is not the slash, is returned unchanged;
    ["~"] becomes the home directory and ["~/rest"] the home directory
    followed by ["/rest"]; the result is empty only for the empty path and
    for ["~"] under an empty home directory. *)
Theorem expandTildePath_home (sep path : string) :
  (String.get 0 path <> Some "~"%char \/ sep <> "/" ->
   Utils.expandTildePath sep homedir path = path)
  /\ Utils.expandTildePath "/" homedir "~" = homedir
  /\ (forall rest,
        Utils.expandTildePath "/" homedir (String "~" (String "/" rest))
        = (homedir ++ String "/" rest)%string)
  /\ (Utils.expandTildePath sep homedir path = "" <->
      path = "" \/ (sep = "/" /\ path = "~" /\ homedir = "")).
Proof.
  split; [apply expandTildePath_other|].
  split; [reflexivity|]. split; [reflexivity|].
  split.
  - intros He.
    destruct (expandTildePath_cases sep path)
      as [E|[(Hs & Hp & E)|[(Hs & rest & Hp & E)|(tail & E)]]];
      rewrite E in He.
    + left. assumption.
    + right. repeat split; assumption.
    + exfalso. revert He. apply append_nonEmpty_r. discriminate.
    + discriminate.
  - intros [->|(-> & -> & ->)]; reflexivity.
Qed.

(** X4: expansion is idempotent when the home directory does not itself
    start with a tilde, so expanding an already expanded path, as [run]
    does with the paths of overlaid options, changes nothing. *)
Theorem expandTildePath_idempotent (sep path : string) :
  String.get 0 homedir <> Some "~"%char ->
  Utils.expandTildePath sep homedir
    (Utils.expandTildePath sep homedir path)
  = Utils.expandTildePath sep homedir path.
Proof.
  intros Hh.
  destruct (expandTildePath_cases sep path)
    as [E|[(Hs & Hp & E)|[(Hs & rest & Hp & E)|(tail & E)]]];
    rewrite E.
  - exact E.
  - apply expandTildePath_other. left. assumption.
  - apply expandTildePath_other. left.
    destruct homedir as [|c h]; [discriminate|exact Hh].
  - apply expandTildePath_other. left. discriminate.
Qed.

Lemma isPosixUsername_noSlash (user : string) :
  Utils.isPosixUsername user = true ->
  user <> "" /\ Str.indexOf "/" user = (-1)%Z.
Proof.
  destruct user as [|c rest]; [discriminate|]. simpl.
  rewrite andb_true_iff. intros [Hc Hrest].
  split; [discriminate|].
  assert (Hc' : Ascii.eqb c "/" = false).
  { destruct (Ascii.eqb_spec c "/"); [subst c; discriminate|reflexivity]. }
  rewrite Hc'.
  assert (Hr : Str.indexOf "/" rest = (-1)%Z).
  { clear Hc Hc'. induction rest as [|d rest IH]; [reflexivity|].
    simpl in Hrest. apply andb_true_iff in Hrest. destruct Hrest as [Hd Hrest].
    simpl.
    assert (Hd' : Ascii.eqb d "/" = false).
    { destruct (Ascii.eqb_spec d "/"); [subst d; discriminate|reflexivity]. }
    rewrite Hd', (IH Hrest). reflexivity. }
  rewrite Hr. reflexivity.
Qed.

(** X5: ["~user"] and ["~user/rest"] expand to ["/home/user"] and
    ["/home/user/rest"] when [user] is a POSIX user name, and are returned
    unchanged when [user], non-empty and without slash, is not one. *)
Theorem expandTildePath_user (user rest : string) :
  user <> "" ->
  Str.indexOf "/" user = (-1)%Z ->
  rest = "" \/ String.get 0 rest = Some "/"%char ->
  Utils.expandTildePath "/" homedir (String "~" (user ++ rest))
  = if Utils.isPosixUsername user
    then ("/home/" ++ user ++ rest)%string
    else String "~" (user ++ rest).
Proof.
  intros Hne Hns Hrest.
  assert (Hget1 : exists c, String.get 1 (String "~" (user ++ rest)) = Some c
                            /\ Ascii.eqb c "/" = false).
  { destruct user as [|c u]; [contradiction Hne; reflexivity|].
    exists c. split; [reflexivity|].
    simpl in Hns. destruct (Ascii.eqb c "/"); [discriminate|reflexivity]. }
  assert (Hlen : String.length (String "~" (user ++ rest))
                 = S (String.length user + String.length rest)).
  { simpl. rewrite length_append. reflexivity. }
  assert (Hulen : 1 <= String.length user).
  { destruct user; [contradiction Hne; reflexivity|simpl; lia]. }
  assert (Hidx : Str.indexOf "/" (String "~" (user ++ rest))
                 = if (Str.indexOf "/" rest <? 0)%Z then (-1)%Z
                   else (Z.of_nat (String.length user) + 1)%Z).
  { cbn [Str.indexOf]. change (Ascii.eqb "~" "/") with false. cbv iota.
    rewrite (indexOf_app_absent _ _ rest Hns).
    destruct Hrest as [->|Hslash].
    - reflexivity.
    - destruct rest as [|d rest']; [discriminate|].
      simpl in Hslash. injection Hslash as ->.
      cbn [Str.indexOf]. change (Ascii.eqb "/" "/") with true. cbv iota.
      change (0 <? 0)%Z with false. cbv iota. rewrite Z.add_0_r.
      destruct (Z.ltb_spec (Z.of_nat (String.length user)) 0); [lia|reflexivity]. }
  assert (Huser :
    Str.substring 1
      (if (1 <? Str.indexOf "/" (String "~" (user ++ rest)))%Z
       then Z.to_nat (Str.indexOf "/" (String "~" (user ++ rest)))
       else String.length (String "~" (user ++ rest)))
      (String "~" (user ++ rest))
    = user).
  { rewrite Hidx, Hlen. unfold Str.substring. cbn [String.substring].
    destruct Hrest as [->|Hslash].
    - simpl (Str.indexOf "/" ""). cbn [Z.ltb Z.compare].
      replace (S (String.length user + String.length "") - 1)
        with (String.length user) by (simpl; lia).
      apply substring_prefix.
    - destruct rest as [|d rest']; [discriminate|].
      simpl in Hslash. injection Hslash as ->.
      cbn [Str.indexOf]. change (Ascii.eqb "/" "/") with true. cbv iota.
      change (0 <? 0)%Z with false. cbv iota.
      destruct (Z.ltb_spec 1 (Z.of_nat (String.length user) + 1)); [|lia].
      replace (Z.to_nat (Z.of_nat (String.length user) + 1) - 1)
        with (String.length user) by lia.
      apply substring_prefix. }
  assert (Hslice : Str.slice (1 + String.length user)
                     (String "~" (user ++ rest)) = rest).
  { simpl. apply slice_prefix. }
  assert (Hne' : nonEmpty (String "~" (user ++ rest)) = true) by reflexivity.
  assert (Hget0 : String.get 0 (String "~" (user ++ rest)) = Some "~"%char)
    by reflexivity.
  assert (Hlen1 : Nat.eqb (String.length (String "~" (user ++ rest))) 1 = false).
  { rewrite Hlen. apply Nat.eqb_neq. lia. }
  destruct Hget1 as (c & Hget1 & Hc).
  unfold Utils.expandTildePath. cbv zeta.
  set (path := String "~" (user ++ rest)) in *. clearbody path.
  rewrite Hne', Hget0, Hlen1, Hget1, Hc, Huser, Hslice.
  reflexivity.
Qed.

End TildeFacts.

(** X4, for a home directory under [/home] *)
Lemma expandTildePath_idempotent_witness :
  Utils.expandTildePath "/" "/home/gwa"
    (Utils.expandTildePath "/" "/home/gwa" "~/GeoLite2-Country.mmdb")
  = "/home/gwa/GeoLite2-Country.mmdb".
Proof.
  exact (expandTildePath_idempotent "/home/gwa" "/" "~/GeoLite2-Country.mmdb"
           ltac:(discriminate)).
Defined.

(** X5, for a named user *)
Lemma expandTildePath_user_witness :
  Utils.expandTildePath "/" "/home/gwa" "~geo/db/city.mmdb"
  = "/home/geo/db/city.mmdb".
Proof.
  exact (expandTildePath_user "/home/gwa" "geo" "/db/city.mmdb"
           ltac:(discriminate) eq_refl (or_intror eq_refl)).
Defined.

(** ** The option overlay, field by field *)

Lemma Qfloor_between (q : Q) (a b : Z) :
  Qle_bool (inject_Z a) q = true -> Qle_bool q (inject_Z b) = true ->
  (a <= Qfloor q <= b)%Z.
Proof.
  intros Ha Hb. apply Qle_bool_iff in Ha. apply Qle_bool_iff in Hb.
  apply Qfloor_resp_le in Ha. apply Qfloor_resp_le in Hb.
  rewrite Qfloor_Z in Ha, Hb. lia.
Qed.

Lemma trimmedStrings_entries {RT : Str.Runtime} (l : list Js.value) :
  Options.trimmedStrings l = keepSome trimmedEntry l.
Proof.
  unfold Options.trimmedStrings.
  induction l as [|v l IH]; [reflexivity|].
  cbn [map filter keepSome]. rewrite IH.
  destruct v; try reflexivity.
  cbn [Js.asString trimmedEntry]. destruct (nonEmpty (Str.trim s)); reflexivity.
Qed.

Lemma In_trimmedStrings {RT : Str.Runtime} (l : list Js.value) (p : string) :
  In p (Options.trimmedStrings l)
  <-> p <> "" /\ exists s, In (Js.VStr s) l /\ p = Str.trim s.
Proof.
  unfold Options.trimmedStrings. rewrite filter_In, in_map_iff. split.
  - intros [(v & Hv & Hin) Hne]. split.
    + intros ->. discriminate.
    + destruct v; simpl in Hv; subst p; try discriminate.
      exists s. split; [assumption|reflexivity].
  - intros [Hne (s & Hin & ->)]. split.
    + exists (Js.VStr s). split; [reflexivity|assumption].
    + unfold nonEmpty. apply negb_true_iff. apply String.eqb_neq. assumption.
Qed.

Lemma prop_primitive (v : Js.value) (k : string) :
  Js.instanceofObject v = false -> Js.prop v k = Js.VUndefined.
Proof.
  intros Hv. destruct (Js.prop v k) eqn:E; try reflexivity;
    assert (Hn : Js.prop v k <> Js.VUndefined) by (rewrite E; discriminate);
    apply prop_instanceofObject in Hn; congruence.
Qed.

Section OptionsFields.
Context {RT : Str.Runtime}.
Variables sep homedir defaultDbPath : string.

Let defaults := Options.getDefaultOptions defaultDbPath.
Let overlay := Options.overlayOptions sep homedir defaultDbPath.

Ltac untouched :=
  intros;
  repeat match goal with
         | |- context [match ?x with _ => _ end] => destruct x
         end;
  reflexivity.

Lemma overlayLogLevel_rest src t :
  let t' := Options.overlayLogLevel src t in
  Options.enabledOutputs t' = Options.enabledOutputs t
  /\ Options.prettyOutput t' = Options.prettyOutput t
  /\ Options.getHeaders t' = Options.getHeaders t
  /\ Options.getPaths t' = Options.getPaths t
  /\ Options.cors t' = Options.cors t.
Proof. unfold Options.overlayLogLevel. repeat split; untouched. Qed.

Lemma overlayPort_rest src t :
  let t' := Options.overlayPort src t in
  Options.enabledOutputs t' = Options.enabledOutputs t
  /\ Options.prettyOutput t' = Options.prettyOutput t
  /\ Options.getHeaders t' = Options.getHeaders t
  /\ Options.getPaths t' = Options.getPaths t
  /\ Options.cors t' = Options.cors t.
Proof. unfold Options.overlayPort. repeat split; untouched. Qed.

Lemma overlayEnabledOutputs_rest src t :
  let t' := Options.overlayEnabledOutputs src t in
  Options.enabledOutputs t'
  = (if Js.instanceofObject (Js.prop src "enabledOutputs")
     then assignOutputs (Js.prop src "enabledOutputs") Options.outputKeys
            (Options.enabledOutputs t)
     else Options.enabledOutputs t)
  /\ Options.prettyOutput t' = Options.prettyOutput t
  /\ Options.getHeaders t' = Options.getHeaders t
  /\ Options.getPaths t' = Options.getPaths t
  /\ Options.cors t' = Options.cors t.
Proof.
  cbv zeta. unfold Options.overlayEnabledOutputs.
  destruct (Js.instanceofObject (Js.prop src "enabledOutputs")).
  - rewrite fold_outputs_assign. repeat split.
  - repeat split.
Qed.

Lemma overlayPrettyOutput_rest src t :
  let t' := Options.overlayPrettyOutput src t in
  Options.enabledOutputs t' = Options.enabledOutputs t
  /\ Options.getHeaders t' = Options.getHeaders t
  /\ Options.getPaths t' = Options.getPaths t
  /\ Options.cors t' = Options.cors t.
Proof. unfold Options.overlayPrettyOutput. repeat split; untouched. Qed.

Lemma overlayGetHeaders_rest src t :
  let t' := Options.overlayGetHeaders src t in
  Options.enabledOutputs t' = Options.enabledOutputs t
  /\ Options.prettyOutput t' = Options.prettyOutput t
  /\ Options.getPaths t' = Options.getPaths t
  /\ Options.cors t' = Options.cors t.
Proof. unfold Options.overlayGetHeaders. repeat split; untouched. Qed.

Lemma overlayGetPaths_rest src t :
  let t' := Options.overlayGetPaths src t in
  Options.enabledOutputs t' = Options.enabledOutputs t
  /\ Options.prettyOutput t' = Options.prettyOutput t
  /\ Options.cors t' = Options.cors t.
Proof. unfold Options.overlayGetPaths. repeat split; untouched. Qed.

Lemma overlayCors_rest src t :
  let t' := Options.overlayCors src t in
  Options.enabledOutputs t' = Options.enabledOutputs t
  /\ Options.prettyOutput t' = Options.prettyOutput t
  /\ Options.getPaths t' = Options.getPaths t.
Proof. unfold Options.overlayCors. repeat split; untouched. Qed.

Lemma backendBlocks_rest src t :
  let t' := backendBlocks sep homedir src t in
  Options.enabledOutputs t' = Options.enabledOutputs t
  /\ Options.prettyOutput t' = Options.prettyOutput t
  /\ Options.getPaths t' = Options.getPaths t
  /\ Options.cors t' = Options.cors t.
Proof.
  assert (Hm : forall u,
             let u' := fst (Options.overlayMaxmind sep homedir src u) in
             Options.enabledOutputs u' = Options.enabledOutputs u
             /\ Options.prettyOutput u' = Options.prettyOutput u
             /\ Options.getPaths u' = Options.getPaths u
             /\ Options.cors u' = Options.cors u).
  { unfold Options.overlayMaxmind. repeat split; untouched. }
  assert (Hi : forall u,
             let u' := Options.overlayIp2location sep homedir src u in
             Options.enabledOutputs u' = Options.enabledOutputs u
             /\ Options.prettyOutput u' = Options.prettyOutput u
             /\ Options.getPaths u' = Options.getPaths u
             /\ Options.cors u' = Options.cors u).
  { unfold Options.overlayIp2location. repeat split; untouched. }
  cbv zeta. unfold backendBlocks.
  specialize (Hm t). cbv zeta in Hm.
  destruct (Options.overlayMaxmind sep homedir src t) as [t1 [|]]; simpl in *.
  - exact Hm.
  - specialize (Hi t1). cbv zeta in Hi.
    destruct Hm as (<- & <- & <- & <-). exact Hi.
Qed.

(** The fields of the result, each read off its own block *)
Lemma overlay_enabledOutputs src :
  Options.enabledOutputs (overlay src)
  = assignOutputs (Js.prop src "enabledOutputs") Options.outputKeys
      (Options.enabledOutputs defaults).
Proof.
  subst overlay. destruct (Js.instanceofObject src) eqn:Hobj.
  - rewrite (overlay_blocks _ _ _ _ Hobj).
    rewrite (proj1 (backendBlocks_rest _ _)). unfold earlyBlocks. fold defaults.
    rewrite (proj1 (overlayCors_rest _ _)), (proj1 (overlayGetPaths_rest _ _)),
      (proj1 (overlayGetHeaders_rest _ _)), (proj1 (overlayPrettyOutput_rest _ _)),
      (proj1 (overlayEnabledOutputs_rest _ _)),
      (proj1 (overlayPort_rest _ _)), (proj1 (overlayLogLevel_rest _ _)).
    destruct (Js.instanceofObject (Js.prop src "enabledOutputs")) eqn:Heo;
      [reflexivity|].
    unfold assignOutputs. simpl. rewrite !(prop_primitive _ _ Heo). reflexivity.
  - unfold Options.overlayOptions. rewrite Hobj.
    rewrite (prop_primitive _ "enabledOutputs" Hobj). reflexivity.
Qed.

Lemma overlay_getPaths src :
  Options.getPaths (overlay src)
  = match Js.prop src "getPaths" with
    | Js.VArr l =>
        match Options.trimmedStrings l with
        | [] => ["/"]
        | paths => paths
        end
    | _ => ["/"; "/*"]
    end.
Proof.
  subst overlay. destruct (Js.instanceofObject src) eqn:Hobj.
  - rewrite (overlay_blocks _ _ _ _ Hobj).
    rewrite (proj1 (proj2 (proj2 (backendBlocks_rest _ _)))).
    unfold earlyBlocks. fold defaults.
    rewrite (proj2 (proj2 (overlayCors_rest _ _))).
    unfold Options.overlayGetPaths.
    destruct (Js.prop src "getPaths"); simpl;
      try (rewrite (proj1 (proj2 (proj2 (overlayGetHeaders_rest _ _)))),
             (proj1 (proj2 (proj2 (overlayPrettyOutput_rest _ _)))),
             (proj1 (proj2 (proj2 (proj2 (overlayEnabledOutputs_rest _ _))))),
             (proj1 (proj2 (proj2 (proj2 (overlayPort_rest _ _))))),
             (proj1 (proj2 (proj2 (proj2 (overlayLogLevel_rest _ _)))));
           reflexivity).
    destruct (Options.trimmedStrings elements); reflexivity.
  - unfold Options.overlayOptions. rewrite Hobj.
    rewrite (prop_primitive _ "getPaths" Hobj). reflexivity.
Qed.

Lemma overlay_cors src :
  Options.cors (overlay src)
  = {| Cors.origins :=
         match Js.prop (Js.prop src "cors") "origins" with
         | Js.VArr l => Some (Options.trimmedStrings l)
         | _ => None
         end;
       Cors.originRegEx :=
         match Js.prop (Js.prop src "cors") "originRegEx" with
         | Js.VStr s => if nonEmpty s then Js.VStr s else Js.VNull
         | Js.VRegExp re => Js.VRegExp re
         | _ => Js.VNull
         end |}.
Proof.
  subst overlay. destruct (Js.instanceofObject src) eqn:Hobj.
  - rewrite (overlay_blocks _ _ _ _ Hobj).
    rewrite (proj2 (proj2 (proj2 (backendBlocks_rest _ _)))).
    unfold earlyBlocks. fold defaults.
    assert (Hc : Options.cors
              (Options.overlayGetPaths src
                 (Options.overlayGetHeaders src
                    (Options.overlayPrettyOutput src
                       (Options.overlayEnabledOutputs src
                          (Options.overlayPort src
                             (Options.overlayLogLevel src defaults))))))
            = {| Cors.origins := None; Cors.originRegEx := Js.VNull |}).
    { rewrite (proj2 (proj2 (overlayGetPaths_rest _ _))),
        (proj2 (proj2 (proj2 (overlayGetHeaders_rest _ _)))),
        (proj2 (proj2 (proj2 (overlayPrettyOutput_rest _ _)))),
        (proj2 (proj2 (proj2 (proj2 (overlayEnabledOutputs_rest _ _))))),
        (proj2 (proj2 (proj2 (proj2 (overlayPort_rest _ _))))),
        (proj2 (proj2 (proj2 (proj2 (overlayLogLevel_rest _ _))))).
      reflexivity. }
    unfold Options.overlayCors. cbv zeta.
    destruct (Js.instanceofObject (Js.prop src "cors")) eqn:Hco.
    + destruct (Js.prop (Js.prop src "cors") "origins");
        destruct (Js.prop (Js.prop src "cors") "originRegEx")
          as [| | | |pattern| | |];
        simpl; rewrite ?Hc; try reflexivity;
        destruct (nonEmpty pattern); simpl; rewrite ?Hc; reflexivity.
    + rewrite !(prop_primitive _ _ Hco). exact Hc.
  - unfold Options.overlayOptions. rewrite Hobj.
    rewrite (prop_primitive _ "cors" Hobj). reflexivity.
Qed.

(** X6: whatever the source, the TypeScript overlay leaves a log level
    that is an integer from 0 to 4 and a port that is an integer from 0 to
    65535. *)
Theorem overlay_numbers_in_range (src : Js.value) :
  (exists z, Options.logLevel (overlay src) = Js.ofZ z /\ (0 <= z <= 4)%Z)
  /\ (exists z, Options.port (overlay src) = Js.ofZ z /\ (0 <= z <= 65535)%Z).
Proof.
  destruct (Js.instanceofObject src) eqn:Hobj.
  2:{ subst overlay. unfold Options.overlayOptions. rewrite Hobj. simpl.
      split; [exists 3%Z|exists 3000%Z]; split; try reflexivity; lia. }
  subst overlay.
  rewrite (overlay_logLevel _ _ _ _ Hobj), (overlay_port _ _ _ _ Hobj).
  split.
  - unfold Options.overlayLogLevel.
    destruct (Js.asNumber (Js.prop src "logLevel")) as [[| |q]|];
      try (exists 3%Z; split; [reflexivity|lia]).
    + destruct negative; exists 3%Z; split; try reflexivity; lia.
    + destruct (Js.le LogLevel.OFF (Js.Finite q)) eqn:H0;
        [|exists 3%Z; split; [reflexivity|lia]].
      destruct (Js.le (Js.Finite q) LogLevel.DEBUG) eqn:H4;
        [|exists 3%Z; split; [reflexivity|lia]].
      exists (Qfloor q). split; [reflexivity|].
      apply Qfloor_between; assumption.
  - assert (Hd : Options.port (Options.overlayLogLevel src
                   (Options.getDefaultOptions defaultDbPath)) = Js.ofZ 3000).
    { unfold Options.overlayLogLevel.
      destruct (Js.asNumber (Js.prop src "logLevel")) as [n|];
        [destruct (Js.le LogLevel.OFF n && Js.le n LogLevel.DEBUG)|];
        reflexivity. }
    unfold Options.overlayPort.
    destruct (Js.asNumber (Js.prop src "port")) as [[| |q]|];
      try (exists 3000%Z; split; [exact Hd|lia]).
    + destruct negative; exists 3000%Z; split; try exact Hd; lia.
    + destruct (Js.le (Js.ofZ 0) (Js.Finite q)) eqn:H0;
        [|exists 3000%Z; split; [exact Hd|lia]].
      destruct (Js.le (Js.Finite q) (Js.ofZ 65535)) eqn:H4;
        [|exists 3000%Z; split; [exact Hd|lia]].
      exists (Qfloor q). split; [reflexivity|].
      apply Qfloor_between; assumption.
Qed.

(** X7: a source list of paths is replaced by its string entries,
    trimmed, the blank ones left out, in their order, or by the single
    path ["/"] when none is left; the default list stays when the source
    has no list.  So the path list of the result is never empty and holds
    no empty string. *)
Theorem overlay_getPaths_reachable (src : Js.value) :
  Options.getPaths (overlay src)
  = match Js.prop src "getPaths" with
    | Js.VArr l =>
        match keepSome trimmedEntry l with
        | [] => ["/"]
        | paths => paths
        end
    | _ => ["/"; "/*"]
    end
  /\ Options.getPaths (overlay src) <> []
  /\ (forall p, In p (Options.getPaths (overlay src)) -> p <> "").
Proof.
  rewrite overlay_getPaths.
  split; [|split].
  - destruct (Js.prop src "getPaths"); try reflexivity.
    rewrite trimmedStrings_entries. reflexivity.
  - destruct (Js.prop src "getPaths"); try discriminate.
    destruct (Options.trimmedStrings elements); discriminate.
  - intros p.
    assert (Hdef : In p ["/"; "/*"] -> p <> "")
      by (simpl; intros [<-|[<-|[]]]; discriminate).
    destruct (Js.prop src "getPaths"); try exact Hdef.
    destruct (Options.trimmedStrings elements) as [|x xs] eqn:E.
    + simpl. intros [<-|[]]. discriminate.
    + rewrite <- E. intros Hin. apply In_trimmedStrings in Hin. tauto.
Qed.

(** X8: every output toggle of the result is the literal boolean the
    source gives under that name in [enabledOutputs], and its default
    ([country] and [subdivision] on, the others off) when the source gives
    none or something that is not a boolean. *)
Theorem overlay_enabledOutputs_toggles (src : Js.value) (name : string) :
  In name Options.outputKeys ->
  outputOf (Options.enabledOutputs (overlay src)) name
  = match Js.prop (Js.prop src "enabledOutputs") name with
    | Js.VBool b => b
    | _ => String.eqb name "country" || String.eqb name "subdivision"
    end.
Proof.
  intros Hn. rewrite overlay_enabledOutputs.
  rewrite (outputOf_assignOutputs _ _ _ _ Hn).
  assert (Hk : includes Options.outputKeys name = true)
    by (apply includes_In; assumption).
  rewrite Hk.
  assert (Hd : outputOf (Options.enabledOutputs defaults) name
               = (String.eqb name "country" || String.eqb name "subdivision")).
  { simpl in Hn. destruct Hn as [<-|[<-|[<-|[<-|[<-|[]]]]]]; reflexivity. }
  destruct (Js.prop (Js.prop src "enabledOutputs") name); simpl;
    try exact Hd; reflexivity.
Qed.

(** X9: the CORS settings of the result hold an origins list exactly
    when the source gives an array, then its string entries, trimmed, the
    blank ones left out, in their order (so never an empty string); and
    as expression the source's non-empty string or regular expression, and
    [null] when the source gives anything else. *)
Theorem overlay_cors_settings (src : Js.value) :
  Options.cors (overlay src)
  = {| Cors.origins :=
         match Js.prop (Js.prop src "cors") "origins" with
         | Js.VArr l => Some (keepSome trimmedEntry l)
         | _ => None
         end;
       Cors.originRegEx :=
         match Js.prop (Js.prop src "cors") "originRegEx" with
         | Js.VStr s => if nonEmpty s then Js.VStr s else Js.VNull
         | Js.VRegExp re => Js.VRegExp re
         | _ => Js.VNull
         end |}
  /\ (forall l o, Cors.origins (Options.cors (overlay src)) = Some l ->
      In o l -> o <> "").
Proof.
  rewrite overlay_cors. split.
  - destruct (Js.prop (Js.prop src "cors") "origins"); try reflexivity.
    rewrite trimmedStrings_entries. reflexivity.
  - intros l o. cbn [Cors.origins].
    destruct (Js.prop (Js.prop src "cors") "origins"); try discriminate.
    intros [= <-] Hin. apply In_trimmedStrings in Hin. tauto.
Qed.

End OptionsFields.

Section FieldExamples.
#[local] Existing Instance Sample.strings.

(** X7, on a list whose entries are blank or no strings, and on one with
    a usable entry *)
Lemma overlay_getPaths_reachable_witness :
  Options.getPaths
    (Options.overlayOptions "/" "/home/gwa" "/srv/GeoLite2-Country.mmdb"
       (Js.VObj [("getPaths", Js.VArr [Js.VStr "  "; Js.VNull])]))
  = ["/"]
  /\ Options.getPaths
       (Options.overlayOptions "/" "/home/gwa" "/srv/GeoLite2-Country.mmdb"
          (Js.VObj [("getPaths",
                     Js.VArr [Js.VStr " /geo "; Js.VNum (Js.ofZ 1);
                              Js.VStr "/ip"])]))
     = ["/geo"; "/ip"].
Proof.
  split.
  - rewrite (proj1 (overlay_getPaths_reachable
                      "/" "/home/gwa" "/srv/GeoLite2-Country.mmdb"
                      (Js.VObj [("getPaths", Js.VArr [Js.VStr "  "; Js.VNull])]))).
    reflexivity.
  - rewrite (proj1 (overlay_getPaths_reachable
                      "/" "/home/gwa" "/srv/GeoLite2-Country.mmdb"
                      (Js.VObj [("getPaths",
                                 Js.VArr [Js.VStr " /geo "; Js.VNum (Js.ofZ 1);
                                          Js.VStr "/ip"])]))).
    reflexivity.
Defined.

(** X8, on a source that switches [ip] on and gives [country] a string *)
Lemma overlay_enabledOutputs_toggles_witness :
  outputOf
    (Options.enabledOutputs
       (Options.overlayOptions "/" "/home/gwa" "/srv/GeoLite2-Country.mmdb"
          (Js.VObj [("enabledOutputs",
                     Js.VObj [("ip", Js.VBool true);
                              ("country", Js.VStr "no")])])))
    "ip"
  = true.
Proof.
  exact (overlay_enabledOutputs_toggles
           "/" "/home/gwa" "/srv/GeoLite2-Country.mmdb"
           (Js.VObj [("enabledOutputs",
                      Js.VObj [("ip", Js.VBool true);
                               ("country", Js.VStr "no")])])
           "ip" ltac:(simpl; auto)).
Defined.

(** X9, on a source with one blank and one usable origin *)
Lemma overlay_cors_settings_witness :
  Options.cors
    (Options.overlayOptions "/" "/home/gwa" "/srv/GeoLite2-Country.mmdb"
       (Js.VObj [("cors",
                  Js.VObj [("origins",
                            Js.VArr [Js.VStr " "; Js.VStr " https://a.example "]);
                           ("originRegEx", Js.VStr "")])]))
  = {| Cors.origins := Some ["https://a.example"];
       Cors.originRegEx := Js.VNull |}.
Proof.
  rewrite (proj1 (overlay_cors_settings
                    "/" "/home/gwa" "/srv/GeoLite2-Country.mmdb"
                    (Js.VObj [("cors",
                               Js.VObj [("origins",
                                         Js.VArr [Js.VStr " ";
                                                  Js.VStr " https://a.example "]);
                                        ("originRegEx", Js.VStr "")])]))).
  reflexivity.
Defined.

End FieldExamples.

(** ** Header names of the result *)

Lemma classes_NoDup {RT : Str.Runtime} {V : Type} (o : Obj.t V) :
  (forall name,
     length (filter (fun e => sameName (fst e) name) o) <= 1) ->
  NoDup (map Str.toLowerCase (Obj.keys o)).
Proof.
  induction o as [|[k v] o IH]; intros Hone; simpl; constructor.
  - intros Hin. apply in_map_iff in Hin. destruct Hin as (k' & Hlow & Hk').
    apply In_keys in Hk'. destruct Hk' as [v' Hv'].
    specialize (Hone k). simpl in Hone. rewrite sameName_refl in Hone.
    simpl in Hone.
    assert (Hf : In (k', v') (filter (fun e => sameName (fst e) k) o)).
    { apply filter_In. split; [assumption|]. unfold sameName. simpl.
      rewrite Hlow. apply String.eqb_refl. }
    destruct (filter (fun e => sameName (fst e) k) o); [contradiction|].
    simpl in Hone. lia.
  - apply IH. intros name. specialize (Hone name). simpl in Hone.
    destruct (sameName k name); simpl in Hone; lia.
Qed.

Section HeaderNames.
Context {RT : Str.Runtime}.
Variables sep homedir defaultDbPath : string.

Lemma overlay_getHeaders_default (src : Js.value) :
  Js.instanceofObject (Js.prop src "getHeaders") = false ->
  Options.getHeaders (Options.overlayOptions sep homedir defaultDbPath src) = [].
Proof.
  intros Hh. destruct (Js.instanceofObject src) eqn:Hobj.
  - rewrite (overlay_blocks _ _ _ _ Hobj).
    destruct (backendBlocks_frame sep homedir defaultDbPath src
                (earlyBlocks defaultDbPath src)) as (_ & _ & ->).
    unfold earlyBlocks.
    rewrite (proj1 (proj2 (proj2 (overlayCors_frame _ _)))),
      (proj1 (proj2 (proj2 (overlayGetPaths_frame _ _)))).
    unfold Options.overlayGetHeaders. rewrite Hh.
    rewrite (proj1 (proj2 (overlayPrettyOutput_rest _ _))),
      (proj1 (proj2 (proj2 (overlayEnabledOutputs_rest _ _)))),
      (proj1 (proj2 (proj2 (overlayPort_rest _ _)))),
      (proj1 (proj2 (proj2 (overlayLogLevel_rest _ _)))).
    reflexivity.
  - unfold Options.overlayOptions. rewrite Hobj. reflexivity.
Qed.

(** X10: no two header names of the result are equal up to letter case,
    whatever the source gives as [getHeaders]. *)
Theorem overlay_header_names_distinct (src : Js.value) :
  NoDup (Js.keys (Js.prop src "getHeaders")) ->
  NoDup (map Str.toLowerCase
           (Obj.keys
              (Options.getHeaders
                 (Options.overlayOptions sep homedir defaultDbPath src)))).
Proof.
  intros Hnd.
  destruct (Js.instanceofObject (Js.prop src "getHeaders")) eqn:Hh.
  - rewrite (overlay_getHeaders _ _ _ _ Hh).
    apply classes_NoDup. intros name.
    destruct (staged_invariant (Js.prop src "getHeaders") _ Hnd)
      as (_ & H2 & _).
    rewrite (H2 name).
    destruct (lastApplied _ _ name) as [k|]; [|simpl; lia].
    destruct (String.eqb k "__proto__"); simpl; lia.
  - rewrite (overlay_getHeaders_default _ Hh). constructor.
Qed.

End HeaderNames.

Section HeaderNamesExample.
#[local] Existing Instance Sample.strings.

(** X10, on the header object with two spellings of one name *)
Lemma overlay_header_names_distinct_witness :
  NoDup (map Str.toLowerCase
           (Obj.keys
              (Options.getHeaders
                 (Options.overlayOptions "/" "/home/gwa"
                    "/srv/GeoLite2-Country.mmdb" Sample.headerSource)))).
Proof.
  exact (overlay_header_names_distinct
           "/" "/home/gwa" "/srv/GeoLite2-Country.mmdb" Sample.headerSource
           ltac:(repeat constructor; simpl; intuition discriminate)).
Defined.

End HeaderNamesExample.

(** ** Backend selection and start-up *)

Lemma nonEmpty_iff (s : string) : nonEmpty s = true <-> s <> "".
Proof. unfold nonEmpty. rewrite negb_true_iff. apply String.eqb_neq. Qed.

Lemma nonEmpty_false_iff (s : string) : nonEmpty s = false <-> s = "".
Proof. unfold nonEmpty. rewrite negb_false_iff. apply String.eqb_eq. Qed.

Lemma expandTildePath_nonEmpty (sep homedir path : string) :
  homedir <> "" -> path <> "" ->
  Utils.expandTildePath sep homedir path <> "".
Proof.
  intros Hh Hp.
  destruct (expandTildePath_cases homedir sep path)
    as [E|[(Hs & Hq & E)|[(Hs & rest & Hq & E)|(tail & E)]]];
    rewrite E; try assumption.
  - apply append_nonEmpty_r. discriminate.
  - discriminate.
Qed.

Lemma trimmedPath_entry {RT : Str.Runtime} (v : Js.value) :
  Options.trimmedPath v = trimmedEntry v.
Proof. destruct v; reflexivity. Qed.

Section Backend.
Context {RT : Str.Runtime}.
Variables sep homedir defaultDbPath : string.

(** X11: when the source names no MaxMind path and gives a non-blank
    [ip2location.dbPath], the overlaid configuration selects IP2LOCATION
    (the home directory being non-empty): [getDbOptions] carries the
    expanded database path, with the CSV path expanded when one is given
    and empty otherwise, and [getDbInterface] constructs that adapter. *)
Theorem ip2location_selected (src : Js.value) (q : string) :
  homedir <> "" ->
  Js.instanceofObject src = true ->
  (forall p, Js.prop (Js.prop src "maxmind") "dbPath" = Js.VStr p ->
             Str.trim p = "") ->
  Js.prop (Js.prop src "ip2location") "dbPath" = Js.VStr q ->
  Str.trim q <> "" ->
  let chosen :=
    {| IP2Location.dbPath := Utils.expandTildePath sep homedir (Str.trim q);
       IP2Location.subdivisionCsvPath :=
         match trimmedEntry
                 (Js.prop (Js.prop src "ip2location") "subdivisionCsvPath") with
         | Some csv => Utils.expandTildePath sep homedir csv
         | None => ""
         end |} in
  let r := Options.overlayOptions sep homedir defaultDbPath src in
  Options.getDbOptions r
  = {| Db.dbProvider := Db.IP2LOCATION;
       Db.maxMindOptions := None;
       Db.ip2LocationOptions := Some chosen |}
  /\ Db.getDbInterface (Options.getDbOptions r) = inr (Db.GwaIP2Location chosen).
Proof.
  intros Hh Hobj Hblank Hq Hnb. cbv zeta.
  rewrite <- trimmedPath_entry.
  assert (Hnone : Options.trimmedPath (Js.prop (Js.prop src "maxmind") "dbPath")
                  = None).
  { rewrite trimmedPath_entry.
    destruct (Js.prop (Js.prop src "maxmind") "dbPath") as [| | | |p| | |];
      try reflexivity.
    cbn [trimmedEntry]. rewrite (Hblank p eq_refl). reflexivity. }
  assert (Hio : Js.instanceofObject (Js.prop src "ip2location") = true).
  { apply (prop_instanceofObject _ "dbPath"). rewrite Hq. discriminate. }
  assert (Htq : Options.trimmedPath (Js.VStr q) = Some (Str.trim q)).
  { unfold Options.trimmedPath. simpl.
    rewrite (proj2 (nonEmpty_iff _) Hnb). reflexivity. }
  destruct (earlyBlocks_backends defaultDbPath src) as [Hm Hi].
  assert (Hr : Options.maxmind (Options.overlayOptions sep homedir defaultDbPath src)
               = {| MaxMind.dbPath := "" |}
               /\ Options.ip2location
                    (Options.overlayOptions sep homedir defaultDbPath src)
                  = {| IP2Location.dbPath :=
                         Utils.expandTildePath sep homedir (Str.trim q);
                       IP2Location.subdivisionCsvPath :=
                         match Options.trimmedPath
                                 (Js.prop (Js.prop src "ip2location")
                                    "subdivisionCsvPath") with
                         | Some csv => Utils.expandTildePath sep homedir csv
                         | None => ""
                         end |}).
  { rewrite (overlay_blocks _ _ _ _ Hobj).
    unfold backendBlocks, Options.overlayMaxmind. rewrite Hnone.
    destruct (Js.instanceofObject (Js.prop src "maxmind")); simpl;
      unfold Options.overlayIp2location; rewrite Hio, Hq, Htq;
      destruct (Options.trimmedPath
                  (Js.prop (Js.prop src "ip2location") "subdivisionCsvPath"));
      simpl; rewrite ?Hi; split; reflexivity. }
  destruct Hr as [Hrm Hri].
  unfold Options.getDbOptions. rewrite Hrm, Hri. simpl.
  rewrite (proj2 (nonEmpty_iff _)
             (expandTildePath_nonEmpty sep homedir _ Hh Hnb)).
  split; reflexivity.
Qed.

End Backend.

Section BackendExample.
#[local] Existing Instance Sample.strings.

(** X11, on a source that names the IP2Location database and its CSV *)
Lemma ip2location_selected_witness :
  Db.dbProvider
    (Options.getDbOptions
       (Options.overlayOptions "/" "/home/gwa" "/srv/GeoLite2-Country.mmdb"
          (Js.VObj [("ip2location",
                     Js.VObj [("dbPath", Js.VStr " ~/ip2l.bin");
                              ("subdivisionCsvPath", Js.VStr "/srv/sub.csv")])])))
  = Db.IP2LOCATION.
Proof.
  destruct (ip2location_selected "/" "/home/gwa" "/srv/GeoLite2-Country.mmdb"
    (Js.VObj [("ip2location",
               Js.VObj [("dbPath", Js.VStr " ~/ip2l.bin");
                        ("subdivisionCsvPath", Js.VStr "/srv/sub.csv")])])
    " ~/ip2l.bin") as [Hdb _].
  - discriminate.
  - reflexivity.
  - intros p Hp. discriminate Hp.
  - reflexivity.
  - cbv. discriminate.
  - rewrite Hdb. reflexivity.
Defined.

End BackendExample.

Section CliFacts.
Context {RT : Str.Runtime}.
Variables sep homedir defaultDbPath : string.
Variable readJson : string -> option Js.value.
Variable accessSync : string -> option string.

Let run := Cli.run sep homedir defaultDbPath readJson accessSync.
Let databasePath := Cli.databasePath sep homedir.


(** X13: [run] fails with the messages of the source: a [--config] value
    that is truthy but no string, or a blank string, is an invalid config
    path; a configuration that cannot be read or parsed is reported under
    the path stripped of one enclosing quote; and options whose two
    database paths are empty never reach the server. *)
Theorem run_failures (argvConfig : Js.value) :
  (Js.truthy argvConfig = true ->
   (forall s, argvConfig = Js.VStr s -> Str.trim s = "") ->
   run argvConfig = inl "Invalid custom config path")
  /\ (forall s,
        argvConfig = Js.VStr s -> Str.trim s <> "" ->
        Str.trim (Utils.expandTildePath sep homedir (Cli.stripEnds (Str.trim s)))
          <> "" ->
        readJson (Utils.expandTildePath sep homedir (Cli.stripEnds (Str.trim s)))
          = None ->
        run argvConfig
        = inl ("Failed to read custom config at " ++ Cli.stripEnds (Str.trim s))%string)
  /\ (forall options,
        MaxMind.dbPath (Options.maxmind options) = "" ->
        IP2Location.dbPath (Options.ip2location options) = "" ->
        run argvConfig <> inr options).
Proof.
  subst run. split; [|split].
  - intros Ht Hs. unfold Cli.run. rewrite Ht.
    destruct argvConfig; try reflexivity.
    simpl. rewrite (Hs s eq_refl). reflexivity.
  - intros s -> Hne Hpath Hread. unfold Cli.run.
    assert (Ht : Js.truthy (Js.VStr s) = true).
    { simpl. apply nonEmpty_iff. intros ->. apply Hne. apply trim_empty. }
    rewrite Ht. simpl. rewrite (proj2 (nonEmpty_iff _) Hne). simpl.
    unfold Cli.getUserOptions.
    rewrite (proj2 (nonEmpty_iff _) Hpath), Hread. reflexivity.
  - intros options Hm Hi Hrun.
    assert (Hdb : Cli.databasePath sep homedir options = "").
    { unfold Cli.databasePath. rewrite Hm, Hi. reflexivity. }
    assert (Hend : forall o,
               match Utils.assertPath accessSync (Cli.databasePath sep homedir o) with
               | Some _ =>
                   inl ("Could not read database at "
                        ++ Cli.databasePath sep homedir o)%string
               | None => inr o
               end = inr options -> o = options).
    { intros o. destruct (Utils.assertPath accessSync _); [discriminate|].
      intros [= ->]. reflexivity. }
    unfold Cli.run in Hrun.
    assert (Hfail : Utils.assertPath accessSync
                      (Cli.databasePath sep homedir options) <> None).
    { rewrite Hdb. unfold Utils.assertPath. rewrite trim_empty. discriminate. }
    destruct (Js.truthy argvConfig).
    + destruct (negb (nonEmpty match Js.asString argvConfig with
                               | Some s => Str.trim s
                               | None => ""
                               end)); [discriminate|].
      destruct (Cli.getUserOptions sep homedir defaultDbPath readJson _)
        as [o|]; [|discriminate].
      pose proof (Hend _ Hrun) as ->.
      destruct (Utils.assertPath accessSync
                  (Cli.databasePath sep homedir options));
        [discriminate|contradiction Hfail; reflexivity].
    + pose proof (Hend _ Hrun) as Ho. rewrite Ho in Hrun.
      destruct (Utils.assertPath accessSync
                  (Cli.databasePath sep homedir options));
        [discriminate|contradiction Hfail; reflexivity].
Qed.

End CliFacts.

Section CliExamples.
#[local] Existing Instance Sample.strings.


(** X13, for [--config] given without a value, for a quoted path of a
    file that cannot be read, and for options that name no database *)
Lemma run_failures_witness :
  Cli.run "/" "/home/gwa" "/srv/GeoLite2-Country.mmdb"
    Sample.readJson Sample.accessSync (Js.VBool true)
  = inl "Invalid custom config path"
  /\ Cli.run "/" "/home/gwa" "/srv/GeoLite2-Country.mmdb"
       Sample.readJson Sample.accessSync (Js.VStr " '~/gwa.json' ")
     = inl "Failed to read custom config at ~/gwa.json"
  /\ Cli.run "/" "/home/gwa" "/srv/GeoLite2-Country.mmdb"
       Sample.readJson Sample.accessSync Js.VUndefined
     <> inr (Options.withMaxmind {| MaxMind.dbPath := "" |}
               (Options.getDefaultOptions "/srv/GeoLite2-Country.mmdb")).
Proof.
  split; [|split].
  - apply (run_failures "/" "/home/gwa" "/srv/GeoLite2-Country.mmdb"
             Sample.readJson Sample.accessSync (Js.VBool true)).
    + reflexivity.
    + intros s Hs. discriminate Hs.
  - assert (Hconfig : Str.trim " '~/gwa.json' " <> "") by (cbv; discriminate).
    assert (Hpath : Str.trim
                      (Utils.expandTildePath "/" "/home/gwa"
                         (Cli.stripEnds (Str.trim " '~/gwa.json' "))) <> "")
      by (cbv; discriminate).
    exact (proj1 (proj2 (run_failures "/" "/home/gwa"
                           "/srv/GeoLite2-Country.mmdb"
                           Sample.readJson Sample.accessSync
                           (Js.VStr " '~/gwa.json' ")))
             " '~/gwa.json' " eq_refl Hconfig Hpath eq_refl).
  - apply (run_failures "/" "/home/gwa" "/srv/GeoLite2-Country.mmdb"
             Sample.readJson Sample.accessSync Js.VUndefined);
      reflexivity.
Defined.

End CliExamples.

(** ** The logger *)

Lemma le_trans (a b c : Js.number) :
  Js.le a b = true -> Js.le b c = true -> Js.le a c = true.
Proof.
  destruct a as [|[|]|x], b as [|[|]|y], c as [|[|]|z]; simpl;
    try discriminate; try reflexivity.
  intros Hxy Hyz. apply Qle_bool_iff in Hxy. apply Qle_bool_iff in Hyz.
  apply Qle_bool_iff. eapply Qle_trans; eassumption.
Qed.

(** X14: the severities are nested: whatever its level, a logger that
    writes a debug message writes info messages, one that writes info
    messages writes warnings, and one that writes warnings writes errors;
    each message goes to one console method with its arguments unchanged;
    at level OFF nothing is written, and a logger made without a level
    writes info messages but no debug messages. *)
Theorem logger_severities_nested {A : Type} (log : Log.GwaLog) (args : A) :
  (Log.debug log args <> [] -> Log.info log args = [(Log.ConsoleLog, args)])
  /\ (Log.info log args <> [] -> Log.warn log args = [(Log.ConsoleWarn, args)])
  /\ (Log.warn log args <> [] -> Log.error log args = [(Log.ConsoleError, args)])
  /\ (Log.debug log args = [] \/ Log.debug log args = [(Log.ConsoleDebug, args)])
  /\ (Log.level_ log = LogLevel.OFF ->
      Log.error log args = [] /\ Log.warn log args = []
      /\ Log.info log args = [] /\ Log.debug log args = [])
  /\ (Log.info (Log.create None) args = [(Log.ConsoleLog, args)]
      /\ Log.debug (Log.create None) args = []).
Proof.
  assert (H43 : Js.le LogLevel.INFO LogLevel.DEBUG = true) by reflexivity.
  assert (H32 : Js.le LogLevel.WARN LogLevel.INFO = true) by reflexivity.
  assert (H21 : Js.le LogLevel.ERROR LogLevel.WARN = true) by reflexivity.
  unfold Log.debug, Log.info, Log.warn, Log.error.
  split; [|split; [|split; [|split; [|split]]]].
  - destruct (Js.le LogLevel.DEBUG (Log.level_ log)) eqn:E;
      [|intros Hn; contradiction Hn; reflexivity].
    rewrite (le_trans _ _ _ H43 E). reflexivity.
  - destruct (Js.le LogLevel.INFO (Log.level_ log)) eqn:E;
      [|intros Hn; contradiction Hn; reflexivity].
    rewrite (le_trans _ _ _ H32 E). reflexivity.
  - destruct (Js.le LogLevel.WARN (Log.level_ log)) eqn:E;
      [|intros Hn; contradiction Hn; reflexivity].
    rewrite (le_trans _ _ _ H21 E). reflexivity.
  - destruct (Js.le LogLevel.DEBUG (Log.level_ log)); [right|left]; reflexivity.
  - intros ->. repeat split.
  - split; reflexivity.
Qed.

(** X14, for a logger at level WARN *)
Lemma logger_severities_nested_witness :
  Log.error (Log.setLevel LogLevel.WARN (Log.create None)) "database missing"
  = [(Log.ConsoleError, "database missing")].
Proof.
  exact (proj1 (proj2 (proj2
    (logger_severities_nested
       (Log.setLevel LogLevel.WARN (Log.create None)) "database missing")))
    ltac:(discriminate)).
Defined.

(** ** The matcher and its configuration *)

Lemma In_keepSome {A B : Type} (f : A -> option B) (l : list A) (y : B) :
  In y (keepSome f l) <-> exists x, In x l /\ f x = Some y.
Proof.
  induction l as [|a l IH]; simpl.
  - split; [intros []|intros (x & [] & _)].
  - destruct (f a) as [b|] eqn:E; simpl; rewrite IH; split.
    + intros [<-|(x & Hx & Hf)]; [exists a; auto|exists x; auto].
    + intros (x & [<-|Hx] & Hf); [left; congruence|right; exists x; auto].
    + intros (x & Hx & Hf). exists x. auto.
    + intros (x & [<-|Hx] & Hf); [congruence|exists x; auto].
Qed.

Section MatcherFacts.
Context {RT : Str.Runtime}.
Variable urlOrigin : string -> option string.
Variable regExpCompiles : string -> bool.
Variable regExpTest : Js.RegExp -> string -> bool * nat.
Hypothesis origin_nonEmpty : forall s o, urlOrigin s = Some o -> o <> "".

Lemma In_sanitizeOrigins (l : list string) (x : string) :
  (exists kept, Cors.sanitizeOrigins urlOrigin (Some l) = Some kept /\ In x kept)
  <-> exists o, In o l /\ survivingOrigin urlOrigin o = Some x.
Proof.
  unfold Cors.sanitizeOrigins.
  rewrite (sanitize_pipeline urlOrigin origin_nonEmpty).
  rewrite <- In_keepSome.
  destruct (keepSome (survivingOrigin urlOrigin) l) as [|y ys]; simpl.
  - split; [intros (kept & [=] & _)|intros []].
  - split.
    + intros (kept & [= <-] & Hin). exact Hin.
    + intros Hin. eexists. split; [reflexivity|exact Hin].
Qed.

(** X15: after [setOrigins] with a list, [isCorsOrigin] answers true
    exactly for a non-empty origin that is the URL origin of a listed
    entry, non-blank once trimmed, or on which the [test] of the stored
    expression answers true; [setOrigins] leaves the stored expression as
    it was, and [setOriginRegEx] the stored list. *)
Theorem setOrigins_allows_listed (c : Cors.GwaCors) (l : list string)
  (x : string) (pattern : Js.value) :
  (fst (Cors.isCorsOrigin regExpTest (Cors.setOrigins urlOrigin (Some l) c) x)
   = true
   <-> x <> ""
       /\ ((exists o, In o l /\ Str.trim o <> ""
                      /\ urlOrigin (Str.trim o) = Some x)
           \/ (exists r, Cors.originRegEx_ c = Some r
                         /\ fst (regExpTest r x) = true)))
  /\ Cors.originRegEx_ (Cors.setOrigins urlOrigin (Some l) c)
     = Cors.originRegEx_ c
  /\ Cors.origins_ (Cors.setOriginRegEx regExpCompiles pattern c)
     = Cors.origins_ c.
Proof.
  split; [|split; reflexivity].
  assert (Hsurv : forall o,
             survivingOrigin urlOrigin o = Some x
             <-> Str.trim o <> "" /\ urlOrigin (Str.trim o) = Some x).
  { intros o. unfold survivingOrigin.
    destruct (nonEmpty (Str.trim o)) eqn:E.
    - apply nonEmpty_iff in E. tauto.
    - apply nonEmpty_false_iff in E. split; [discriminate|tauto]. }
  rewrite isCorsOrigin_answer. cbn [Cors.setOrigins Cors.origins_ Cors.originRegEx_].
  split; intros [Hx Hm]; (split; [exact Hx|]).
  - destruct Hm as [(kept & E & Hin)|Hm]; [left|right; exact Hm].
    destruct (proj1 (In_sanitizeOrigins l x)) as (o & Ho & Hs).
    { exists kept. split; [exact E|exact Hin]. }
    exists o. split; [assumption|]. apply Hsurv. assumption.
  - destruct Hm as [(o & Ho & Ht & Hu)|Hm]; [left|right; exact Hm].
    apply (proj2 (In_sanitizeOrigins l x)).
    exists o. split; [assumption|]. apply Hsurv. split; assumption.
Qed.

Section FromOverlay.
Variables sep homedir defaultDbPath : string.

Let matcher (src : Js.value) : Cors.GwaCors :=
  Cors.create urlOrigin regExpCompiles
    (Options.cors (Options.overlayOptions sep homedir defaultDbPath src)).

(** X16: the matcher built from an overlaid configuration allows the URL
    origin of every string the source lists under [cors.origins] that is
    non-blank and parses once trimmed, answers it with a header granting
    that origin, and does so without consulting the stored expression;
    built from a source that gives neither an origins array nor a string
    or regular expression under [cors.originRegEx], it allows no origin at
    all. *)
Theorem matcher_of_overlay (src : Js.value) :
  (forall l s x,
     Js.prop (Js.prop src "cors") "origins" = Js.VArr l ->
     In (Js.VStr s) l ->
     Str.trim s <> "" ->
     urlOrigin (Str.trim s) = Some x ->
     Cors.isCorsOrigin regExpTest (matcher src) x = (true, matcher src)
     /\ Cors.getCorsHeaders regExpTest (matcher src) (Some x)
        = (Some [("Access-Control-Allow-Origin", x)], matcher src))
  /\ ((forall l, Js.prop (Js.prop src "cors") "origins" <> Js.VArr l) ->
      (forall s, Js.prop (Js.prop src "cors") "originRegEx" <> Js.VStr s) ->
      (forall re, Js.prop (Js.prop src "cors") "originRegEx" <> Js.VRegExp re) ->
      forall origin,
        Cors.isCorsOrigin regExpTest (matcher src) origin = (false, matcher src)
        /\ Cors.getCorsHeaders regExpTest (matcher src) (Some origin)
           = (None, matcher src)).
Proof.
  subst matcher. cbv beta. rewrite overlay_cors. split.
  - intros l s x Hl Hin Hts Hu. rewrite Hl.
    assert (Hx : x <> "") by exact (origin_nonEmpty _ _ Hu).
    destruct (proj2 (In_sanitizeOrigins (Options.trimmedStrings l) x))
      as (kept & Hkept & Hk).
    { exists (Str.trim s). split.
      - apply In_trimmedStrings. split; [assumption|].
        exists s. split; [assumption|reflexivity].
      - unfold survivingOrigin. rewrite Str.trim_idempotent.
        rewrite (proj2 (nonEmpty_iff _) Hts). assumption. }
    match goal with
    | |- Cors.isCorsOrigin _ ?c _ = _ /\ _ =>
        assert (Hallowed : Cors.isCorsOrigin regExpTest c x = (true, c))
    end.
    { apply (isCorsOrigin_listed regExpTest _ kept); assumption. }
    split; [exact Hallowed|].
    rewrite getCorsHeaders_answer, Hallowed. reflexivity.
  - intros Hno Hns Hnr origin.
    assert (Ho : match Js.prop (Js.prop src "cors") "origins" with
                 | Js.VArr l => Some (Options.trimmedStrings l)
                 | _ => None
                 end = None).
    { destruct (Js.prop (Js.prop src "cors") "origins"); try reflexivity.
      contradiction (Hno elements). reflexivity. }
    assert (Hr : match Js.prop (Js.prop src "cors") "originRegEx" with
                 | Js.VStr s => if nonEmpty s then Js.VStr s else Js.VNull
                 | Js.VRegExp re => Js.VRegExp re
                 | _ => Js.VNull
                 end = Js.VNull).
    { destruct (Js.prop (Js.prop src "cors") "originRegEx") as [| | | |s| | |re];
        try reflexivity.
      - contradiction (Hns s). reflexivity.
      - contradiction (Hnr re). reflexivity. }
    rewrite Ho, Hr.
    match goal with
    | |- Cors.isCorsOrigin _ ?c _ = _ /\ _ =>
        assert (Hf : Cors.isCorsOrigin regExpTest c origin = (false, c))
    end.
    { apply isCorsOrigin_nothing_stored; reflexivity. }
    split; [exact Hf|].
    rewrite getCorsHeaders_answer, Hf. reflexivity.
Qed.

End FromOverlay.
End MatcherFacts.

(** X3, for a path outside the home directory *)
Lemma expandTildePath_home_witness :
  Utils.expandTildePath "/" "/home/gwa" "/srv/GeoLite2-Country.mmdb"
  = "/srv/GeoLite2-Country.mmdb".
Proof.
  apply (proj1 (expandTildePath_home "/home/gwa" "/"
                  "/srv/GeoLite2-Country.mmdb")).
  left. discriminate.
Defined.

Section MatcherExamples.
#[local] Existing Instance Sample.strings.

(** X15, on the sample origin parser *)
Lemma setOrigins_allows_listed_witness :
  fst (Cors.isCorsOrigin Sample.regExpTest
         (Cors.setOrigins Sample.urlOrigin (Some [" https://example.com/path "])
            {| Cors.origins_ := None; Cors.originRegEx_ := None |})
         "https://example.com")
  = true.
Proof.
  apply (proj1 (setOrigins_allows_listed Sample.urlOrigin Sample.regExpCompiles
                  Sample.regExpTest sample_origin_nonEmpty
                  {| Cors.origins_ := None; Cors.originRegEx_ := None |}
                  [" https://example.com/path "] "https://example.com"
                  Js.VNull)).
  split; [discriminate|]. left.
  exists " https://example.com/path ".
  split; [left; reflexivity|]. split; [cbv; discriminate|reflexivity].
Defined.

(** X16, on a source that lists one origin *)
Lemma matcher_of_overlay_witness :
  fst (Cors.getCorsHeaders Sample.regExpTest
         (Cors.create Sample.urlOrigin Sample.regExpCompiles
            (Options.cors
               (Options.overlayOptions "/" "/home/gwa"
                  "/srv/GeoLite2-Country.mmdb"
                  (Js.VObj [("cors",
                             Js.VObj [("origins",
                                       Js.VArr [Js.VStr " https://example.com/ "])])]))))
         (Some "https://example.com"))
  = Some [("Access-Control-Allow-Origin", "https://example.com")].
Proof.
  destruct (proj1 (matcher_of_overlay Sample.urlOrigin Sample.regExpCompiles
                     Sample.regExpTest sample_origin_nonEmpty
                     "/" "/home/gwa" "/srv/GeoLite2-Country.mmdb"
                     (Js.VObj [("cors",
                                Js.VObj [("origins",
                                          Js.VArr [Js.VStr " https://example.com/ "])])]))
              [Js.VStr " https://example.com/ "] " https://example.com/ "
              "https://example.com") as [_ Hh].
  - reflexivity.
  - left. reflexivity.
  - cbv. discriminate.
  - reflexivity.
  - rewrite Hh. reflexivity.
Defined.

End MatcherExamples.

(** ** The matcher's constructor and setters *)

Section MatcherSetters.
Context {RT : Str.Runtime}.
Variable urlOrigin : string -> option string.
Variable regExpCompiles : string -> bool.

(** X17: an expression compiled from a pattern string is that pattern
    with the one flag [i]; the constructor stores what the two setters
    would store, except for the empty pattern string, for which the
    constructor stores no expression while [setOriginRegEx] compiles it. *)
Theorem constructor_and_setters (options : Cors.CorsOptions) (c : Cors.GwaCors) :
  (forall pattern r,
     Cors.parseOriginsRegEx regExpCompiles (Js.VStr pattern) = Some r ->
     regExpCompiles pattern = true
     /\ r = {| Js.source := pattern; Js.flags := "i"; Js.lastIndex := 0 |})
  /\ (Cors.originRegEx options <> Js.VStr "" ->
      Cors.create urlOrigin regExpCompiles options
      = Cors.setOriginRegEx regExpCompiles (Cors.originRegEx options)
          (Cors.setOrigins urlOrigin (Cors.origins options) c))
  /\ (Cors.originRegEx options = Js.VStr "" ->
      Cors.originRegEx_ (Cors.create urlOrigin regExpCompiles options) = None
      /\ (regExpCompiles "" = true ->
          Cors.originRegEx_
            (Cors.setOriginRegEx regExpCompiles (Cors.originRegEx options) c)
          = Some {| Js.source := ""; Js.flags := "i"; Js.lastIndex := 0 |})).
Proof.
  split; [|split].
  - intros pattern r. simpl.
    destruct (regExpCompiles pattern); [|discriminate].
    intros [= <-]. split; reflexivity.
  - intros Hne. unfold Cors.create, Cors.setOriginRegEx, Cors.setOrigins.
    cbn [Cors.origins_ Cors.originRegEx_]. f_equal.
    destruct (Cors.originRegEx options) as [| |b|n|s| | |]; try reflexivity.
    + destruct b; reflexivity.
    + destruct n as [| |q]; try reflexivity. simpl.
      destruct (Qeq_bool q 0); reflexivity.
    + destruct s; [contradiction Hne; reflexivity|reflexivity].
  - intros E. unfold Cors.create, Cors.setOriginRegEx.
    cbn [Cors.originRegEx_]. rewrite E. split; [reflexivity|].
    intros Hc. simpl. rewrite Hc. reflexivity.
Qed.

End MatcherSetters.

Section SettersExample.
#[local] Existing Instance Sample.strings.

(** X17, for a pattern that compiles *)
Lemma constructor_and_setters_witness :
  Cors.originRegEx_
    (Cors.create Sample.urlOrigin Sample.regExpCompiles Sample.corsOptions)
  = Some {| Js.source := ".example.org"; Js.flags := "i"; Js.lastIndex := 0 |}.
Proof.
  rewrite (proj1 (proj2 (constructor_and_setters
                           Sample.urlOrigin Sample.regExpCompiles
                           Sample.corsOptions
                           {| Cors.origins_ := None; Cors.originRegEx_ := None |}))
             ltac:(discriminate)).
  reflexivity.
Defined.

End SettersExample.

(** ** Quoted configuration paths *)

Lemma lastChar_snoc (s : string) (c : ascii) :
  Str.lastChar (s ++ String c "")%string = Some c.
Proof.
  induction s as [|a s IH]; [reflexivity|].
  destruct s as [|b s]; [reflexivity|exact IH].
Qed.

Lemma quote_isGraphic (q : ascii) :
  Cli.isQuoteOrSpace q = true -> Str.isWhiteSpace q = false ->
  Str.isGraphic q = true.
Proof.
  unfold Cli.isQuoteOrSpace, Str.isGraphic. intros Hq Hw. rewrite Hw in Hq.
  rewrite orb_false_r in Hq. apply orb_true_iff in Hq.
  destruct Hq as [Hq|Hq]; apply Nat.eqb_eq in Hq; rewrite Hq; reflexivity.
Qed.

Lemma stripLast_snoc (s : string) (c : ascii) :
  Cli.isQuoteOrSpace c = true ->
  Cli.stripLast (s ++ String c "")%string = s.
Proof.
  intros Hc. induction s as [|a s IH]; simpl.
  - rewrite Hc. reflexivity.
  - rewrite IH. destruct s; reflexivity.
Qed.

Section QuotedConfig.
Context {RT : Str.Runtime}.
Variables sep homedir defaultDbPath : string.
Variable readJson : string -> option Js.value.
Variable accessSync : string -> option string.

(** X18: [run] treats a configuration path enclosed in one pair of quotes
    like the bare path: for a non-empty path without surrounding white
    space and without a quote at either end, both arguments load the same
    file and give the same result. *)
Theorem run_ignores_enclosing_quotes (path : string) (q1 q2 : ascii) :
  path <> "" ->
  Str.trim path = path ->
  Cli.stripEnds path = path ->
  Cli.isQuoteOrSpace q1 = true -> Str.isWhiteSpace q1 = false ->
  Cli.isQuoteOrSpace q2 = true -> Str.isWhiteSpace q2 = false ->
  Cli.run sep homedir defaultDbPath readJson accessSync
    (Js.VStr (String q1 (path ++ String q2 "")))
  = Cli.run sep homedir defaultDbPath readJson accessSync (Js.VStr path).
Proof.
  intros Hne Htrim Hstrip Hq1 Hw1 Hq2 Hw2.
  assert (Ht : Str.trim (String q1 (path ++ String q2 ""))
               = String q1 (path ++ String q2 "")).
  { apply Str.trim_graphic. cbn [Str.graphicEnds].
    rewrite (quote_isGraphic q1 Hq1 Hw1).
    change (String q1 (path ++ String q2 ""))
      with (String q1 path ++ String q2 "")%string.
    rewrite lastChar_snoc. exact (quote_isGraphic q2 Hq2 Hw2). }
  assert (Hs : Cli.stripEnds (String q1 (path ++ String q2 "")) = path).
  { cbn [Cli.stripEnds]. rewrite Hq1. apply stripLast_snoc. assumption. }
  unfold Cli.run.
  cbn [Js.truthy Js.asString nonEmpty String.eqb negb].
  rewrite (proj2 (nonEmpty_iff _) Hne).
  rewrite Ht, Hs, Htrim, Hstrip.
  cbn [nonEmpty String.eqb negb].
  rewrite (proj2 (nonEmpty_iff _) Hne). reflexivity.
Qed.

End QuotedConfig.

Section QuotedExample.
#[local] Existing Instance Sample.strings.

(** X18, for a single-quoted path *)
Lemma run_ignores_enclosing_quotes_witness :
  Cli.run "/" "/home/gwa" "/srv/GeoLite2-Country.mmdb"
    Sample.readJson Sample.accessSync (Js.VStr "'/etc/gwa.json'")
  = Cli.run "/" "/home/gwa" "/srv/GeoLite2-Country.mmdb"
      Sample.readJson Sample.accessSync (Js.VStr "/etc/gwa.json").
Proof.
  exact (run_ignores_enclosing_quotes
           "/" "/home/gwa" "/srv/GeoLite2-Country.mmdb"
           Sample.readJson Sample.accessSync "/etc/gwa.json" "'" "'"
           ltac:(discriminate) eq_refl eq_refl eq_refl eq_refl eq_refl eq_refl).
Defined.

End QuotedExample.

(** ** Where the two overlays can differ *)

Section SharedFields.
Context {RT : Str.Runtime}.
Variables sep homedir defaultDbPath : string.
Variable stringToNumber : Js.value -> Js.number.

Ltac kept :=
  intros; unfold sharedFields;
  repeat match goal with
         | |- context [match ?x with _ => _ end] => destruct x
         end;
  reflexivity.

Lemma shared_ts_numbers src t :
  sharedFields (Options.overlayPort src (Options.overlayLogLevel src t))
  = sharedFields t.
Proof. unfold Options.overlayPort, Options.overlayLogLevel. kept. Qed.

Lemma shared_js_numbers src t :
  sharedFields (OptionsJs.overlayPort stringToNumber src
                  (OptionsJs.overlayLogLevel stringToNumber src t))
  = sharedFields t.
Proof.
  unfold OptionsJs.overlayPort, OptionsJs.overlayLogLevel. cbv zeta.
  destruct (Js.lt _ _), (Js.le _ _ && Js.le _ _); reflexivity.
Qed.

Lemma shared_ts_backend src t :
  sharedFields (backendBlocks sep homedir src t) = sharedFields t.
Proof.
  unfold sharedFields.
  destruct (backendBlocks_rest sep homedir src t) as (-> & -> & -> & ->).
  destruct (backendBlocks_frame sep homedir defaultDbPath src t) as (_ & _ & ->).
  reflexivity.
Qed.

Lemma shared_js_backend src t :
  sharedFields
    (let '(target, maxMindDefined) := OptionsJs.overlayMaxmind sep homedir src t in
     if negb maxMindDefined
     then OptionsJs.overlayIp2location sep homedir src target
     else target)
  = sharedFields t.
Proof.
  assert (Hi : forall u,
             sharedFields (OptionsJs.overlayIp2location sep homedir src u)
             = sharedFields u).
  { unfold OptionsJs.overlayIp2location. kept. }
  unfold OptionsJs.overlayMaxmind.
  destruct (Js.instanceofObject (Js.prop src "maxmind"));
    [destruct (OptionsJs.truthyString (Js.prop (Js.prop src "maxmind") "dbPath"))|];
    simpl; rewrite ?Hi; reflexivity.
Qed.

Lemma shared_blocks src t t' :
  sharedFields t = sharedFields t' ->
  sharedFields
    (Options.overlayCors src
       (Options.overlayGetPaths src
          (Options.overlayGetHeaders src
             (Options.overlayPrettyOutput src
                (Options.overlayEnabledOutputs src t)))))
  = sharedFields
      (Options.overlayCors src
         (Options.overlayGetPaths src
            (Options.overlayGetHeaders src
               (Options.overlayPrettyOutput src
                  (Options.overlayEnabledOutputs src t'))))).
Proof.
  unfold sharedFields. intros [= He Hp Hh Hg Hc].
  unfold Options.overlayEnabledOutputs.
  rewrite !fold_outputs_assign.
  destruct t, t'. simpl in He, Hp, Hh, Hg, Hc. subst.
  unfold Options.overlayCors, Options.overlayGetPaths, Options.overlayGetHeaders,
    Options.overlayPrettyOutput.
  repeat match goal with
         | |- context [match ?x with _ => _ end] => destruct x
         end;
    reflexivity.
Qed.

(** X19: for every source the two overlays agree on the output toggles,
    the pretty-print flag, the header map, the path list and the CORS
    settings; they can differ only in the log level, the port and the
    backend paths. *)
Theorem overlays_share_fields (src : Js.value) :
  Options.enabledOutputs (Options.overlayOptions sep homedir defaultDbPath src)
  = Options.enabledOutputs
      (OptionsJs.overlayOptions sep homedir defaultDbPath stringToNumber src)
  /\ Options.prettyOutput (Options.overlayOptions sep homedir defaultDbPath src)
     = Options.prettyOutput
         (OptionsJs.overlayOptions sep homedir defaultDbPath stringToNumber src)
  /\ Options.getHeaders (Options.overlayOptions sep homedir defaultDbPath src)
     = Options.getHeaders
         (OptionsJs.overlayOptions sep homedir defaultDbPath stringToNumber src)
  /\ Options.getPaths (Options.overlayOptions sep homedir defaultDbPath src)
     = Options.getPaths
         (OptionsJs.overlayOptions sep homedir defaultDbPath stringToNumber src)
  /\ Options.cors (Options.overlayOptions sep homedir defaultDbPath src)
     = Options.cors
         (OptionsJs.overlayOptions sep homedir defaultDbPath stringToNumber src).
Proof.
  assert (Hs : sharedFields (Options.overlayOptions sep homedir defaultDbPath src)
               = sharedFields
                   (OptionsJs.overlayOptions sep homedir defaultDbPath
                      stringToNumber src)).
  { destruct (Js.instanceofObject src) eqn:Hobj.
    - rewrite (overlay_blocks _ _ _ _ Hobj), shared_ts_backend.
      unfold OptionsJs.overlayOptions. rewrite Hobj. cbv zeta.
      cbn [negb]. rewrite shared_js_backend.
      rewrite <- overlayCors_agree, <- overlayGetHeaders_agree,
        <- overlayEnabledOutputs_agree.
      change OptionsJs.overlayPrettyOutput with Options.overlayPrettyOutput.
      change OptionsJs.overlayGetPaths with Options.overlayGetPaths.
      unfold earlyBlocks.
      apply shared_blocks.
      rewrite shared_ts_numbers, shared_js_numbers. reflexivity.
    - unfold Options.overlayOptions, OptionsJs.overlayOptions.
      rewrite Hobj. reflexivity. }
  unfold sharedFields in Hs. injection Hs as He Hp Hh Hg Hc.
  repeat split; assumption.
Qed.

End SharedFields.
